(** * weblin: the goroutine manager (package goroutine)

    A shallow embedding of [GoroutineManager] and of the bounded waits of
    package goroutine, with its goroutines run by an explicit scheduler.

    - A [World] is the manager, the [taskWrapper] records it allocated (a
      heap: the registry and the goroutines hold pointers to them), the set
      of cancel functions that were called, the goroutines launched so far,
      the log of observable events and the flag of a terminated process.
    - The manager's methods hold [gm.mu] from entry to exit, so each one is a
      function on worlds.  What goroutines do while a method waits is given
      by a schedule, one entry per unit of time.
    - A work function is opaque to the manager: it is modelled by what it
      does at each scheduling quantum, given whether its context is done. *)

From stdpp Require Import gmap strings list.
From Stdlib Require Import ZArith Lia.

Module goroutine.

(** ** Data *)

(** [type WaitError int] with its three constants. *)
Inductive WaitError := WaitSuccess | WaitTimeout | WaitInvalidParam.

(** A [context.Context] built from [context.Background()] by
    [context.WithCancel]; [id] names the cancel function returned with it. *)
Inductive Context :=
  | Background
  | WithCancel (id : nat) (parent : Context).

(** [ctx.Done()] is closed once the context's own cancel function was called
    or the parent's Done channel is closed. [fired] holds the cancel
    functions called so far. *)
Fixpoint Done (fired : gset nat) (ctx : Context) : bool :=
  match ctx with
  | Background => false
  | WithCancel id parent => bool_decide (id ∈ fired) || Done fired parent
  end.

(** The non-nil value [recover()] returns for a panic. *)
Definition Payload := string.

(** What a work function does at its [k]-th quantum. *)
Inductive Step := Running | Returned | Panicked (p : Payload).

(** [func(ctx context.Context)]: the step taken at quantum [k] when
    [ctx.Done()] is closed or not. *)
Definition Task := nat -> bool -> Step.

(** A call of the panic handler returns or panics itself. *)
Inductive HandlerResult := HandlerReturns | HandlerPanics (q : Payload).

(** [type PanicHandleFunc func(interface{})] *)
Definition PanicHandleFunc := Payload -> HandlerResult.

Record taskWrapper := {
  childWG : Z;
  childCtx : Context;
  childCancel : nat;
  task : Task
}.

(** [mu] is not a field: every method holds it throughout. A [*taskWrapper]
    is an index into the world's heap. *)
Record GoroutineManager := {
  PanicHandler : option PanicHandleFunc;
  parentWG : Z;
  parentCtx : Context;
  parentCancel : nat;
  tasks : gmap string nat
}.

(** Where a launched goroutine stands: in the work function at quantum [k];
    entering the deferred closure with the result of [recover()]; before
    [childWG.Done()]; before [parentWG.Done()]; finished. *)
Inductive PC :=
  | AtTask (k : nat)
  | AtDefer (r : option Payload)
  | AtChildDone
  | AtParentDone
  | Exited.

Record Goroutine := { tw : nat; pc : PC }.

Inductive Event :=
  | EvParentAdd
  | EvChildAdd (ptr : nat)
  | EvGo (g : nat) (ptr : nat)
  | EvPanicHandler (g : nat) (p : Payload)
  | EvChildDone (g : nat) (ptr : nat)
  | EvParentDone (g : nat).

Record World := {
  gm : GoroutineManager;
  heap : list taskWrapper;
  fired : gset nat;
  goroutines : list Goroutine;
  trace : list Event;
  crashed : bool
}.

(** [fmt.Errorf] values of the manager, by message. *)
Inductive error :=
  | ErrGoroutineNotTerminated (name : string) (timeout : Z)
  | ErrGoroutinesNotTerminated (timeout : Z)
  | ErrTaskNotExist (name : string).

(** A call returns an [error] ([None] is nil), or never returns. *)
Inductive Result := Returns (e : option error) | NeverReturns.

(** A [*sync.WaitGroup] of the manager. *)
Inductive WaitGroup := ParentWG | ChildWG (ptr : nat).

(** What happens while a call waits: the goroutine scheduled at each unit of
    time ([None]: none), and the case [select] takes when both are ready. *)
Record Env := { sched : list (option nat); pick : bool }.

(** ** Field updates *)

Definition set_gm (m : GoroutineManager) (w : World) : World :=
  {| gm := m; heap := heap w; fired := fired w; goroutines := goroutines w;
     trace := trace w; crashed := crashed w |}.

Definition set_heap (h : list taskWrapper) (w : World) : World :=
  {| gm := gm w; heap := h; fired := fired w; goroutines := goroutines w;
     trace := trace w; crashed := crashed w |}.

Definition set_goroutines (gs : list Goroutine) (w : World) : World :=
  {| gm := gm w; heap := heap w; fired := fired w; goroutines := gs;
     trace := trace w; crashed := crashed w |}.

Definition log (e : Event) (w : World) : World :=
  {| gm := gm w; heap := heap w; fired := fired w; goroutines := goroutines w;
     trace := trace w ++ [e]; crashed := crashed w |}.

(** An unrecovered panic terminates the process. *)
Definition crash (w : World) : World :=
  {| gm := gm w; heap := heap w; fired := fired w; goroutines := goroutines w;
     trace := trace w; crashed := true |}.

(** Calling the cancel function [id]; calling it again changes nothing. *)
Definition cancel (id : nat) (w : World) : World :=
  {| gm := gm w; heap := heap w; fired := {[id]} ∪ fired w;
     goroutines := goroutines w; trace := trace w; crashed := crashed w |}.

Definition set_parentWG (c : Z) (m : GoroutineManager) : GoroutineManager :=
  {| PanicHandler := PanicHandler m; parentWG := c; parentCtx := parentCtx m;
     parentCancel := parentCancel m; tasks := tasks m |}.

Definition set_tasks (ts : gmap string nat) (m : GoroutineManager) : GoroutineManager :=
  {| PanicHandler := PanicHandler m; parentWG := parentWG m; parentCtx := parentCtx m;
     parentCancel := parentCancel m; tasks := ts |}.

Definition set_PanicHandler (h : option PanicHandleFunc) (m : GoroutineManager)
  : GoroutineManager :=
  {| PanicHandler := h; parentWG := parentWG m; parentCtx := parentCtx m;
     parentCancel := parentCancel m; tasks := tasks m |}.

Definition set_childWG (c : Z) (t : taskWrapper) : taskWrapper :=
  {| childWG := c; childCtx := childCtx t; childCancel := childCancel t; task := task t |}.

Definition set_pc (g : nat) (p : PC) (w : World) : World :=
  match goroutines w !! g with
  | Some G => set_goroutines (<[g := {| tw := tw G; pc := p |}]> (goroutines w)) w
  | None => w
  end.

(** ** sync.WaitGroup *)

Definition counter (wg : WaitGroup) (w : World) : Z :=
  match wg with
  | ParentWG => parentWG (gm w)
  | ChildWG ptr => from_option childWG 0%Z (heap w !! ptr)
  end.

Definition set_counter (wg : WaitGroup) (c : Z) (w : World) : World :=
  match wg with
  | ParentWG => set_gm (set_parentWG c (gm w)) w
  | ChildWG ptr =>
      match heap w !! ptr with
      | Some t => set_heap (<[ptr := set_childWG c t]> (heap w)) w
      | None => w
      end
  end.

(** [wg.Add(delta)]: panics when the counter would become negative. *)
Definition wg_Add (wg : WaitGroup) (delta : Z) (w : World) : World :=
  let c := (counter wg w + delta)%Z in
  if (c <? 0)%Z then crash w else set_counter wg c w.

(** [wg.Done()] is [wg.Add(-1)]. *)
Definition wg_Done (wg : WaitGroup) (w : World) : World := wg_Add wg (-1) w.

(** ** A launched goroutine

    The closure of [StartAll] and of [Start]:
    [defer func() { if err := recover(); err != nil { if gm.PanicHandler !=
    nil { gm.PanicHandler(err) } }; tw.childWG.Done(); gm.parentWG.Done() }()]
    then [tw.task(tw.childCtx)]. [gstep g] runs one quantum of goroutine [g]. *)
Definition gstep (g : nat) (w : World) : World :=
  if crashed w then w else
  match goroutines w !! g with
  | None => w
  | Some G =>
      match pc G with
      | AtTask k =>
          match heap w !! tw G with
          | None => crash w
          | Some t =>
              match task t k (Done (fired w) (childCtx t)) with
              | Running => set_pc g (AtTask (S k)) w
              | Returned => set_pc g (AtDefer None) w
              | Panicked p => set_pc g (AtDefer (Some p)) w
              end
          end
      | AtDefer None => set_pc g AtChildDone w
      | AtDefer (Some p) =>
          match PanicHandler (gm w) with
          | None => set_pc g AtChildDone w
          | Some h =>
              match h p with
              | HandlerReturns => set_pc g AtChildDone (log (EvPanicHandler g p) w)
              | HandlerPanics _ => crash (log (EvPanicHandler g p) w)
              end
          end
      | AtChildDone =>
          let w' := wg_Done (ChildWG (tw G)) w in
          if crashed w' then w' else set_pc g AtParentDone (log (EvChildDone g (tw G)) w')
      | AtParentDone =>
          let w' := wg_Done ParentWG w in
          if crashed w' then w' else set_pc g Exited (log (EvParentDone g) w')
      | Exited => w
      end
  end.

(** One unit of time. *)
Definition tick (o : option nat) (w : World) : World :=
  match o with
  | Some g => gstep g w
  | None => w
  end.

Definition run_ticks (s : list (option nat)) (w : World) : World :=
  foldl (fun w o => tick o w) w s.

(** ** WaitGroupWithTimeout *)

(** [wg.Wait()]: returns once the counter is zero; [false] when the schedule
    ends (or the process dies) with the caller still blocked. *)
Fixpoint wg_Wait (wg : WaitGroup) (s : list (option nat)) (w : World) : World * bool :=
  if crashed w then (w, false)
  else if (counter wg w =? 0)%Z then (w, true)
  else match s with
       | [] => (w, false)
       | o :: s' => wg_Wait wg s' (tick o w)
       end.

(** The [select] between [done], closed after [wg.Wait()], and
    [time.After(timeout)], with [remaining] units left before the timer fires.
    When both are ready [select] takes either case. After the schedule's end
    nothing runs any more. The goroutine that waits and closes [done] is not
    one of the world's goroutines: the value returned does not depend on
    it. When the timer wins it is left blocked in [wg.Wait()] and the world
    keeps no record of it, so what a leftover waiter does later is not
    covered by [crashed]. *)
Fixpoint select_done_or_timer (wg : WaitGroup) (remaining : Z) (s : list (option nat))
    (pick : bool) (w : World) : World * option WaitError :=
  if crashed w then (w, None)
  else if (remaining <=? 0)%Z then
    (w, Some (if (counter wg w =? 0)%Z && pick then WaitSuccess else WaitTimeout))
  else if (counter wg w =? 0)%Z then (w, Some WaitSuccess)
  else match s with
       | [] => (w, Some WaitTimeout)
       | o :: s' => select_done_or_timer wg (remaining - 1) s' pick (tick o w)
       end.

(** [wg] is [None] for a nil pointer; [timeout] counts units of time. *)
Definition WaitGroupWithTimeout (wg : option WaitGroup) (timeout : Z) (env : Env)
    (w : World) : World * option WaitError :=
  match wg with
  | None => (w, Some WaitInvalidParam)
  | Some r =>
      if (timeout <? 0)%Z then
        match wg_Wait r (sched env) w with
        | (w', true) => (w', Some WaitSuccess)
        | (w', false) => (w', None)
        end
      else select_done_or_timer r timeout (sched env) (pick env) w
  end.

(** ** GoroutineManager *)

Definition NewGoroutineManager : World :=
  {| gm := {| PanicHandler := None; parentWG := 0; parentCtx := WithCancel 0 Background;
              parentCancel := 0; tasks := ∅ |};
     heap := []; fired := ∅; goroutines := []; trace := []; crashed := false |}.

(** [gm.PanicHandler = h] *)
Definition SetPanicHandler (h : option PanicHandleFunc) (w : World) : World :=
  set_gm (set_PanicHandler h (gm w)) w.

(** The new wrapper is allocated at the end of the heap; its cancel function
    is a fresh one. *)
Definition AddTask (name : string) (f : Task) (w : World) : World :=
  let ptr := length (heap w) in
  let id := S ptr in
  let t := {| childWG := 0; childCtx := WithCancel id (parentCtx (gm w));
              childCancel := id; task := f |} in
  set_gm (set_tasks (<[name := ptr]> (tasks (gm w))) (gm w)) (set_heap (heap w ++ [t]) w).

(** The [go] statement: a new goroutine on wrapper [ptr]. *)
Definition go (ptr : nat) (w : World) : World :=
  log (EvGo (length (goroutines w)) ptr)
      (set_goroutines (goroutines w ++ [{| tw := ptr; pc := AtTask 0 |}]) w).

(** The body of the loop of [StartAll]. *)
Definition StartAll_body (ptr : nat) (w : World) : World :=
  let w1 := log EvParentAdd (wg_Add ParentWG 1 w) in
  let w2 := log (EvChildAdd ptr) (wg_Add (ChildWG ptr) 1 w1) in
  go ptr w2.

Definition StartAll_loop (l : list nat) (w : World) : World :=
  foldl (fun w ptr => StartAll_body ptr w) w l.

Definition StartAll (w : World) : World :=
  StartAll_loop (snd <$> map_to_list (tasks (gm w))) w.

Definition Start (name : string) (w : World) : World * Result :=
  match tasks (gm w) !! name with
  | None => (w, Returns (Some (ErrTaskNotExist name)))
  | Some ptr =>
      let w1 := log EvParentAdd (wg_Add ParentWG 1 w) in
      let w2 := log (EvChildAdd ptr) (wg_Add (ChildWG ptr) 1 w1) in
      (go ptr w2, Returns None)
  end.

Definition RemoveTask (name : string) (timeout : Z) (env : Env) (w : World)
  : World * Result :=
  match tasks (gm w) !! name with
  | Some ptr =>
      match heap w !! ptr with
      | None => (crash w, NeverReturns)
      | Some t =>
          match WaitGroupWithTimeout (Some (ChildWG ptr)) timeout env (cancel (childCancel t) w) with
          | (w', Some WaitSuccess) =>
              (set_gm (set_tasks (delete name (tasks (gm w'))) (gm w')) w', Returns None)
          | (w', Some _) => (w', Returns (Some (ErrGoroutineNotTerminated name timeout)))
          | (w', None) => (w', NeverReturns)
          end
      end
  | None => (w, Returns None)
  end.

Definition StopAll (timeout : Z) (env : Env) (w : World) : World * Result :=
  match WaitGroupWithTimeout (Some ParentWG) timeout env (cancel (parentCancel (gm w)) w) with
  | (w', Some WaitSuccess) => (w', Returns None)
  | (w', Some _) => (w', Returns (Some (ErrGoroutinesNotTerminated timeout)))
  | (w', None) => (w', NeverReturns)
  end.

Definition Stop (name : string) (timeout : Z) (env : Env) (w : World) : World * Result :=
  match tasks (gm w) !! name with
  | Some ptr =>
      match heap w !! ptr with
      | None => (crash w, NeverReturns)
      | Some t =>
          match WaitGroupWithTimeout (Some (ChildWG ptr)) timeout env (cancel (childCancel t) w) with
          | (w', Some WaitSuccess) => (w', Returns None)
          | (w', Some _) => (w', Returns (Some (ErrGoroutineNotTerminated name timeout)))
          | (w', None) => (w', NeverReturns)
          end
      end
  | None => (w, Returns None)
  end.

(** ** Programs over the manager

    What a process does with a manager: calls of its methods, interleaved
    with quanta of the goroutines it launched. A terminated process does
    nothing more. *)
Inductive Op :=
  | OpSetPanicHandler (h : option PanicHandleFunc)
  | OpAddTask (name : string) (f : Task)
  | OpRemoveTask (name : string) (timeout : Z) (env : Env)
  | OpStartAll
  | OpStopAll (timeout : Z) (env : Env)
  | OpStart (name : string)
  | OpStop (name : string) (timeout : Z) (env : Env)
  | OpSched (g : nat).

Definition exec (o : Op) (w : World) : World :=
  if crashed w then w else
  match o with
  | OpSetPanicHandler h => SetPanicHandler h w
  | OpAddTask name f => AddTask name f w
  | OpRemoveTask name timeout env => (RemoveTask name timeout env w).1
  | OpStartAll => StartAll w
  | OpStopAll timeout env => (StopAll timeout env w).1
  | OpStart name => (Start name w).1
  | OpStop name timeout env => (Stop name timeout env w).1
  | OpSched g => gstep g w
  end.

Definition run (ops : list Op) (w : World) : World :=
  foldl (fun w o => exec o w) w ops.

Definition reachable (w : World) : Prop := ∃ ops, w = run ops NewGoroutineManager.

(** ** Counting goroutines *)

Definition b2z (b : bool) : Z := if b then 1%Z else 0%Z.

Fixpoint count (P : Goroutine -> bool) (l : list Goroutine) : Z :=
  match l with
  | [] => 0%Z
  | G :: l' => (b2z (P G) + count P l')%Z
  end.

(** Goroutine [G] runs wrapper [ptr] and has not yet called
    [childWG.Done()]. *)
Definition pending_child (ptr : nat) (G : Goroutine) : bool :=
  bool_decide (tw G = ptr) &&
  match pc G with
  | AtTask _ | AtDefer _ | AtChildDone => true
  | AtParentDone | Exited => false
  end.

(** Goroutine [G] has not yet called [parentWG.Done()]. *)
Definition pending_parent (G : Goroutine) : bool :=
  match pc G with
  | Exited => false
  | _ => true
  end.

(** The invariant of the manager: each WaitGroup counts the goroutines that
    still owe it a [Done()]; every wrapper's context is a child of the
    manager's context with a cancel function of its own; the registry and
    the goroutines point into the heap; no two names share a wrapper; only
    cancel functions that were handed out have been called. *)
Record wf (w : World) : Prop := {
  wf_child : ∀ ptr t, heap w !! ptr = Some t →
      childWG t = count (pending_child ptr) (goroutines w);
  wf_parent : parentWG (gm w) = count pending_parent (goroutines w);
  wf_ctx : ∀ ptr t, heap w !! ptr = Some t →
      childCancel t = S ptr ∧ childCtx t = WithCancel (S ptr) (parentCtx (gm w));
  wf_root : parentCtx (gm w) = WithCancel 0 Background ∧ parentCancel (gm w) = 0;
  wf_tasks : ∀ name ptr, tasks (gm w) !! name = Some ptr → ptr < length (heap w);
  wf_goroutines : ∀ g G, goroutines w !! g = Some G → tw G < length (heap w);
  wf_names : ∀ n1 n2 ptr,
      tasks (gm w) !! n1 = Some ptr → tasks (gm w) !! n2 = Some ptr → n1 = n2;
  wf_fired : ∀ id, id ∈ fired w → id ≤ length (heap w)
}.

(** The number of units of time after which the counter is first seen at
    zero by a live process, if ever. *)
Fixpoint zero_time (wg : WaitGroup) (s : list (option nat)) (w : World) : option Z :=
  if crashed w then None
  else if (counter wg w =? 0)%Z then Some 0%Z
  else match s with
       | [] => None
       | o :: s' => Z.succ <$> zero_time wg s' (tick o w)
       end.

(** The process is still alive after the first [n] units of time. *)
Definition alive_after (n : Z) (s : list (option nat)) (w : World) : bool :=
  negb (crashed (run_ticks (take (Z.to_nat n) s) w)).

(** The handler, when one is installed, returns on payload [p]. *)
Definition handler_returns (h : option PanicHandleFunc) (p : Payload) : Prop :=
  ∀ f, h = Some f → f p = HandlerReturns.

(** The events the deferred closure of goroutine [g] on wrapper [ptr] logs
    after the work function panicked with [p]. *)
Definition recovered_events (h : option PanicHandleFunc) (g ptr : nat) (p : Payload)
  : list Event :=
  match h with
  | Some _ => [EvPanicHandler g p; EvChildDone g ptr; EvParentDone g]
  | None => [EvChildDone g ptr; EvParentDone g]
  end.

(** What a goroutine quantum never touches: the registry, the handler, the
    contexts and the cancel functions called, which wrapper each goroutine
    runs, and every wrapper but for its counter. *)
Record frame (w w' : World) : Prop := {
  frame_tasks : tasks (gm w') = tasks (gm w);
  frame_handler : PanicHandler (gm w') = PanicHandler (gm w);
  frame_parentCtx : parentCtx (gm w') = parentCtx (gm w);
  frame_parentCancel : parentCancel (gm w') = parentCancel (gm w);
  frame_fired : fired w' = fired w;
  frame_tw : tw <$> goroutines w' = tw <$> goroutines w;
  frame_heap : set_childWG 0 <$> heap w' = set_childWG 0 <$> heap w
}.

(** [DefaultPanicHandler] prints the panic value to standard error and
    returns. *)
Definition DefaultPanicHandler : PanicHandleFunc := λ _, HandlerReturns.

(** ** Work functions and handlers used as examples *)

(** Loops until its context is done, then returns. *)
Definition until_canceled : Task := λ _ done, if done then Returned else Running.

(** Returns at once. *)
Definition returns_at_once : Task := λ _ _, Returned.

(** Never looks at its context and never returns. *)
Definition busy_loop : Task := λ _ _, Running.

(** Panics at once. *)
Definition panics_at_once : Task := λ _ _, Panicked "boom".

(** A handler that panics with the value it was given. *)
Definition rethrow : PanicHandleFunc := λ p, HandlerPanics p.

(** Every handler a program installs returns, whatever the panic value. *)
Definition handler_total (h : option PanicHandleFunc) : Prop :=
  ∀ f p, h = Some f → f p = HandlerReturns.

Definition handlers_return (ops : list Op) : Prop :=
  Forall (λ o, match o with
               | OpSetPanicHandler h => handler_total h
               | _ => True
               end) ops.

(** Every wait of the program succeeds: each of its [RemoveTask], [StopAll]
    and [Stop] calls returns nil, so that no call leaves a waiter of
    [WaitGroupWithTimeout] behind. *)
Fixpoint waits_succeed (ops : list Op) (w : World) : Prop :=
  match ops with
  | [] => True
  | o :: ops' =>
      (crashed w = false →
       match o with
       | OpRemoveTask name timeout env => (RemoveTask name timeout env w).2 = Returns None
       | OpStopAll timeout env => (StopAll timeout env w).2 = Returns None
       | OpStop name timeout env => (Stop name timeout env w).2 = Returns None
       | _ => True
       end)
      ∧ waits_succeed ops' (exec o w)
  end.

(** A live process whose manager is well formed and whose handler returns. *)
Definition safe (w : World) : Prop :=
  wf w ∧ crashed w = false ∧ handler_total (PanicHandler (gm w)).

(** ** WaitCancelWithTimeout *)

(** What happens during a unit of time while a call waits on a context: a
    goroutine of the manager runs a quantum (or none does), or some other
    goroutine of the process calls a cancel function. *)
Inductive Happening :=
  | Quantum (o : option nat)
  | CancelCalled (id : nat).

Definition happen (h : Happening) (w : World) : World :=
  match h with
  | Quantum o => tick o w
  | CancelCalled id => if crashed w then w else cancel id w
  end.

Definition run_happenings (s : list Happening) (w : World) : World :=
  foldl (fun w h => happen h w) w s.

(** [<-ctx.Done()]: returns once the channel is closed. *)
Fixpoint ctx_Wait (ctx : Context) (s : list Happening) (w : World) : World * bool :=
  if crashed w then (w, false)
  else if Done (fired w) ctx then (w, true)
  else match s with
       | [] => (w, false)
       | h :: s' => ctx_Wait ctx s' (happen h w)
       end.

(** The [select] between [ctx.Done()] and [time.After(timeout)]. *)
Fixpoint select_ctx_or_timer (ctx : Context) (remaining : Z) (s : list Happening)
    (pick : bool) (w : World) : World * option WaitError :=
  if crashed w then (w, None)
  else if (remaining <=? 0)%Z then
    (w, Some (if Done (fired w) ctx && pick then WaitSuccess else WaitTimeout))
  else if Done (fired w) ctx then (w, Some WaitSuccess)
  else match s with
       | [] => (w, Some WaitTimeout)
       | h :: s' => select_ctx_or_timer ctx (remaining - 1) s' pick (happen h w)
       end.

Definition WaitCancelWithTimeout (ctx : Context) (timeout : Z) (s : list Happening)
    (pick : bool) (w : World) : World * option WaitError :=
  if (timeout <? 0)%Z then
    match ctx_Wait ctx s w with
    | (w', true) => (w', Some WaitSuccess)
    | (w', false) => (w', None)
    end
  else select_ctx_or_timer ctx timeout s pick w.

(** The cancel functions that close a context's Done channel: its own and
    its ancestors'. *)
Fixpoint cancels (ctx : Context) : list nat :=
  match ctx with
  | Background => []
  | WithCancel id parent => id :: cancels parent
  end.

(** Nobody calls a cancel function of [ctx] during [s]. *)
Definition not_canceled_during (ctx : Context) (s : list Happening) : Prop :=
  Forall (λ h, match h with
               | CancelCalled id => id ∉ cancels ctx
               | Quantum _ => True
               end) s.

(** ** What a goroutine has logged *)

(** The events the deferred closure of goroutine [g] logs. *)
Definition closure_event (g : nat) (e : Event) : bool :=
  match e with
  | EvPanicHandler g' _ | EvChildDone g' _ | EvParentDone g' => bool_decide (g' = g)
  | EvParentAdd | EvChildAdd _ | EvGo _ _ => false
  end.

Definition events_of (g : nat) (tr : list Event) : list Event :=
  List.filter (closure_event g) tr.

(** What goroutine [g] may have logged, by where it stands: nothing before
    the deferred closure; then at most one handler call, then its
    [childWG.Done()], then its [parentWG.Done()]. A handler call is logged
    with the goroutine still entering the closure only in a process that
    the handler terminated. *)
Definition logged_ok (g : nat) (G : Goroutine) (dead : bool) (evs : list Event) : Prop :=
  match pc G with
  | AtTask _ | AtDefer None => evs = []
  | AtDefer (Some p) => evs = [] ∨ (dead = true ∧ evs = [EvPanicHandler g p])
  | AtChildDone => evs = [] ∨ ∃ p, evs = [EvPanicHandler g p]
  | AtParentDone =>
      evs = [EvChildDone g (tw G)] ∨ ∃ p, evs = [EvPanicHandler g p; EvChildDone g (tw G)]
  | Exited =>
      evs = [EvChildDone g (tw G); EvParentDone g]
      ∨ ∃ p, evs = [EvPanicHandler g p; EvChildDone g (tw G); EvParentDone g]
  end.

Definition trace_ok (w : World) : Prop :=
  ∀ g, match goroutines w !! g with
       | Some G => logged_ok g G (crashed w) (events_of g (trace w))
       | None => events_of g (trace w) = []
       end.

(** ** A panicking goroutine among the others *)

(** The number of quanta goroutine [g] gets in a schedule. *)
Definition quanta (g : nat) (s : list (option nat)) : nat :=
  length (filter (λ o, o = Some g) s).

(** The handler call the deferred closure logs, when a handler is set. *)
Definition handler_events (h : option PanicHandleFunc) (g : nat) (p : Payload)
  : list Event :=
  match h with
  | Some _ => [EvPanicHandler g p]
  | None => []
  end.

(** Where a goroutine stands [n] quanta of its own after it reached the
    quantum [k] at which its work function panics with [p]. *)
Definition pc_after (k : nat) (p : Payload) (n : nat) : PC :=
  match n with
  | 0 => AtTask k
  | 1 => AtDefer (Some p)
  | 2 => AtChildDone
  | 3 => AtParentDone
  | _ => Exited
  end.

(** What its closure has logged by then, under a handler that returns. *)
Definition logged_after (h : option PanicHandleFunc) (g ptr : nat) (p : Payload)
    (n : nat) : list Event :=
  match n with
  | 0 | 1 => []
  | 2 => handler_events h g p
  | 3 => handler_events h g p ++ [EvChildDone g ptr]
  | _ => handler_events h g p ++ [EvChildDone g ptr; EvParentDone g]
  end.

(** Goroutine [g] on wrapper [ptr] stands [n] quanta after the panic
    quantum, in a world whose handler is [h], whose called cancel functions
    are [fd] and whose wrapper [ptr] still has the work function and the
    context of [t]. *)
Definition stands (h : option PanicHandleFunc) (fd : gset nat) (t : taskWrapper)
    (k : nat) (p : Payload) (g ptr : nat) (v : World) (n : nat) : Prop :=
  goroutines v !! g = Some {| tw := ptr; pc := pc_after k p n |}
  ∧ events_of g (trace v) = logged_after h g ptr p n
  ∧ PanicHandler (gm v) = h
  ∧ fired v = fd
  ∧ ∃ t', heap v !! ptr = Some t' ∧ task t' = task t ∧ childCtx t' = childCtx t.

(** ** Basic facts *)

Lemma count_app P l1 l2 : count P (l1 ++ l2) = (count P l1 + count P l2)%Z.
Proof. induction l1 as [|G l1 IH]; simpl; [done | rewrite IH; lia]. Qed.

Lemma count_nonneg P l : (0 ≤ count P l)%Z.
Proof. induction l as [|G l IH]; simpl; [done | unfold b2z; destruct (P G); lia]. Qed.

Lemma count_insert P (l : list Goroutine) g G G' :
  l !! g = Some G →
  count P (<[g := G']> l) = (count P l - b2z (P G) + b2z (P G'))%Z.
Proof.
  revert g. induction l as [|H l IH]; intros [|g] Hg; simplify_eq/=; [lia |].
  rewrite (IH g Hg). lia.
Qed.

Lemma count_lookup_pos P (l : list Goroutine) g G :
  l !! g = Some G → P G = true → (1 ≤ count P l)%Z.
Proof.
  revert g. induction l as [|H l IH]; intros [|g] Hg HP; simplify_eq/=.
  - rewrite HP. pose proof (count_nonneg P l). simpl. lia.
  - pose proof (IH g Hg HP). unfold b2z. destruct (P H); lia.
Qed.

(** ** The invariant is preserved *)

Lemma wf_log e w : wf w → wf (log e w).
Proof. intros [? ? ? ? ? ? ? ?]. by constructor. Qed.

Lemma wf_crash w : wf w → wf (crash w).
Proof. intros [? ? ? ? ? ? ? ?]. by constructor. Qed.

Lemma wf_cancel id w : wf w → id ≤ length (heap w) → wf (cancel id w).
Proof.
  intros [? ? ? ? ? ? ? Hf] Hid. constructor; simpl; try done.
  intros id' [->%elem_of_singleton | Hin]%elem_of_union; eauto.
Qed.

Lemma wf_cancel_child ptr t w :
  wf w → heap w !! ptr = Some t → wf (cancel (childCancel t) w).
Proof.
  intros Hw Ht. apply wf_cancel; [done |].
  destruct (wf_ctx _ Hw _ _ Ht) as [-> _]. by apply lookup_lt_Some in Ht.
Qed.

Lemma wf_cancel_parent w : wf w → wf (cancel (parentCancel (gm w)) w).
Proof.
  intros Hw. apply wf_cancel; [done |]. destruct (wf_root _ Hw) as [_ ->]. lia.
Qed.

Lemma wf_NewGoroutineManager : wf NewGoroutineManager.
Proof. constructor; simpl; try done; intros *; by rewrite ?lookup_empty. Qed.

Lemma wf_SetPanicHandler h w : wf w → wf (SetPanicHandler h w).
Proof. intros [? ? ? ? ? ? ? ?]. by constructor. Qed.

Lemma wf_AddTask name f w : wf w → wf (AddTask name f w).
Proof.
  intros [Hc Hp Hx Hr Ht Hg Hi Hf]. constructor; simpl; try done.
  - intros ptr t Hl. apply lookup_app_Some in Hl as [Hl | [Hlen Hl]]; [by apply Hc |].
    apply list_lookup_singleton_Some in Hl as [Hz <-]. simpl.
    assert (ptr = length (heap w)) as -> by lia.
    assert (∀ l : list Goroutine, (∀ g G, l !! g = Some G → tw G < length (heap w)) →
              count (pending_child (length (heap w))) l = 0%Z) as Hzero.
    { clear. induction l as [|G l IH]; intros H; simpl; [done |].
      rewrite IH; [| intros g G' HG; apply (H (S g) G' HG)].
      pose proof (H 0 G eq_refl). unfold pending_child.
      rewrite bool_decide_eq_false_2; [done | lia]. }
    symmetry. by apply Hzero.
  - intros ptr t Hl. apply lookup_app_Some in Hl as [Hl | [Hlen Hl]]; [by apply Hx |].
    apply list_lookup_singleton_Some in Hl as [Hz <-]. simpl.
    assert (ptr = length (heap w)) as -> by lia. done.
  - intros n ptr Hl. rewrite length_app. simpl.
    apply lookup_insert_Some in Hl as [[_ <-] | [_ Hl]]; [lia |].
    specialize (Ht _ _ Hl). lia.
  - intros g G HG. rewrite length_app. specialize (Hg _ _ HG). lia.
  - intros n1 n2 ptr H1 H2.
    apply lookup_insert_Some in H1 as [[E1 <-] | [N1 H1]];
      apply lookup_insert_Some in H2 as [[E2 E] | [N2 H2]]; subst.
    + done.
    + specialize (Ht _ _ H2). lia.
    + specialize (Ht _ _ H1). lia.
    + eauto.
  - intros id Hin. rewrite length_app. specialize (Hf _ Hin). lia.
Qed.

Lemma wf_set_pc g p G w :
  wf w → goroutines w !! g = Some G →
  (∀ ptr, pending_child ptr {| tw := tw G; pc := p |} = pending_child ptr G) →
  pending_parent {| tw := tw G; pc := p |} = pending_parent G →
  wf (set_pc g p w).
Proof.
  intros [Hc Hp Hx Hr Ht Hg Hi Hf] HG Hpc Hpp. unfold set_pc. rewrite HG.
  constructor; simpl; try done.
  - intros ptr t Hl. rewrite (count_insert _ _ _ G) by done. rewrite Hpc, (Hc _ _ Hl). lia.
  - rewrite (count_insert _ _ _ G) by done. rewrite Hpp, Hp. lia.
  - intros g' G' HG'. apply list_lookup_insert_Some in HG' as [(-> & <- & _) | [_ HG']];
      simpl; eauto.
Qed.

Lemma wf_child_done g e G t w :
  wf w → goroutines w !! g = Some G → pc G = AtChildDone → heap w !! tw G = Some t →
  wf (set_pc g AtParentDone (log e (set_counter (ChildWG (tw G)) (childWG t - 1) w))).
Proof.
  intros [Hc Hp Hx Hr Ht Hg Hi Hf] HG Hpc Ht'. unfold set_pc, set_counter. rewrite Ht'. simpl.
  rewrite HG. destruct G as [ptr0 pc0]. simpl in *. subst pc0.
  constructor; simpl; try done.
  - intros ptr t0 Hl. rewrite (count_insert _ _ _ _ _ HG).
    apply list_lookup_insert_Some in Hl as [(-> & <- & _) | [Hne Hl]]; simpl.
    + rewrite (Hc _ _ Ht'). unfold pending_child. simpl.
      rewrite bool_decide_eq_true_2 by done. simpl. lia.
    + rewrite (Hc _ _ Hl). unfold pending_child. simpl.
      rewrite bool_decide_eq_false_2 by done. simpl. lia.
  - rewrite (count_insert _ _ _ _ _ HG). rewrite Hp. simpl. lia.
  - intros ptr t0 Hl.
    apply list_lookup_insert_Some in Hl as [(-> & <- & _) | [Hne Hl]]; simpl; eauto.
  - intros n ptr Hl. rewrite length_insert. eauto.
  - intros g' G' HG'. rewrite length_insert.
    apply list_lookup_insert_Some in HG' as [(-> & <- & _) | [_ HG']]; simpl; eauto.
    apply (Hg _ _ HG).
  - intros id Hin. rewrite length_insert. eauto.
Qed.

Lemma wf_parent_done g e G w :
  wf w → goroutines w !! g = Some G → pc G = AtParentDone →
  wf (set_pc g Exited (log e (set_counter ParentWG (parentWG (gm w) - 1) w))).
Proof.
  intros [Hc Hp Hx Hr Ht Hg Hi Hf] HG Hpc. unfold set_pc, set_counter. simpl.
  rewrite HG. destruct G as [ptr0 pc0]. simpl in *. subst pc0.
  constructor; simpl; try done.
  - intros ptr t0 Hl. rewrite (count_insert _ _ _ _ _ HG). rewrite (Hc _ _ Hl).
    unfold pending_child. simpl. rewrite !andb_false_r. simpl. lia.
  - rewrite (count_insert _ _ _ _ _ HG). rewrite Hp. simpl. lia.
  - intros g' G' HG'.
    apply list_lookup_insert_Some in HG' as [(-> & <- & _) | [_ HG']]; simpl; eauto.
    apply (Hg _ _ HG).
Qed.

Lemma wg_Add_eq wg d w :
  wg_Add wg d w =
  if (counter wg w + d <? 0)%Z then crash w else set_counter wg (counter wg w + d) w.
Proof. done. Qed.

Lemma wg_Done_eq wg w :
  wg_Done wg w =
  if (counter wg w - 1 <? 0)%Z then crash w else set_counter wg (counter wg w - 1) w.
Proof. done. Qed.

Lemma counter_child ptr t w : heap w !! ptr = Some t → counter (ChildWG ptr) w = childWG t.
Proof. intros H. simpl. by rewrite H. Qed.

Lemma crashed_set_counter wg c w : crashed (set_counter wg c w) = crashed w.
Proof. destruct wg as [|ptr]; simpl; [done |]. by destruct (heap w !! ptr). Qed.

Lemma wf_gstep g w : wf w → wf (gstep g w).
Proof.
  intros Hw. unfold gstep. destruct (crashed w) eqn:Hcr; [done |].
  destruct (goroutines w !! g) as [G|] eqn:HG; [| done].
  destruct (pc G) as [k | [p|] | | |] eqn:Hpc.
  - destruct (heap w !! tw G) as [t|] eqn:Ht; [| by apply wf_crash].
    destruct (task t k _); apply (wf_set_pc _ _ G); try done;
      unfold pending_child, pending_parent; simpl; intros; by rewrite Hpc.
  - destruct (PanicHandler (gm w)) as [h|].
    + destruct (h p).
      * apply (wf_set_pc _ _ G); [by apply wf_log | done | |];
          unfold pending_child, pending_parent; simpl; intros; by rewrite Hpc.
      * by apply wf_crash, wf_log.
    + apply (wf_set_pc _ _ G); try done;
        unfold pending_child, pending_parent; simpl; intros; by rewrite Hpc.
  - apply (wf_set_pc _ _ G); try done;
      unfold pending_child, pending_parent; simpl; intros; by rewrite Hpc.
  - pose proof (wf_goroutines _ Hw _ _ HG) as Hlt.
    apply lookup_lt_is_Some in Hlt as [t Ht].
    rewrite wg_Done_eq, (counter_child _ _ _ Ht).
    destruct (childWG t - 1 <? 0)%Z; [by apply wf_crash |].
    rewrite crashed_set_counter, Hcr. by apply (wf_child_done g _ G t w).
  - rewrite wg_Done_eq. simpl counter.
    destruct (parentWG (gm w) - 1 <? 0)%Z; [by apply wf_crash |].
    rewrite crashed_set_counter, Hcr. by apply (wf_parent_done g _ G w).
  - done.
Qed.

Lemma wf_tick o w : wf w → wf (tick o w).
Proof. destruct o; simpl; [apply wf_gstep | done]. Qed.

Lemma wf_run_ticks s w : wf w → wf (run_ticks s w).
Proof.
  revert w. induction s as [|o s IH]; intros w Hw; simpl; [done |].
  by apply IH, wf_tick.
Qed.

(** ** Launching *)

Lemma StartAll_body_eq ptr t w :
  wf w → heap w !! ptr = Some t →
  StartAll_body ptr w =
  {| gm := set_parentWG (parentWG (gm w) + 1) (gm w);
     heap := <[ptr := set_childWG (childWG t + 1) t]> (heap w);
     fired := fired w;
     goroutines := goroutines w ++ [{| tw := ptr; pc := AtTask 0 |}];
     trace := trace w ++ [EvParentAdd; EvChildAdd ptr; EvGo (length (goroutines w)) ptr];
     crashed := crashed w |}.
Proof.
  intros Hw Ht.
  pose proof (wf_parent _ Hw) as Hp. pose proof (wf_child _ Hw _ _ Ht) as Hc.
  pose proof (count_nonneg pending_parent (goroutines w)).
  pose proof (count_nonneg (pending_child ptr) (goroutines w)).
  assert (wg_Add ParentWG 1 w = set_gm (set_parentWG (parentWG (gm w) + 1) (gm w)) w) as E1.
  { rewrite wg_Add_eq. simpl. destruct (parentWG (gm w) + 1 <? 0)%Z eqn:E; [lia | done]. }
  unfold StartAll_body. rewrite E1.
  set (w1 := log EvParentAdd _).
  assert (wg_Add (ChildWG ptr) 1 w1
          = set_heap (<[ptr := set_childWG (childWG t + 1) t]> (heap w1)) w1) as E2.
  { rewrite wg_Add_eq, (counter_child ptr t) by done.
    destruct (childWG t + 1 <? 0)%Z eqn:E; [lia |]. simpl. by rewrite Ht. }
  rewrite E2. unfold go, log, set_heap, set_gm, set_goroutines, w1. simpl.
  by rewrite <- !app_assoc.
Qed.

Lemma wf_StartAll_body ptr w : wf w → ptr < length (heap w) → wf (StartAll_body ptr w).
Proof.
  intros Hw Hlt. apply lookup_lt_is_Some in Hlt as [t Ht].
  rewrite (StartAll_body_eq ptr t w Hw Ht).
  destruct Hw as [Hc Hp Hx Hr Hts Hg]. constructor; simpl; try done.
  - intros ptr' t' Hl. rewrite count_app. simpl. unfold pending_child at 2. simpl.
    apply list_lookup_insert_Some in Hl as [(-> & <- & _) | [Hne Hl]]; simpl.
    + rewrite (Hc _ _ Ht), bool_decide_eq_true_2 by done. simpl. lia.
    + rewrite (Hc _ _ Hl), bool_decide_eq_false_2 by done. simpl. lia.
  - rewrite count_app, Hp. simpl. lia.
  - intros ptr' t' Hl.
    apply list_lookup_insert_Some in Hl as [(-> & <- & _) | [Hne Hl]]; simpl; eauto.
  - intros n p Hl. rewrite length_insert. eauto.
  - intros g G HG. rewrite length_insert.
    apply lookup_app_Some in HG as [HG | [_ HG]]; [eauto |].
    apply list_lookup_singleton_Some in HG as [_ <-]. simpl.
    apply lookup_lt_is_Some. eauto.
  - intros id Hin. rewrite length_insert. eauto.
Qed.

Lemma length_heap_StartAll_body ptr w :
  wf w → ptr < length (heap w) → length (heap (StartAll_body ptr w)) = length (heap w).
Proof.
  intros Hw Hlt. apply lookup_lt_is_Some in Hlt as [t Ht].
  rewrite (StartAll_body_eq ptr t w Hw Ht). simpl. by rewrite length_insert.
Qed.

Lemma wf_StartAll_loop l w :
  wf w → Forall (λ ptr, ptr < length (heap w)) l → wf (StartAll_loop l w).
Proof.
  revert w. induction l as [|ptr l IH]; intros w Hw Hl; simpl; [done |].
  apply Forall_cons in Hl as [Hptr Hl]. apply IH; [by apply wf_StartAll_body |].
  by rewrite length_heap_StartAll_body.
Qed.

Lemma registered_in_heap w :
  wf w → Forall (λ ptr, ptr < length (heap w)) (snd <$> map_to_list (tasks (gm w))).
Proof.
  intros Hw. apply Forall_forall. intros ptr Hin.
  apply list_elem_of_fmap in Hin as [[name ptr'] [-> Hin]].
  apply elem_of_map_to_list in Hin. by apply (wf_tasks _ Hw name).
Qed.

Lemma wf_StartAll w : wf w → wf (StartAll w).
Proof. intros Hw. apply wf_StartAll_loop; [done | by apply registered_in_heap]. Qed.

Lemma Start_registered name ptr w :
  tasks (gm w) !! name = Some ptr → Start name w = (StartAll_body ptr w, Returns None).
Proof. intros H. unfold Start. by rewrite H. Qed.

Lemma wf_Start name w : wf w → wf (Start name w).1.
Proof.
  intros Hw. destruct (tasks (gm w) !! name) as [ptr|] eqn:E.
  - rewrite (Start_registered _ _ _ E). simpl.
    apply wf_StartAll_body; [done | by apply (wf_tasks _ Hw name)].
  - unfold Start. by rewrite E.
Qed.

(** ** Waiting *)

Lemma wg_Wait_ticks wg s w :
  ∃ n, (wg_Wait wg s w).1 = run_ticks (take n s) w.
Proof.
  revert w. induction s as [|o s IH]; intros w; simpl.
  - exists 0. by destruct (crashed w), (counter wg w =? 0)%Z.
  - destruct (crashed w); [by exists 0 |].
    destruct (counter wg w =? 0)%Z; [by exists 0 |].
    destruct (IH (tick o w)) as [n Hn]. exists (S n). by rewrite Hn.
Qed.

Lemma select_ticks wg r s b w :
  ∃ n, (select_done_or_timer wg r s b w).1 = run_ticks (take n s) w.
Proof.
  revert r w. induction s as [|o s IH]; intros r w; simpl.
  - exists 0. by destruct (crashed w), (r <=? 0)%Z, (counter wg w =? 0)%Z.
  - destruct (crashed w); [by exists 0 |].
    destruct (r <=? 0)%Z; [by exists 0 |].
    destruct (counter wg w =? 0)%Z; [by exists 0 |].
    destruct (IH (r - 1)%Z (tick o w)) as [n Hn]. exists (S n). by rewrite Hn.
Qed.

(** A wait changes the world only by letting time pass. *)
Lemma WaitGroupWithTimeout_ticks wg timeout env w :
  ∃ n, (WaitGroupWithTimeout wg timeout env w).1 = run_ticks (take n (sched env)) w.
Proof.
  unfold WaitGroupWithTimeout. destruct wg as [r|]; [| by exists 0].
  destruct (timeout <? 0)%Z.
  - destruct (wg_Wait_ticks r (sched env) w) as [n Hn]. exists n.
    by destruct (wg_Wait r (sched env) w) as [w' []].
  - apply select_ticks.
Qed.

Lemma wf_WaitGroupWithTimeout wg timeout env w :
  wf w → wf (WaitGroupWithTimeout wg timeout env w).1.
Proof.
  intros Hw. destruct (WaitGroupWithTimeout_ticks wg timeout env w) as [n ->].
  by apply wf_run_ticks.
Qed.

(** ** Every reachable world satisfies the invariant *)

Lemma wf_delete_task name w :
  wf w → wf (set_gm (set_tasks (delete name (tasks (gm w))) (gm w)) w).
Proof.
  intros [Hc Hp Hx Hr Ht Hg Hi Hf]. constructor; simpl; try done.
  - intros n ptr Hl. apply lookup_delete_Some in Hl as [_ Hl]. eauto.
  - intros n1 n2 ptr H1 H2. apply lookup_delete_Some in H1 as [_ H1].
    apply lookup_delete_Some in H2 as [_ H2]. eauto.
Qed.

Lemma wf_RemoveTask name timeout env w : wf w → wf (RemoveTask name timeout env w).1.
Proof.
  intros Hw. unfold RemoveTask.
  destruct (tasks (gm w) !! name) as [ptr|]; [| done].
  destruct (heap w !! ptr) as [t|] eqn:Ht; [| by apply wf_crash].
  pose proof (wf_WaitGroupWithTimeout (Some (ChildWG ptr)) timeout env
                (cancel (childCancel t) w) (wf_cancel_child _ _ _ Hw Ht)) as H.
  destruct (WaitGroupWithTimeout _ _ _ _) as [w' [[| |]|]]; simpl in *; try done.
  by apply wf_delete_task.
Qed.

Lemma wf_StopAll timeout env w : wf w → wf (StopAll timeout env w).1.
Proof.
  intros Hw. unfold StopAll.
  pose proof (wf_WaitGroupWithTimeout (Some ParentWG) timeout env
                (cancel (parentCancel (gm w)) w) (wf_cancel_parent _ Hw)) as H.
  by destruct (WaitGroupWithTimeout _ _ _ _) as [w' [[| |]|]].
Qed.

Lemma wf_Stop name timeout env w : wf w → wf (Stop name timeout env w).1.
Proof.
  intros Hw. unfold Stop.
  destruct (tasks (gm w) !! name) as [ptr|]; [| done].
  destruct (heap w !! ptr) as [t|] eqn:Ht; [| by apply wf_crash].
  pose proof (wf_WaitGroupWithTimeout (Some (ChildWG ptr)) timeout env
                (cancel (childCancel t) w) (wf_cancel_child _ _ _ Hw Ht)) as H.
  by destruct (WaitGroupWithTimeout _ _ _ _) as [w' [[| |]|]].
Qed.

Lemma wf_exec o w : wf w → wf (exec o w).
Proof.
  intros Hw. unfold exec. destruct (crashed w); [done |].
  destruct o; auto using wf_SetPanicHandler, wf_AddTask, wf_RemoveTask, wf_StartAll,
    wf_StopAll, wf_Start, wf_Stop, wf_gstep.
Qed.

Lemma wf_run ops w : wf w → wf (run ops w).
Proof.
  revert w. induction ops as [|o ops IH]; intros w Hw; simpl; [done |].
  by apply IH, wf_exec.
Qed.

Lemma reachable_wf w : reachable w → wf w.
Proof. intros [ops ->]. apply wf_run, wf_NewGoroutineManager. Qed.

(** ** What goroutines leave alone *)

Lemma frame_refl w : frame w w.
Proof. by constructor. Qed.

Lemma frame_trans w1 w2 w3 : frame w1 w2 → frame w2 w3 → frame w1 w3.
Proof. intros [? ? ? ? ? ? ?] [? ? ? ? ? ? ?]. constructor; congruence. Qed.

Lemma frame_log e w : frame w (log e w).
Proof. by constructor. Qed.

Lemma frame_crash w : frame w (crash w).
Proof. by constructor. Qed.

Lemma frame_set_pc g p w : frame w (set_pc g p w).
Proof.
  unfold set_pc. destruct (goroutines w !! g) as [G|] eqn:HG; [| apply frame_refl].
  constructor; simpl; try done.
  rewrite list_fmap_insert. simpl. apply list_insert_id. by rewrite list_lookup_fmap, HG.
Qed.

Lemma frame_set_counter wg c w : frame w (set_counter wg c w).
Proof.
  destruct wg as [|ptr]; simpl; [by constructor |].
  destruct (heap w !! ptr) as [t|] eqn:Ht; [| apply frame_refl].
  constructor; simpl; try done.
  rewrite list_fmap_insert. apply list_insert_id. by rewrite list_lookup_fmap, Ht.
Qed.

Lemma frame_wg_Done wg w : frame w (wg_Done wg w).
Proof.
  rewrite wg_Done_eq. destruct (_ <? 0)%Z; [apply frame_crash | apply frame_set_counter].
Qed.

Lemma frame_gstep g w : frame w (gstep g w).
Proof.
  unfold gstep. destruct (crashed w); [apply frame_refl |].
  destruct (goroutines w !! g) as [G|]; [| apply frame_refl].
  destruct (pc G) as [k | [p|] | | |].
  - destruct (heap w !! tw G) as [t|]; [| apply frame_crash].
    destruct (task t k _); apply frame_set_pc.
  - destruct (PanicHandler (gm w)) as [h|]; [| apply frame_set_pc].
    destruct (h p).
    + eapply frame_trans; [apply frame_log | apply frame_set_pc].
    + eapply frame_trans; [apply frame_log | apply frame_crash].
  - apply frame_set_pc.
  - destruct (crashed (wg_Done _ w)); [apply frame_wg_Done |].
    eapply frame_trans; [apply frame_wg_Done |].
    eapply frame_trans; [apply frame_log | apply frame_set_pc].
  - destruct (crashed (wg_Done _ w)); [apply frame_wg_Done |].
    eapply frame_trans; [apply frame_wg_Done |].
    eapply frame_trans; [apply frame_log | apply frame_set_pc].
  - apply frame_refl.
Qed.

Lemma frame_run_ticks s w : frame w (run_ticks s w).
Proof.
  revert w. induction s as [|[g|] s IH]; intros w; simpl; [apply frame_refl | | apply IH].
  eapply frame_trans; [apply frame_gstep | apply IH].
Qed.

Lemma frame_lookup_heap w w' ptr t :
  frame w w' → heap w !! ptr = Some t →
  ∃ t', heap w' !! ptr = Some t' ∧ childCtx t' = childCtx t ∧
        childCancel t' = childCancel t ∧ task t' = task t.
Proof.
  intros F Ht. pose proof (frame_heap _ _ F) as E.
  assert ((set_childWG 0 <$> heap w') !! ptr = Some (set_childWG 0 t)) as H.
  { by rewrite E, list_lookup_fmap, Ht. }
  rewrite list_lookup_fmap in H. destruct (heap w' !! ptr) as [t'|]; [| done].
  exists t'. simpl in H. injection H as H1 H2 H3. done.
Qed.

Lemma frame_lookup_goroutine w w' g G :
  frame w w' → goroutines w !! g = Some G →
  ∃ G', goroutines w' !! g = Some G' ∧ tw G' = tw G.
Proof.
  intros F HG. pose proof (frame_tw _ _ F) as E.
  assert ((tw <$> goroutines w') !! g = Some (tw G)) as H.
  { by rewrite E, list_lookup_fmap, HG. }
  rewrite list_lookup_fmap in H. destruct (goroutines w' !! g) as [G'|]; [| done].
  exists G'. simpl in H. by injection H as ->.
Qed.

Lemma frame_WaitGroupWithTimeout wg timeout env w :
  frame w (WaitGroupWithTimeout wg timeout env w).1.
Proof.
  destruct (WaitGroupWithTimeout_ticks wg timeout env w) as [n ->]. apply frame_run_ticks.
Qed.

(** ** AddTask, Start and Stop on the registry *)

Lemma reachable_New : reachable NewGoroutineManager.
Proof. by exists []. Qed.

Lemma reachable_exec o w : reachable w → reachable (exec o w).
Proof.
  intros [ops ->]. exists (ops ++ [o]). unfold run. by rewrite foldl_app.
Qed.

(** C8: [AddTask(name, f)] allocates a new wrapper (its address was not in
    use) whose context is a child of the manager's context with a cancel
    function nobody holds or has called, whose WaitGroup is at zero and
    whose work function is [f]; it maps [name] to it, replacing the wrapper
    a previous registration of [name] mapped to; it launches no goroutine,
    logs nothing and leaves the old wrappers, the counters and the cancel
    functions as they were. *)
Theorem C8_AddTask_registers_without_launching name f w :
  reachable w →
  let ptr := length (heap w) in
  let w' := AddTask name f w in
  heap w !! ptr = None
  ∧ heap w' = heap w ++ [{| childWG := 0; childCtx := WithCancel (S ptr) (parentCtx (gm w));
                            childCancel := S ptr; task := f |}]
  ∧ (S ptr ∉ fired w) ∧ S ptr ≠ parentCancel (gm w)
  ∧ (∀ p t, heap w !! p = Some t → childCancel t ≠ S ptr)
  ∧ tasks (gm w') = <[name := ptr]> (tasks (gm w))
  ∧ tasks (gm w') !! name = Some ptr
  ∧ (∀ old, tasks (gm w) !! name = Some old → old ≠ ptr)
  ∧ (∀ other, other ≠ name → tasks (gm w') !! other = tasks (gm w) !! other)
  ∧ goroutines w' = goroutines w ∧ trace w' = trace w
  ∧ parentWG (gm w') = parentWG (gm w) ∧ parentCtx (gm w') = parentCtx (gm w)
  ∧ fired w' = fired w ∧ crashed w' = crashed w.
Proof.
  intros Hr%reachable_wf. simpl. repeat split; try done.
  - apply lookup_ge_None. lia.
  - intros Hin. apply (wf_fired _ Hr) in Hin. lia.
  - destruct (wf_root _ Hr) as [_ ->]. lia.
  - intros p t Ht. destruct (wf_ctx _ Hr _ _ Ht) as [-> _].
    apply lookup_lt_Some in Ht. lia.
  - apply lookup_insert_eq.
  - intros old Ho. apply (wf_tasks _ Hr) in Ho. lia.
  - intros other Hne. by apply lookup_insert_ne.
Qed.

Lemma C8_witness :
  let w := AddTask "server" (λ _ _, Running) NewGoroutineManager in
  tasks (gm (AddTask "server" (λ _ _, Returned) w)) !! "server" = Some 1
  ∧ goroutines (AddTask "server" (λ _ _, Returned) w) = [].
Proof.
  assert (reachable (AddTask "server" (λ _ _, Running) NewGoroutineManager)) as Hr.
  { exists [OpAddTask "server" (λ _ _, Running)]. reflexivity. }
  pose proof (C8_AddTask_registers_without_launching "server" (λ _ _, Returned)
                (AddTask "server" (λ _ _, Running) NewGoroutineManager) Hr) as H.
  simpl in H. destruct H as (_ & _ & _ & _ & _ & _ & H1 & _ & _ & H2 & _).
  split; [exact H1 | exact H2].
Defined.

(** C9: [Start(name)] on a name that is not registered returns the "task
    does not exist" error and changes nothing, so it launches nothing; on a
    registered name it runs what an iteration of the loop of [StartAll] runs
    on that task's wrapper (both counters incremented, then the goroutine
    launched) and returns nil. *)
Theorem C9_Start_not_found_or_launch name w :
  (tasks (gm w) !! name = None →
     Start name w = (w, Returns (Some (ErrTaskNotExist name))))
  ∧ (∀ ptr, tasks (gm w) !! name = Some ptr →
       Start name w = (StartAll_body ptr w, Returns None)
       ∧ (Start name w).1 = StartAll_loop [ptr] w
       ∧ (reachable w → ∃ t, heap w !! ptr = Some t
            ∧ counter ParentWG (Start name w).1 = (counter ParentWG w + 1)%Z
            ∧ counter (ChildWG ptr) (Start name w).1 = (childWG t + 1)%Z
            ∧ goroutines (Start name w).1
              = goroutines w ++ [{| tw := ptr; pc := AtTask 0 |}]
            ∧ trace (Start name w).1
              = trace w ++ [EvParentAdd; EvChildAdd ptr; EvGo (length (goroutines w)) ptr])).
Proof.
  split.
  - intros H. unfold Start. by rewrite H.
  - intros ptr H. rewrite (Start_registered _ _ _ H). repeat split.
    intros Hr%reachable_wf. pose proof (wf_tasks _ Hr _ _ H) as Hlt.
    apply lookup_lt_is_Some in Hlt as [t Ht]. exists t. split; [done |].
    simpl fst. rewrite (StartAll_body_eq ptr t w Hr Ht). simpl.
    repeat split. rewrite list_lookup_insert_eq; [done | by apply lookup_lt_Some in Ht].
Qed.

(** C10: [Stop(name, timeout)] on a name that is not registered returns nil
    and leaves the world as it was (no cancel function is called, no wait
    takes place: the schedule is not consumed), whereas [Start] on the same
    name returns an error. *)
Theorem C10_Stop_unregistered_is_noop name timeout env w :
  tasks (gm w) !! name = None →
  Stop name timeout env w = (w, Returns None)
  ∧ (Start name w).2 = Returns (Some (ErrTaskNotExist name)).
Proof. intros H. unfold Stop, Start. by rewrite H. Qed.

Lemma C10_witness :
  (Stop "server" 5 {| sched := [Some 0]; pick := true |} NewGoroutineManager
   = (NewGoroutineManager, Returns None))
  ∧ (Start "server" NewGoroutineManager).2 = Returns (Some (ErrTaskNotExist "server")).
Proof.
  apply (C10_Stop_unregistered_is_noop "server" 5 {| sched := [Some 0]; pick := true |}
           NewGoroutineManager).
  reflexivity.
Defined.

(** ** Canceling and waiting: RemoveTask, Stop, StopAll *)

Lemma Done_own fd id parent : id ∈ fd → Done fd (WithCancel id parent) = true.
Proof. intros H. simpl. by rewrite bool_decide_eq_true_2. Qed.

Lemma Done_parent fd id parent : Done fd parent = true → Done fd (WithCancel id parent) = true.
Proof. intros H. simpl. rewrite H. apply orb_true_r. Qed.

Lemma Done_mono fd fd' ctx : fd ⊆ fd' → Done fd ctx = true → Done fd' ctx = true.
Proof.
  intros Hsub. induction ctx as [|id parent IH]; simpl; [done |].
  intros [H%bool_decide_eq_true | H]%orb_true_iff.
  - rewrite bool_decide_eq_true_2; [done | set_solver].
  - rewrite IH by done. apply orb_true_r.
Qed.

Lemma Done_cancel_ne fd id a parent :
  id ≠ a → Done ({[id]} ∪ fd) parent = Done fd parent →
  Done ({[id]} ∪ fd) (WithCancel a parent) = Done fd (WithCancel a parent).
Proof.
  intros Hne Hp. simpl. rewrite Hp. f_equal. apply bool_decide_ext.
  rewrite elem_of_union, elem_of_singleton.
  split; [intros [Heq | Hin]; [by subst | done] | by right].
Qed.


Lemma wait_after_cancel wg timeout env id w :
  let w' := (WaitGroupWithTimeout wg timeout env (cancel id w)).1 in
  (∃ n, w' = run_ticks (take n (sched env)) (cancel id w))
  ∧ tasks (gm w') = tasks (gm w)
  ∧ fired w' = {[id]} ∪ fired w.
Proof.
  simpl. pose proof (frame_WaitGroupWithTimeout wg timeout env (cancel id w)) as F.
  split; [apply WaitGroupWithTimeout_ticks |].
  split; [apply (frame_tasks _ _ F) | apply (frame_fired _ _ F)].
Qed.

Lemma select_not_invalid wg r s b w :
  (select_done_or_timer wg r s b w).2 ≠ Some WaitInvalidParam.
Proof.
  revert r w. induction s as [|o s IH]; intros r w; simpl;
    destruct (crashed w); try done;
    destruct (r <=? 0)%Z; try (by destruct (_ && _));
    destruct (counter wg w =? 0)%Z; done.
Qed.

Lemma WaitGroupWithTimeout_invalid_iff wg timeout env w :
  (WaitGroupWithTimeout wg timeout env w).2 = Some WaitInvalidParam ↔ wg = None.
Proof.
  unfold WaitGroupWithTimeout. destruct wg as [r|]; [| done].
  split; [| done]. destruct (timeout <? 0)%Z.
  - by destruct (wg_Wait r (sched env) w) as [? []].
  - intros H. by apply select_not_invalid in H.
Qed.



(** C4: [StopAll] calls the manager's cancel function and no other; after
    it, whatever the wait returns and whatever runs later, the context of
    every registered task is done, although the task's own cancel function
    was not called by [StopAll] (it is in the set of called ones only if it
    was before), because that context was made by [WithCancel] from the
    manager's context; a goroutine still in that task's work function is
    handed a done context at its next quantum. *)
Theorem C4_StopAll_cancels_every_registered_task timeout env w name ptr :
  reachable w → tasks (gm w) !! name = Some ptr →
  let w' := (StopAll timeout env w).1 in
  ∃ t t', heap w !! ptr = Some t ∧ heap w' !! ptr = Some t'
    ∧ tasks (gm w') !! name = Some ptr
    ∧ childCtx t' = childCtx t ∧ task t' = task t
    ∧ childCtx t = WithCancel (childCancel t) (parentCtx (gm w))
    ∧ childCancel t ≠ parentCancel (gm w)
    ∧ fired w' = {[parentCancel (gm w)]} ∪ fired w
    ∧ (childCancel t ∈ fired w' ↔ childCancel t ∈ fired w)
    ∧ Done (fired w') (childCtx t') = true
    ∧ (∀ s, Done (fired (run_ticks s w')) (childCtx t') = true)
    ∧ (∀ g G k, crashed w' = false → goroutines w' !! g = Some G →
         tw G = ptr → pc G = AtTask k →
         gstep g w' = set_pc g match task t k true with
                               | Running => AtTask (S k)
                               | Returned => AtDefer None
                               | Panicked p => AtDefer (Some p)
                               end w').
Proof.
  intros Hr%reachable_wf Hn. pose proof (wf_tasks _ Hr _ _ Hn) as Hlt.
  apply lookup_lt_is_Some in Hlt as [t Ht]. simpl.
  assert ((StopAll timeout env w).1
          = (WaitGroupWithTimeout (Some ParentWG) timeout env
               (cancel (parentCancel (gm w)) w)).1) as ->.
  { unfold StopAll. by destruct (WaitGroupWithTimeout _ _ _ _) as [w1 [[| |]|]]. }
  destruct (wait_after_cancel (Some ParentWG) timeout env (parentCancel (gm w)) w)
    as (_ & Htasks & Hfired).
  pose proof (frame_WaitGroupWithTimeout (Some ParentWG) timeout env
                (cancel (parentCancel (gm w)) w)) as F.
  set (w' := (WaitGroupWithTimeout _ _ _ _).1) in *.
  destruct (frame_lookup_heap _ _ ptr t F Ht) as (t' & Ht' & Hctx & _ & Htask).
  destruct (wf_ctx _ Hr _ _ Ht) as [Hc Hx]. destruct (wf_root _ Hr) as [Hroot Hpc].
  assert (Done (fired w') (childCtx t') = true) as HD.
  { rewrite Hctx, Hx, Hfired, Hroot, Hpc. apply Done_parent, Done_own.
    apply elem_of_union_l. by apply elem_of_singleton. }
  exists t, t'. split_and!; try done.
  - by rewrite Htasks.
  - by rewrite Hc, <- Hx.
  - rewrite Hc, Hpc. lia.
  - rewrite Hfired, elem_of_union, elem_of_singleton, Hc, Hpc.
    split; [intros [Heq | Hin]; [lia | done] | by right].
  - intros s. by rewrite (frame_fired _ _ (frame_run_ticks s w')).
  - intros g G k Hcr HG Htw Hpc'. unfold gstep. rewrite Hcr, HG, Hpc', Htw, Ht', HD, Htask.
    by destruct (task t k true).
Qed.

Lemma C4_witness :
  let w := run [OpAddTask "a" returns_at_once; OpAddTask "b" until_canceled; OpStartAll]
             NewGoroutineManager in
  let w' := (StopAll 1 {| sched := []; pick := false |} w).1 in
  ∃ t t', heap w !! 1 = Some t ∧ heap w' !! 1 = Some t'
    ∧ (childCancel t ∉ fired w')
    ∧ Done (fired w) (childCtx t) = false
    ∧ Done (fired w') (childCtx t') = true.
Proof.
  set (w := run [OpAddTask "a" returns_at_once; OpAddTask "b" until_canceled; OpStartAll]
              NewGoroutineManager).
  assert (reachable w) as Hr by (eexists; reflexivity).
  destruct (C4_StopAll_cancels_every_registered_task 1 {| sched := []; pick := false |}
              w "b" 1 Hr eq_refl)
    as (t & t' & Ht & Ht' & _ & _ & _ & _ & _ & _ & Hiff & HD & _).
  exists t, t'. split; [exact Ht |]. split; [exact Ht' |].
  assert (heap w !! 1 = Some {| childWG := 1;
            childCtx := WithCancel 2 (WithCancel 0 Background); childCancel := 2;
            task := until_canceled |}) as Ht0 by (vm_compute; reflexivity).
  rewrite Ht0 in Ht. injection Ht as <-.
  split; [| split; [vm_compute; reflexivity | exact HD]].
  intros Hin. apply Hiff in Hin. vm_compute in Hin. discriminate Hin.
Defined.

(** ** The outcomes of WaitGroupWithTimeout *)

Lemma zero_time_nonneg wg s w n : zero_time wg s w = Some n → (0 ≤ n)%Z.
Proof.
  revert w n. induction s as [|o s IH]; intros w n; simpl;
    destruct (crashed w); try done; destruct (counter wg w =? 0)%Z; try done.
  - intros [= <-]. lia.
  - intros [= <-]. lia.
  - destruct (zero_time wg s (tick o w)) as [m|] eqn:E; [| done].
    intros [= <-]. specialize (IH _ _ E). lia.
Qed.

Lemma wg_Wait_zero_time wg s w :
  match zero_time wg s w with
  | Some n => wg_Wait wg s w = (run_ticks (take (Z.to_nat n) s) w, true)
  | None => (wg_Wait wg s w).2 = false
  end.
Proof.
  revert w. induction s as [|o s IH]; intros w; simpl;
    destruct (crashed w); try done; destruct (counter wg w =? 0)%Z; try done.
  specialize (IH (tick o w)).
  destruct (zero_time wg s (tick o w)) as [m|] eqn:E; simpl; [| done].
  apply zero_time_nonneg in E. rewrite Z2Nat.inj_succ by done. by rewrite IH.
Qed.

Lemma alive_after_cons r o s w :
  (0 < r)%Z → alive_after r (o :: s) w = alive_after (r - 1) s (tick o w).
Proof.
  intros Hr. unfold alive_after.
  replace (Z.to_nat r) with (S (Z.to_nat (r - 1))) by lia. done.
Qed.

Lemma select_zero_time wg b s r w :
  (0 ≤ r)%Z →
  match zero_time wg s w with
  | Some n =>
      ((n < r)%Z → select_done_or_timer wg r s b w
                   = (run_ticks (take (Z.to_nat n) s) w, Some WaitSuccess))
      ∧ (n = r → (select_done_or_timer wg r s b w).2
                 = Some (if b then WaitSuccess else WaitTimeout))
      ∧ ((r < n)%Z → (select_done_or_timer wg r s b w).2 = Some WaitTimeout)
  | None =>
      alive_after r s w = true → (select_done_or_timer wg r s b w).2 = Some WaitTimeout
  end.
Proof.
  revert r w. induction s as [|o s IH]; intros r w Hr; simpl.
  - unfold alive_after. rewrite take_nil. simpl.
    destruct (crashed w); [done |].
    destruct (counter wg w =? 0)%Z, (r <=? 0)%Z eqn:E; simpl; try done;
      (split_and!; intros; try done; lia).
  - destruct (crashed w) eqn:Hcr.
    { unfold alive_after. intros H. apply negb_true_iff in H.
      assert (∀ l, crashed (run_ticks l w) = true) as Hdead.
      { clear -Hcr. intros l. revert w Hcr. induction l as [|[g|] l IH]; intros w Hcr;
          simpl; [done | | by apply IH]. apply IH. unfold gstep. by rewrite Hcr. }
      by rewrite Hdead in H. }
    destruct (counter wg w =? 0)%Z.
    { destruct (r <=? 0)%Z eqn:E; simpl; (split_and!; intros; try done; lia). }
    simpl. destruct (r <=? 0)%Z eqn:E.
    + destruct (zero_time wg s (tick o w)) as [m|] eqn:Ez; simpl; [| done].
      apply zero_time_nonneg in Ez. split_and!; intros; try done; lia.
    + assert (0 ≤ r - 1)%Z as Hr' by lia. specialize (IH _ (tick o w) Hr').
      destruct (zero_time wg s (tick o w)) as [m|] eqn:Ez; simpl.
      * apply zero_time_nonneg in Ez. destruct IH as (H1 & H2 & H3).
        rewrite Z2Nat.inj_succ by done. simpl.
        split_and!; intros; [apply H1 | apply H2 | apply H3]; lia.
      * rewrite alive_after_cons by lia. done.
Qed.

(** C6: [WaitGroupWithTimeout(wg, timeout)], when it returns, returns one of
    the three values; it returns WaitInvalidParam exactly when [wg] is nil.
    On a WaitGroup: with a negative timeout it returns WaitSuccess at the
    first instant the counter is at zero, and does not return as long as it
    is not (it never times out); otherwise it returns WaitSuccess when the
    counter is at zero before the timer fires, WaitTimeout when the timer
    fires first (or the counter never gets to zero), and either of the two,
    as [select] picks, when both are ready at the same instant. *)
Theorem C6_WaitGroupWithTimeout_outcomes wg timeout env w :
  let r := (WaitGroupWithTimeout wg timeout env w).2 in
  (∀ e, r = Some e → e = WaitSuccess ∨ e = WaitTimeout ∨ e = WaitInvalidParam)
  ∧ (r = Some WaitInvalidParam ↔ wg = None)
  ∧ (∀ c, wg = Some c →
       ((timeout < 0)%Z →
          r ≠ Some WaitTimeout
          ∧ match zero_time c (sched env) w with
            | Some n => WaitGroupWithTimeout wg timeout env w
                        = (run_ticks (take (Z.to_nat n) (sched env)) w, Some WaitSuccess)
            | None => r = None
            end)
       ∧ ((0 ≤ timeout)%Z →
          match zero_time c (sched env) w with
          | Some n =>
              ((n < timeout)%Z →
                 WaitGroupWithTimeout wg timeout env w
                 = (run_ticks (take (Z.to_nat n) (sched env)) w, Some WaitSuccess))
              ∧ (n = timeout → r = Some (if pick env then WaitSuccess else WaitTimeout))
              ∧ ((timeout < n)%Z → r = Some WaitTimeout)
          | None => alive_after timeout (sched env) w = true → r = Some WaitTimeout
          end)).
Proof.
  simpl. split; [intros []; auto |]. split; [apply WaitGroupWithTimeout_invalid_iff |].
  intros c ->. unfold WaitGroupWithTimeout. split.
  - intros Hneg. apply Z.ltb_lt in Hneg. rewrite Hneg.
    pose proof (wg_Wait_zero_time c (sched env) w) as H.
    destruct (zero_time c (sched env) w) as [n|].
    + by rewrite H.
    + by destruct (wg_Wait c (sched env) w) as [w' []].
  - intros Hpos. pose proof Hpos as Hnn. apply Z.ltb_ge in Hpos. rewrite Hpos.
    apply select_zero_time. done.
Qed.

(** ** The deferred closure of a launched goroutine *)

Lemma set_pc_fields g p w :
  gm (set_pc g p w) = gm w ∧ heap (set_pc g p w) = heap w
  ∧ fired (set_pc g p w) = fired w ∧ trace (set_pc g p w) = trace w
  ∧ crashed (set_pc g p w) = crashed w.
Proof. unfold set_pc. by destruct (goroutines w !! g). Qed.

Lemma set_pc_lookup g p G w :
  goroutines w !! g = Some G →
  goroutines (set_pc g p w) !! g = Some {| tw := tw G; pc := p |}.
Proof.
  intros HG. unfold set_pc. rewrite HG. simpl.
  apply list_lookup_insert_eq. by apply lookup_lt_Some in HG.
Qed.

Lemma set_pc_lookup_ne g g' p w :
  g ≠ g' → goroutines (set_pc g p w) !! g' = goroutines w !! g'.
Proof.
  intros Hne. unfold set_pc. destruct (goroutines w !! g); [| done].
  simpl. by apply list_lookup_insert_ne.
Qed.

Lemma gstep_AtChildDone g G w :
  wf w → crashed w = false → goroutines w !! g = Some G → pc G = AtChildDone →
  ∃ t, heap w !! tw G = Some t ∧ (1 ≤ childWG t)%Z
    ∧ gstep g w = set_pc g AtParentDone
                    (log (EvChildDone g (tw G))
                       (set_counter (ChildWG (tw G)) (childWG t - 1) w)).
Proof.
  intros Hw Hcr HG Hpc. pose proof (wf_goroutines _ Hw _ _ HG) as Hlt.
  apply lookup_lt_is_Some in Hlt as [t Ht]. exists t. split; [done |].
  assert (1 ≤ childWG t)%Z as Hpos.
  { rewrite (wf_child _ Hw _ _ Ht). apply (count_lookup_pos _ _ g G HG).
    unfold pending_child. rewrite Hpc. by rewrite bool_decide_eq_true_2. }
  split; [done |]. unfold gstep. rewrite Hcr, HG, Hpc.
  rewrite wg_Done_eq, (counter_child _ _ _ Ht).
  destruct (childWG t - 1 <? 0)%Z eqn:E; [lia |]. by rewrite crashed_set_counter, Hcr.
Qed.

Lemma gstep_AtParentDone g G w :
  wf w → crashed w = false → goroutines w !! g = Some G → pc G = AtParentDone →
  (1 ≤ parentWG (gm w))%Z
  ∧ gstep g w = set_pc g Exited
                  (log (EvParentDone g) (set_counter ParentWG (parentWG (gm w) - 1) w)).
Proof.
  intros Hw Hcr HG Hpc.
  assert (1 ≤ parentWG (gm w))%Z as Hpos.
  { rewrite (wf_parent _ Hw). apply (count_lookup_pos _ _ g G HG).
    unfold pending_parent. by rewrite Hpc. }
  split; [done |]. unfold gstep. rewrite Hcr, HG, Hpc. rewrite wg_Done_eq. simpl counter.
  destruct (parentWG (gm w) - 1 <? 0)%Z eqn:E; [lia |]. by rewrite crashed_set_counter, Hcr.
Qed.

Lemma run_ticks_Exited g G n w :
  goroutines w !! g = Some G → pc G = Exited → run_ticks (replicate n (Some g)) w = w.
Proof.
  intros HG Hpc. induction n as [|n IH]; simpl; [done |].
  assert (gstep g w = w) as ->; [| done].
  unfold gstep. destruct (crashed w); [done |]. by rewrite HG, Hpc.
Qed.

(** From the two [Done()] calls on: both counters go down by one, the two
    events are logged in that order and the goroutine is finished. *)
Lemma finish_from_AtChildDone g G n w :
  wf w → crashed w = false → goroutines w !! g = Some G → pc G = AtChildDone →
  2 ≤ n →
  let w' := run_ticks (replicate n (Some g)) w in
  crashed w' = false
  ∧ trace w' = trace w ++ [EvChildDone g (tw G); EvParentDone g]
  ∧ counter (ChildWG (tw G)) w' = (counter (ChildWG (tw G)) w - 1)%Z
  ∧ counter ParentWG w' = (counter ParentWG w - 1)%Z
  ∧ goroutines w' !! g = Some {| tw := tw G; pc := Exited |}
  ∧ fired w' = fired w ∧ PanicHandler (gm w') = PanicHandler (gm w).
Proof.
  intros Hw Hcr HG Hpc Hn. destruct n as [|[|n]]; [lia | lia |]. simpl.
  destruct (gstep_AtChildDone g G w Hw Hcr HG Hpc) as (t & Ht & Hpos & E1).
  pose proof (wf_gstep g w Hw) as Hw1. rewrite E1 in *. clear E1.
  set (w0 := log _ (set_counter _ _ w)) in *.
  assert (goroutines w0 !! g = Some G) as HG0.
  { unfold w0, set_counter. by rewrite Ht. }
  pose proof (set_pc_lookup g AtParentDone G w0 HG0) as HG1.
  destruct (set_pc_fields g AtParentDone w0) as (Eg & Eh & Ef & Et & Ec).
  assert (crashed (set_pc g AtParentDone w0) = false) as Hcr1.
  { rewrite Ec. unfold w0, set_counter. by rewrite Ht. }
  destruct (gstep_AtParentDone g _ _ Hw1 Hcr1 HG1 eq_refl) as (Hpos' & E2).
  rewrite E2. clear E2. set (w1 := set_pc g AtParentDone w0) in *.
  set (w2 := log _ (set_counter ParentWG _ w1)).
  assert (goroutines w2 !! g = Some {| tw := tw G; pc := AtParentDone |}) as HG2 by done.
  rewrite (run_ticks_Exited g _ n _ (set_pc_lookup g Exited _ w2 HG2) eq_refl).
  destruct (set_pc_fields g Exited w2) as (Eg2 & Eh2 & Ef2 & Et2 & Ec2).
  split_and!.
  - rewrite Ec2. done.
  - rewrite Et2. unfold w2. simpl. rewrite Et. unfold w0. simpl.
    unfold set_counter. rewrite Ht. simpl. by rewrite <- app_assoc.
  - simpl. rewrite Eh2. unfold w2. simpl. rewrite Eh. unfold w0. simpl.
    unfold set_counter. rewrite Ht. simpl.
    rewrite list_lookup_insert_eq by (by apply lookup_lt_Some in Ht). done.
  - simpl. rewrite Eg2. unfold w2. simpl. rewrite Eg. unfold w0. simpl.
    unfold set_counter. rewrite Ht. simpl. done.
  - apply (set_pc_lookup g Exited _ w2 HG2).
  - rewrite Ef2. unfold w2. simpl. rewrite Ef. unfold w0, set_counter. by rewrite Ht.
  - rewrite Eg2. unfold w2. simpl. rewrite Eg. unfold w0, set_counter. by rewrite Ht.
Qed.

Lemma gstep_AtTask g G k t w :
  crashed w = false → goroutines w !! g = Some G → pc G = AtTask k →
  heap w !! tw G = Some t →
  gstep g w = set_pc g match task t k (Done (fired w) (childCtx t)) with
                       | Running => AtTask (S k)
                       | Returned => AtDefer None
                       | Panicked p => AtDefer (Some p)
                       end w.
Proof.
  intros Hcr HG Hpc Ht. unfold gstep. rewrite Hcr, HG, Hpc, Ht. by destruct (task t k _).
Qed.

(** A goroutine whose work function panics with [p], under a handler that
    returns on [p] or none, run to its end. *)
Lemma run_recovered g G k t p n w :
  wf w → crashed w = false →
  goroutines w !! g = Some G → pc G = AtTask k → heap w !! tw G = Some t →
  task t k (Done (fired w) (childCtx t)) = Panicked p →
  handler_returns (PanicHandler (gm w)) p →
  4 ≤ n →
  let w' := run_ticks (replicate n (Some g)) w in
  crashed w' = false
  ∧ trace w' = trace w ++ recovered_events (PanicHandler (gm w)) g (tw G) p
  ∧ counter (ChildWG (tw G)) w' = (counter (ChildWG (tw G)) w - 1)%Z
  ∧ counter ParentWG w' = (counter ParentWG w - 1)%Z
  ∧ goroutines w' !! g = Some {| tw := tw G; pc := Exited |}.
Proof.
  intros Hw Hcr HG Hpc Ht Hpanic Hh Hn.
  destruct n as [|[|n]]; [lia | lia |]. simpl.
  pose proof (wf_gstep g w Hw) as Hw1.
  rewrite (gstep_AtTask g G k t w Hcr HG Hpc Ht), Hpanic in *.
  set (w1 := set_pc g (AtDefer (Some p)) w) in *.
  pose proof (set_pc_lookup g (AtDefer (Some p)) G w HG) as HG1. fold w1 in HG1.
  destruct (set_pc_fields g (AtDefer (Some p)) w) as (Eg & Eh & Ef & Et & Ec). fold w1 in Eg, Eh, Ef, Et, Ec.
  pose proof (wf_gstep g w1 Hw1) as Hw2.
  assert (∃ w2, gstep g w1 = set_pc g AtChildDone w2 ∧ goroutines w2 !! g = goroutines w1 !! g
            ∧ gm w2 = gm w ∧ heap w2 = heap w ∧ crashed w2 = false
            ∧ trace w2 ++ [EvChildDone g (tw G); EvParentDone g]
              = trace w ++ recovered_events (PanicHandler (gm w)) g (tw G) p) as (w2 & E2 & HG2 & Eg2 & Eh2 & Ec2 & Et2).
  { unfold gstep. rewrite Ec, Hcr, HG1. simpl. rewrite Eg.
    destruct (PanicHandler (gm w)) as [h|] eqn:Eh'.
    - rewrite (Hh h eq_refl). exists (log (EvPanicHandler g p) w1). simpl.
      split_and!; try done; [by rewrite Ec | by rewrite Et, <- app_assoc].
    - exists w1. simpl. split_and!; try done; [by rewrite Ec | by rewrite Et]. }
  rewrite E2 in *. rewrite HG1 in HG2.
  pose proof (set_pc_lookup g AtChildDone _ w2 HG2) as HG3. simpl in HG3.
  destruct (set_pc_fields g AtChildDone w2) as (Eg3 & Eh3 & Ef3 & Et3 & Ec3).
  assert (crashed (set_pc g AtChildDone w2) = false) as Hcr3 by (by rewrite Ec3).
  destruct (finish_from_AtChildDone g _ n _ Hw2 Hcr3 HG3 eq_refl ltac:(lia))
    as (H1 & H2 & H3 & H4 & H5 & _). simpl in *.
  split_and!; try done.
  - by rewrite H2, Et3, Et2.
  - by rewrite H3, Eh3, Eh2.
  - by rewrite H4, Eg3, Eg2.
Qed.

Lemma run_ticks_dead s w : crashed w = true → run_ticks s w = w.
Proof.
  intros Hcr. induction s as [|[g|] s IH]; simpl; [done | | done].
  assert (gstep g w = w) as ->; [| done]. unfold gstep. by rewrite Hcr.
Qed.

(** C2, as the code has it: the deferred closure calls the handler with no
    [recover] of its own around the call. When the handler returns, the two
    [Done()] calls follow and the process lives. When the handler itself
    panics, that panic leaves the closure: the process terminates right
    after the handler call, neither counter is decremented, and nothing
    happens any more whatever is scheduled. *)
Theorem C2_handler_panic_escapes g G k t p h n w :
  reachable w → crashed w = false →
  goroutines w !! g = Some G → pc G = AtTask k → heap w !! tw G = Some t →
  task t k (Done (fired w) (childCtx t)) = Panicked p →
  PanicHandler (gm w) = Some h →
  4 ≤ n →
  let w' := run_ticks (replicate n (Some g)) w in
  match h p with
  | HandlerReturns =>
      crashed w' = false
      ∧ trace w' = trace w ++ [EvPanicHandler g p; EvChildDone g (tw G); EvParentDone g]
      ∧ counter (ChildWG (tw G)) w' = (counter (ChildWG (tw G)) w - 1)%Z
      ∧ counter ParentWG w' = (counter ParentWG w - 1)%Z
  | HandlerPanics _ =>
      crashed w' = true
      ∧ trace w' = trace w ++ [EvPanicHandler g p]
      ∧ counter (ChildWG (tw G)) w' = counter (ChildWG (tw G)) w
      ∧ counter ParentWG w' = counter ParentWG w
      ∧ goroutines w' !! g = Some {| tw := tw G; pc := AtDefer (Some p) |}
      ∧ ∀ s, run_ticks s w' = w'
  end.
Proof.
  intros Hw%reachable_wf Hcr HG Hpc Ht Hpanic Hh Hn. simpl.
  destruct (h p) as [|q] eqn:Ehp.
  - assert (handler_returns (PanicHandler (gm w)) p) as Hret.
    { intros f Hf. rewrite Hh in Hf. by injection Hf as <-. }
    destruct (run_recovered g G k t p n w Hw Hcr HG Hpc Ht Hpanic Hret Hn)
      as (H1 & H2 & H3 & H4 & _). rewrite Hh in H2. done.
  - destruct n as [|[|n]]; [lia | lia |]. simpl.
    rewrite (gstep_AtTask g G k t w Hcr HG Hpc Ht), Hpanic.
    set (w1 := set_pc g (AtDefer (Some p)) w).
    pose proof (set_pc_lookup g (AtDefer (Some p)) G w HG) as HG1. fold w1 in HG1.
    destruct (set_pc_fields g (AtDefer (Some p)) w) as (Eg & Eh & Ef & Et & Ec).
    fold w1 in Eg, Eh, Ef, Et, Ec.
    assert (gstep g w1 = crash (log (EvPanicHandler g p) w1)) as ->.
    { unfold gstep. rewrite Ec, Hcr, HG1. simpl. by rewrite Eg, Hh, Ehp. }
    rewrite (run_ticks_dead _ _ (eq_refl : crashed (crash _) = true)). simpl.
    rewrite Et, Eh, Eg. split_and!; try done.
    intros s. by apply run_ticks_dead.
Qed.

Lemma C2_witness :
  let w := run [OpSetPanicHandler (Some rethrow);
                OpAddTask "a" panics_at_once; OpStart "a"] NewGoroutineManager in
  let w' := run_ticks (replicate 4 (Some 0)) w in
  crashed w' = true ∧ trace w' = trace w ++ [EvPanicHandler 0 "boom"]
  ∧ counter (ChildWG 0) w' = counter (ChildWG 0) w
  ∧ counter ParentWG w' = counter ParentWG w.
Proof.
  set (w := run [OpSetPanicHandler (Some rethrow);
                 OpAddTask "a" panics_at_once; OpStart "a"] NewGoroutineManager).
  assert (reachable w) as Hr by (eexists; reflexivity).
  destruct (C2_handler_panic_escapes 0 {| tw := 0; pc := AtTask 0 |} 0
              {| childWG := 1; childCtx := WithCancel 1 (WithCancel 0 Background);
                 childCancel := 1; task := panics_at_once |} "boom" rethrow 4 w
              Hr eq_refl eq_refl eq_refl eq_refl eq_refl eq_refl ltac:(lia))
    as (H1 & H2 & H3 & H4 & _).
  split; [exact H1 |]. split; [exact H2 |]. split; [exact H3 | exact H4].
Defined.

(** C2 fails as stated: with a handler that panics, a panicking task
    launched by [Start] terminates the process, and the wrapper's counter
    and the manager's counter both stay at one. *)
Lemma C2_counterexample :
  let w := run [OpSetPanicHandler (Some rethrow);
                OpAddTask "a" panics_at_once; OpStart "a"] NewGoroutineManager in
  let w' := run_ticks (replicate 4 (Some 0)) w in
  crashed w = false ∧ crashed w' = true
  ∧ counter (ChildWG 0) w' = 1%Z ∧ counter ParentWG w' = 1%Z
  ∧ trace w' = [EvParentAdd; EvChildAdd 0; EvGo 0 0; EvPanicHandler 0 "boom"].
Proof. vm_compute. repeat split. Qed.

(** ** StartAll: counting before launching *)

(** In a well-formed world every goroutine that still owes a [Done()] is
    counted by the WaitGroup it owes it to. *)
Lemma pending_counted g G w :
  wf w → goroutines w !! g = Some G →
  (pending_child (tw G) G = true → (1 ≤ counter (ChildWG (tw G)) w)%Z)
  ∧ (pending_parent G = true → (1 ≤ counter ParentWG w)%Z).
Proof.
  intros Hw HG. split; intros Hp.
  - pose proof (wf_goroutines _ Hw _ _ HG) as Hlt.
    apply lookup_lt_is_Some in Hlt as [t Ht].
    rewrite (counter_child _ _ _ Ht), (wf_child _ Hw _ _ Ht).
    by apply (count_lookup_pos _ _ g G).
  - simpl. rewrite (wf_parent _ Hw). by apply (count_lookup_pos _ _ g G).
Qed.

Lemma StartAll_loop_app l1 l2 w :
  StartAll_loop (l1 ++ l2) w = StartAll_loop l2 (StartAll_loop l1 w).
Proof. unfold StartAll_loop. apply foldl_app. Qed.

Lemma StartAll_body_appends ptr t w :
  wf w → heap w !! ptr = Some t →
  goroutines (StartAll_body ptr w) = goroutines w ++ [{| tw := ptr; pc := AtTask 0 |}]
  ∧ trace (StartAll_body ptr w)
    = trace w ++ [EvParentAdd; EvChildAdd ptr; EvGo (length (goroutines w)) ptr].
Proof. intros Hw Ht. by rewrite (StartAll_body_eq ptr t w Hw Ht). Qed.

Lemma StartAll_loop_cons ptr l w :
  StartAll_loop (ptr :: l) w = StartAll_loop l (StartAll_body ptr w).
Proof. done. Qed.

Lemma length_heap_StartAll_loop l w :
  wf w → Forall (λ ptr, ptr < length (heap w)) l →
  length (heap (StartAll_loop l w)) = length (heap w).
Proof.
  revert w. induction l as [|ptr l IH]; intros w Hw Hl; simpl; [done |].
  apply Forall_cons in Hl as [Hptr Hl].
  rewrite IH; [by apply length_heap_StartAll_body | by apply wf_StartAll_body |].
  by rewrite length_heap_StartAll_body.
Qed.

(** The loop only appends to the goroutines and to the trace. *)
Lemma StartAll_loop_extends l w :
  wf w → Forall (λ ptr, ptr < length (heap w)) l →
  ∃ gs tr, goroutines (StartAll_loop l w) = goroutines w ++ gs
           ∧ trace (StartAll_loop l w) = trace w ++ tr.
Proof.
  revert w. induction l as [|ptr l IH]; intros w Hw Hl.
  { exists [], []. by rewrite !app_nil_r. }
  rewrite StartAll_loop_cons. apply Forall_cons in Hl as [Hptr Hl].
  destruct (IH (StartAll_body ptr w)) as (gs & tr & Hg & Ht);
    [by apply wf_StartAll_body | by rewrite length_heap_StartAll_body |].
  pose proof Hptr as Hptr'. apply lookup_lt_is_Some in Hptr' as [t Ht'].
  destruct (StartAll_body_appends ptr t w Hw Ht') as [Eg Et].
  rewrite Eg in Hg. rewrite Et in Ht.
  eexists _, _. rewrite Hg, Ht, <- !app_assoc. done.
Qed.

(** C3: [StartAll] increments the manager's counter and the wrapper's
    counter before it launches the wrapper's goroutine (the three events are
    logged in that order, one after the other), for every registered task.
    Right after [StartAll] both counters are at least one, and whatever is
    scheduled later, as long as that goroutine has not called
    [childWG.Done()] (its work function has not run to completion) the
    wrapper's counter is not zero; likewise for the manager's counter until
    [parentWG.Done()]. *)
Theorem C3_StartAll_counts_before_launch name ptr w :
  reachable w → tasks (gm w) !! name = Some ptr →
  let w' := StartAll w in
  (1 ≤ counter (ChildWG ptr) w')%Z ∧ (1 ≤ counter ParentWG w')%Z
  ∧ ∃ g pre post,
      goroutines w !! g = None
      ∧ goroutines w' !! g = Some {| tw := ptr; pc := AtTask 0 |}
      ∧ trace w' = pre ++ [EvParentAdd; EvChildAdd ptr; EvGo g ptr] ++ post
      ∧ length (trace w) ≤ length pre
      ∧ ∀ s G', goroutines (run_ticks s w') !! g = Some G' →
          tw G' = ptr
          ∧ (pending_child ptr G' = true → (1 ≤ counter (ChildWG ptr) (run_ticks s w'))%Z)
          ∧ (pending_parent G' = true → (1 ≤ counter ParentWG (run_ticks s w'))%Z).
Proof.
  intros Hw%reachable_wf Hn. simpl.
  pose proof (registered_in_heap w Hw) as Hall.
  assert (ptr ∈ snd <$> map_to_list (tasks (gm w))) as Hin.
  { apply list_elem_of_fmap. exists (name, ptr). split; [done |].
    by apply elem_of_map_to_list. }
  apply list_elem_of_split in Hin as (l1 & l2 & Hl).
  unfold StartAll. rewrite Hl in *. clear Hl.
  apply Forall_app in Hall as [Hl1 Hl2]. apply Forall_cons in Hl2 as [Hptr Hl2].
  rewrite StartAll_loop_app, StartAll_loop_cons.
  set (wa := StartAll_loop l1 w).
  assert (wf wa) as Hwa by (by apply wf_StartAll_loop).
  assert (length (heap wa) = length (heap w)) as Hlen by (by apply length_heap_StartAll_loop).
  destruct (StartAll_loop_extends l1 w Hw Hl1) as (gs1 & tr1 & Hg1 & Ht1). fold wa in Hg1, Ht1.
  assert (ptr < length (heap wa)) as Hptr' by lia.
  pose proof Hptr' as Hlk. apply lookup_lt_is_Some in Hlk as [t Ht].
  set (wb := StartAll_body ptr wa).
  assert (wf wb) as Hwb by (by apply wf_StartAll_body).
  assert (Forall (λ p, p < length (heap wb)) l2) as Hl2'.
  { unfold wb. rewrite length_heap_StartAll_body by done. by rewrite Hlen. }
  destruct (StartAll_loop_extends l2 wb Hwb Hl2') as (gs2 & tr2 & Hg2 & Ht2).
  assert (wf (StartAll_loop l2 wb)) as Hwc by (by apply wf_StartAll_loop).
  destruct (StartAll_body_appends ptr t wa Hwa Ht) as [Eg Et].
  fold wb in Eg, Et. rewrite Eg in Hg2. rewrite Et in Ht2.
  set (g := length (goroutines wa)) in *.
  assert (goroutines (StartAll_loop l2 wb) !! g = Some {| tw := ptr; pc := AtTask 0 |}) as HG.
  { rewrite Hg2, <- app_assoc. rewrite lookup_app_r by (unfold g; lia).
    by rewrite Nat.sub_diag. }
  assert (∀ s G', goroutines (run_ticks s (StartAll_loop l2 wb)) !! g = Some G' →
          tw G' = ptr
          ∧ (pending_child ptr G' = true →
             (1 ≤ counter (ChildWG ptr) (run_ticks s (StartAll_loop l2 wb)))%Z)
          ∧ (pending_parent G' = true →
             (1 ≤ counter ParentWG (run_ticks s (StartAll_loop l2 wb)))%Z)) as Hlater.
  { intros s G' HG'.
    destruct (frame_lookup_goroutine _ _ g _ (frame_run_ticks s _) HG) as (G'' & HG'' & Htw).
    rewrite HG' in HG''. injection HG'' as <-. simpl in Htw. split; [done |].
    pose proof (pending_counted g G' _ (wf_run_ticks s _ Hwc) HG') as Hp.
    by rewrite Htw in Hp. }
  destruct (Hlater [] _ HG) as (_ & Hc & Hp).
  split; [apply Hc; unfold pending_child; simpl; by rewrite bool_decide_eq_true_2 |].
  split; [by apply Hp |].
  exists g, (trace wa), tr2. split_and!; try done.
  - apply lookup_ge_None. unfold g. rewrite Hg1, length_app. lia.
  - rewrite Ht2, <- app_assoc. done.
  - rewrite Ht1, length_app. lia.
Qed.

Lemma C3_witness :
  let w := run [OpAddTask "a" returns_at_once; OpAddTask "b" until_canceled]
             NewGoroutineManager in
  (1 ≤ counter (ChildWG 0) (StartAll w))%Z ∧ (1 ≤ counter (ChildWG 1) (StartAll w))%Z
  ∧ (1 ≤ counter ParentWG (StartAll w))%Z.
Proof.
  set (w := run [OpAddTask "a" returns_at_once; OpAddTask "b" until_canceled]
              NewGoroutineManager).
  assert (reachable w) as Hr by (eexists; reflexivity).
  destruct (C3_StartAll_counts_before_launch "a" 0 w Hr eq_refl) as (Ha & Hp & _).
  destruct (C3_StartAll_counts_before_launch "b" 1 w Hr eq_refl) as (Hb & _).
  split; [exact Ha |]. split; [exact Hb | exact Hp].
Defined.

(** ** The manager never terminates the process by itself *)

Lemma safe_gstep g w : safe w → safe (gstep g w).
Proof.
  intros (Hw & Hcr & Hh). split; [by apply wf_gstep |].
  split; [| by rewrite (frame_handler _ _ (frame_gstep g w))].
  destruct (goroutines w !! g) as [G|] eqn:HG; [| unfold gstep; by rewrite Hcr, HG].
  destruct (pc G) as [k | [p|] | | |] eqn:Hpc.
  - pose proof (wf_goroutines _ Hw _ _ HG) as Hlt.
    apply lookup_lt_is_Some in Hlt as [t Ht].
    rewrite (gstep_AtTask g G k t w Hcr HG Hpc Ht).
    by destruct (set_pc_fields g (match task t k (Done (fired w) (childCtx t)) with
      | Running => AtTask (S k) | Returned => AtDefer None
      | Panicked p => AtDefer (Some p) end) w) as (_ & _ & _ & _ & ->).
  - unfold gstep. rewrite Hcr, HG, Hpc.
    destruct (PanicHandler (gm w)) as [h|] eqn:Eh.
    + rewrite (Hh h p eq_refl).
      by destruct (set_pc_fields g AtChildDone (log (EvPanicHandler g p) w))
        as (_ & _ & _ & _ & ->).
    + by destruct (set_pc_fields g AtChildDone w) as (_ & _ & _ & _ & ->).
  - unfold gstep. rewrite Hcr, HG, Hpc.
    by destruct (set_pc_fields g AtChildDone w) as (_ & _ & _ & _ & ->).
  - destruct (gstep_AtChildDone g G w Hw Hcr HG Hpc) as (t & Ht & _ & ->).
    destruct (set_pc_fields g AtParentDone (log (EvChildDone g (tw G))
                (set_counter (ChildWG (tw G)) (childWG t - 1) w))) as (_ & _ & _ & _ & ->).
    change (crashed (set_counter (ChildWG (tw G)) (childWG t - 1) w) = false).
    by rewrite crashed_set_counter.
  - destruct (gstep_AtParentDone g G w Hw Hcr HG Hpc) as (_ & ->).
    by destruct (set_pc_fields g Exited (log (EvParentDone g)
                (set_counter ParentWG (parentWG (gm w) - 1) w))) as (_ & _ & _ & _ & ->).
  - unfold gstep. by rewrite Hcr, HG, Hpc.
Qed.

Lemma safe_run_ticks s w : safe w → safe (run_ticks s w).
Proof.
  revert w. induction s as [|[g|] s IH]; intros w Hs; simpl; [done | | by apply IH].
  by apply IH, safe_gstep.
Qed.

Lemma safe_wait wg timeout env id w :
  safe w → id ≤ length (heap w) →
  safe (WaitGroupWithTimeout wg timeout env (cancel id w)).1.
Proof.
  intros (Hw & Hcr & Hh) Hid.
  destruct (WaitGroupWithTimeout_ticks wg timeout env (cancel id w)) as [n ->].
  apply safe_run_ticks. split; [by apply wf_cancel | done].
Qed.

Lemma safe_StartAll_body ptr w : safe w → ptr < length (heap w) → safe (StartAll_body ptr w).
Proof.
  intros (Hw & Hcr & Hh) Hlt. split; [by apply wf_StartAll_body |].
  apply lookup_lt_is_Some in Hlt as [t Ht]. by rewrite (StartAll_body_eq ptr t w Hw Ht).
Qed.

Lemma safe_StartAll_loop l w :
  safe w → Forall (λ ptr, ptr < length (heap w)) l → safe (StartAll_loop l w).
Proof.
  revert w. induction l as [|ptr l IH]; intros w Hs Hl; [done |].
  rewrite StartAll_loop_cons. apply Forall_cons in Hl as [Hptr Hl].
  apply IH; [by apply safe_StartAll_body |].
  rewrite length_heap_StartAll_body; [done | apply Hs | done].
Qed.

Lemma safe_exec o w :
  safe w → match o with OpSetPanicHandler h => handler_total h | _ => True end →
  safe (exec o w).
Proof.
  intros Hs Ho. pose proof Hs as (Hw & Hcr & Hh). unfold exec. rewrite Hcr.
  destruct o as [h | name f | name timeout env | | timeout env | name | name timeout env | g].
  - split; [by apply wf_SetPanicHandler | done].
  - split; [by apply wf_AddTask | done].
  - unfold RemoveTask. destruct (tasks (gm w) !! name) as [ptr|] eqn:Hn; [| done].
    pose proof (wf_tasks _ Hw _ _ Hn) as Hlt. pose proof Hlt as Hlt'.
    apply lookup_lt_is_Some in Hlt' as [t Ht]. rewrite Ht.
    assert (childCancel t ≤ length (heap w)) as Hid.
    { destruct (wf_ctx _ Hw _ _ Ht) as [-> _]. lia. }
    pose proof (safe_wait (Some (ChildWG ptr)) timeout env _ w Hs Hid) as Hs'.
    destruct (WaitGroupWithTimeout _ _ _ _) as [w' [[| |]|]]; simpl in *; try done.
    destruct Hs' as (Hw' & Hcr' & Hh'). split; [by apply wf_delete_task | done].
  - apply safe_StartAll_loop; [done | by apply registered_in_heap].
  - unfold StopAll.
    assert (parentCancel (gm w) ≤ length (heap w)) as Hid.
    { destruct (wf_root _ Hw) as [_ ->]. lia. }
    pose proof (safe_wait (Some ParentWG) timeout env _ w Hs Hid) as Hs'.
    by destruct (WaitGroupWithTimeout _ _ _ _) as [w' [[| |]|]].
  - destruct (tasks (gm w) !! name) as [ptr|] eqn:Hn.
    + rewrite (Start_registered _ _ _ Hn). simpl.
      apply safe_StartAll_body; [done | by apply (wf_tasks _ Hw name)].
    + unfold Start. by rewrite Hn.
  - unfold Stop. destruct (tasks (gm w) !! name) as [ptr|] eqn:Hn; [| done].
    pose proof (wf_tasks _ Hw _ _ Hn) as Hlt. pose proof Hlt as Hlt'.
    apply lookup_lt_is_Some in Hlt' as [t Ht]. rewrite Ht.
    assert (childCancel t ≤ length (heap w)) as Hid.
    { destruct (wf_ctx _ Hw _ _ Ht) as [-> _]. lia. }
    pose proof (safe_wait (Some (ChildWG ptr)) timeout env _ w Hs Hid) as Hs'.
    by destruct (WaitGroupWithTimeout _ _ _ _) as [w' [[| |]|]].
  - by apply safe_gstep.
Qed.

Lemma safe_run ops w : safe w → handlers_return ops → safe (run ops w).
Proof.
  revert w. induction ops as [|o ops IH]; intros w Hs Hops; [done |].
  apply Forall_cons in Hops as [Ho Hops]. simpl. apply IH; [by apply safe_exec | done].
Qed.

(** X1: in a process that only installs handlers that return and in which
    every [RemoveTask], [StopAll] and [Stop] returns nil (so that no waiter
    of [WaitGroupWithTimeout] is left behind), the manager never terminates
    the process, whatever is called and however the launched goroutines
    are scheduled: no [Done()] drives a counter below zero, no method or
    goroutine follows a dangling wrapper, and every panic of a work function
    is recovered. *)
Theorem X1_manager_never_terminates_the_process ops :
  handlers_return ops → waits_succeed ops NewGoroutineManager →
  crashed (run ops NewGoroutineManager) = false.
Proof.
  intros Hops _.
  assert (safe NewGoroutineManager) as Hs.
  { split; [apply wf_NewGoroutineManager | done]. }
  by destruct (safe_run ops _ Hs Hops) as (_ & Hcr & _).
Qed.

Lemma X1_witness :
  crashed (run [OpSetPanicHandler (Some DefaultPanicHandler);
                OpAddTask "a" panics_at_once; OpStart "a";
                OpAddTask "b" until_canceled; OpStart "b";
                OpSched 0; OpSched 0; OpSched 1;
                OpStopAll 20 {| sched := [Some 0; Some 1; Some 0; Some 1; Some 1; Some 1];
                                pick := false |}]
           NewGoroutineManager) = false.
Proof.
  apply X1_manager_never_terminates_the_process.
  - repeat constructor. intros f p [= <-]. reflexivity.
  - vm_compute. repeat split; done.
Defined.

(** X2: a goroutine whose work function returns normally never calls the
    handler, whichever handler is installed (even one that would panic):
    run to its end it logs just the two [Done()] calls, in the order
    wrapper then manager, takes one off each counter and is finished, and
    the process lives. *)
Theorem X2_returning_task_skips_handler g G k t n w :
  reachable w → crashed w = false →
  goroutines w !! g = Some G → pc G = AtTask k → heap w !! tw G = Some t →
  task t k (Done (fired w) (childCtx t)) = Returned →
  4 ≤ n →
  let w' := run_ticks (replicate n (Some g)) w in
  crashed w' = false
  ∧ trace w' = trace w ++ [EvChildDone g (tw G); EvParentDone g]
  ∧ counter (ChildWG (tw G)) w' = (counter (ChildWG (tw G)) w - 1)%Z
  ∧ counter ParentWG w' = (counter ParentWG w - 1)%Z
  ∧ goroutines w' !! g = Some {| tw := tw G; pc := Exited |}.
Proof.
  intros Hw%reachable_wf Hcr HG Hpc Ht Hret Hn.
  destruct n as [|[|n]]; [lia | lia |]. simpl.
  pose proof (wf_gstep g w Hw) as Hw1.
  rewrite (gstep_AtTask g G k t w Hcr HG Hpc Ht), Hret in *.
  set (w1 := set_pc g (AtDefer None) w) in *.
  pose proof (set_pc_lookup g (AtDefer None) G w HG) as HG1. fold w1 in HG1.
  destruct (set_pc_fields g (AtDefer None) w) as (Eg & Eh & Ef & Et & Ec).
  fold w1 in Eg, Eh, Ef, Et, Ec.
  pose proof (wf_gstep g w1 Hw1) as Hw2.
  assert (gstep g w1 = set_pc g AtChildDone w1) as E2.
  { unfold gstep. by rewrite Ec, Hcr, HG1. }
  rewrite E2 in *.
  pose proof (set_pc_lookup g AtChildDone _ w1 HG1) as HG3. simpl in HG3.
  destruct (set_pc_fields g AtChildDone w1) as (Eg3 & Eh3 & Ef3 & Et3 & Ec3).
  assert (crashed (set_pc g AtChildDone w1) = false) as Hcr3 by (by rewrite Ec3, Ec).
  destruct (finish_from_AtChildDone g _ n _ Hw2 Hcr3 HG3 eq_refl ltac:(lia))
    as (H1 & H2 & H3 & H4 & H5 & _). simpl in *.
  split_and!; try done.
  - by rewrite H2, Et3, Et.
  - by rewrite H3, Eh3, Eh.
  - by rewrite H4, Eg3, Eg.
Qed.

Lemma X2_witness :
  let w := run [OpSetPanicHandler (Some rethrow);
                OpAddTask "a" returns_at_once; OpStart "a"] NewGoroutineManager in
  let w' := run_ticks (replicate 4 (Some 0)) w in
  crashed w' = false
  ∧ trace w' = trace w ++ [EvChildDone 0 0; EvParentDone 0]
  ∧ counter (ChildWG 0) w' = 0%Z ∧ counter ParentWG w' = 0%Z.
Proof.
  set (w := run [OpSetPanicHandler (Some rethrow);
                 OpAddTask "a" returns_at_once; OpStart "a"] NewGoroutineManager).
  assert (reachable w) as Hr by (eexists; reflexivity).
  destruct (X2_returning_task_skips_handler 0 {| tw := 0; pc := AtTask 0 |} 0
              {| childWG := 1; childCtx := WithCancel 1 (WithCancel 0 Background);
                 childCancel := 1; task := returns_at_once |} 4 w
              Hr eq_refl eq_refl eq_refl eq_refl eq_refl ltac:(lia))
    as (H1 & H2 & H3 & H4 & _).
  split; [exact H1 |]. split; [exact H2 |]. split; [exact H3 | exact H4].
Defined.

(** ** What a successful wait guarantees *)

Lemma count_zero P (l : list Goroutine) g G :
  count P l = 0%Z → l !! g = Some G → P G = false.
Proof.
  intros Hz HG. destruct (P G) eqn:E; [| done].
  pose proof (count_lookup_pos P l g G HG E). lia.
Qed.

Lemma wg_Wait_true wg s w w' :
  wg_Wait wg s w = (w', true) → counter wg w' = 0%Z ∧ crashed w' = false.
Proof.
  revert w. induction s as [|o s IH]; intros w; simpl;
    destruct (crashed w) eqn:Hcr; try done;
    destruct (counter wg w =? 0)%Z eqn:Hz; try done.
  - intros [= <-]. split; [by apply Z.eqb_eq | done].
  - intros [= <-]. split; [by apply Z.eqb_eq | done].
  - apply IH.
Qed.

Lemma select_success wg r s b w w' :
  select_done_or_timer wg r s b w = (w', Some WaitSuccess) →
  counter wg w' = 0%Z ∧ crashed w' = false.
Proof.
  revert r w. induction s as [|o s IH]; intros r w; simpl;
    destruct (crashed w) eqn:Hcr; try done;
    destruct (r <=? 0)%Z; destruct (counter wg w =? 0)%Z eqn:Hz; simpl;
    try done; try (destruct b; try done); try (intros [= <-]; split; [by apply Z.eqb_eq | done]).
  all: apply IH.
Qed.

Lemma wait_success wg timeout env w w' :
  WaitGroupWithTimeout (Some wg) timeout env w = (w', Some WaitSuccess) →
  counter wg w' = 0%Z ∧ crashed w' = false.
Proof.
  unfold WaitGroupWithTimeout. destruct (timeout <? 0)%Z.
  - destruct (wg_Wait wg (sched env) w) as [w1 []] eqn:E; [| done].
    intros [= <-]. by apply (wg_Wait_true _ _ _ _ E).
  - apply select_success.
Qed.

(** A wait returns something as long as the process lives, unless the
    timeout is negative. *)
Lemma select_returns wg r s b w :
  crashed (select_done_or_timer wg r s b w).1 = false →
  (select_done_or_timer wg r s b w).2 = Some WaitSuccess
  ∨ (select_done_or_timer wg r s b w).2 = Some WaitTimeout.
Proof.
  revert r w. induction s as [|o s IH]; intros r w; simpl;
    destruct (crashed w) eqn:Hcr; simpl; try congruence;
    destruct (r <=? 0)%Z; destruct (counter wg w =? 0)%Z; simpl; auto;
    destruct b; auto.
Qed.

Lemma Stop_registered name ptr t timeout env w :
  tasks (gm w) !! name = Some ptr → heap w !! ptr = Some t →
  Stop name timeout env w
  = ((WaitGroupWithTimeout (Some (ChildWG ptr)) timeout env (cancel (childCancel t) w)).1,
     match (WaitGroupWithTimeout (Some (ChildWG ptr)) timeout env
              (cancel (childCancel t) w)).2 with
     | Some WaitSuccess => Returns None
     | Some _ => Returns (Some (ErrGoroutineNotTerminated name timeout))
     | None => NeverReturns
     end).
Proof.
  intros Hn Ht. unfold Stop. rewrite Hn, Ht.
  by destruct (WaitGroupWithTimeout _ _ _ _) as [w1 [[| |]|]].
Qed.

Lemma StopAll_eq timeout env w :
  StopAll timeout env w
  = ((WaitGroupWithTimeout (Some ParentWG) timeout env (cancel (parentCancel (gm w)) w)).1,
     match (WaitGroupWithTimeout (Some ParentWG) timeout env
              (cancel (parentCancel (gm w)) w)).2 with
     | Some WaitSuccess => Returns None
     | Some _ => Returns (Some (ErrGoroutinesNotTerminated timeout))
     | None => NeverReturns
     end).
Proof. unfold StopAll. by destruct (WaitGroupWithTimeout _ _ _ _) as [w1 [[| |]|]]. Qed.

(** After a [Stop] that returned nil. *)
Lemma Stop_nil_post name ptr timeout env w :
  wf w → tasks (gm w) !! name = Some ptr →
  (Stop name timeout env w).2 = Returns None →
  let w' := (Stop name timeout env w).1 in
  crashed w' = false
  ∧ counter (ChildWG ptr) w' = 0%Z
  ∧ ∀ g G, goroutines w' !! g = Some G → tw G = ptr →
      pc G = AtParentDone ∨ pc G = Exited.
Proof.
  intros Hw Hn Hres.
  pose proof (wf_Stop name timeout env w Hw) as Hw'.
  pose proof (wf_tasks _ Hw _ _ Hn) as Hlt. pose proof Hlt as Hlt'.
  apply lookup_lt_is_Some in Hlt' as [t Ht].
  destruct (frame_lookup_heap _ _ ptr t
              (frame_WaitGroupWithTimeout (Some (ChildWG ptr)) timeout env
                 (cancel (childCancel t) w)) Ht) as (t1 & Ht1 & _).
  rewrite (Stop_registered name ptr t timeout env w Hn Ht) in Hres, Hw' |- *.
  destruct (WaitGroupWithTimeout _ _ _ _) as [w1 r] eqn:E.
  cbn [fst snd] in *. destruct r as [[| |]|]; try done.
  destruct (wait_success _ _ _ _ _ E) as [Hz Hcr]. split; [done |]. split; [done |].
  intros g G HG Htw.
  rewrite (counter_child _ _ _ Ht1), (wf_child _ Hw' _ _ Ht1) in Hz.
  pose proof (count_zero _ _ _ _ Hz HG) as Hp. unfold pending_child in Hp.
  rewrite bool_decide_eq_true_2 in Hp by done. destruct (pc G); simpl in Hp; auto; done.
Qed.

(** X3: when [Stop(name, timeout)] returns nil on a registered task, the
    process is alive, the wrapper's counter is at zero and every goroutine
    ever launched on that wrapper has called [childWG.Done()]: none is
    still in the work function or in the handler. *)
Theorem X3_Stop_nil_means_task_finished name ptr timeout env w :
  reachable w → tasks (gm w) !! name = Some ptr →
  (Stop name timeout env w).2 = Returns None →
  let w' := (Stop name timeout env w).1 in
  crashed w' = false
  ∧ counter (ChildWG ptr) w' = 0%Z
  ∧ ∀ g G, goroutines w' !! g = Some G → tw G = ptr →
      pc G = AtParentDone ∨ pc G = Exited.
Proof. intros Hw%reachable_wf. by apply Stop_nil_post. Qed.

Lemma X3_witness :
  let w := run [OpAddTask "a" until_canceled; OpAddTask "b" busy_loop;
                OpStart "a"; OpStart "b"] NewGoroutineManager in
  let env := {| sched := [Some 0; Some 1; Some 0; Some 0]; pick := false |} in
  crashed (Stop "a" 10 env w).1 = false ∧ counter (ChildWG 0) (Stop "a" 10 env w).1 = 0%Z.
Proof.
  set (w := run [OpAddTask "a" until_canceled; OpAddTask "b" busy_loop;
                 OpStart "a"; OpStart "b"] NewGoroutineManager).
  set (env := {| sched := [Some 0; Some 1; Some 0; Some 0]; pick := false |}).
  assert (reachable w) as Hr by (eexists; reflexivity).
  destruct (X3_Stop_nil_means_task_finished "a" 0 10 env w Hr eq_refl eq_refl)
    as (H1 & H2 & _).
  split; [exact H1 | exact H2].
Defined.

(** X4: [StopAll(timeout)] never touches the registry; it returns nil
    exactly when its wait on the manager's counter returned WaitSuccess and
    the "goroutines were not terminated" error when the wait timed out; and
    when it returns nil the process is alive, the manager's counter is at
    zero and every goroutine ever launched is finished, also those of
    wrappers no name maps to any more. *)
Theorem X4_StopAll_nil_means_all_finished timeout env w :
  reachable w →
  let wait := WaitGroupWithTimeout (Some ParentWG) timeout env
                (cancel (parentCancel (gm w)) w) in
  let w' := (StopAll timeout env w).1 in
  tasks (gm w') = tasks (gm w)
  ∧ ((StopAll timeout env w).2 = Returns None ↔ wait.2 = Some WaitSuccess)
  ∧ (wait.2 = Some WaitTimeout →
       (StopAll timeout env w).2 = Returns (Some (ErrGoroutinesNotTerminated timeout)))
  ∧ ((StopAll timeout env w).2 = Returns None →
       crashed w' = false ∧ counter ParentWG w' = 0%Z
       ∧ ∀ g G, goroutines w' !! g = Some G → pc G = Exited).
Proof.
  intros Hr. pose proof (reachable_wf _ Hr) as Hw.
  pose proof (wf_StopAll timeout env w Hw) as Hw'. cbv zeta.
  destruct (wait_after_cancel (Some ParentWG) timeout env (parentCancel (gm w)) w)
    as (_ & Htasks & _).
  assert ((WaitGroupWithTimeout (Some ParentWG) timeout env
             (cancel (parentCancel (gm w)) w)).2 ≠ Some WaitInvalidParam) as Hinv.
  { by intros H%WaitGroupWithTimeout_invalid_iff. }
  rewrite (StopAll_eq timeout env w) in Hw' |- *.
  destruct (WaitGroupWithTimeout _ _ _ _) as [w1 r] eqn:E.
  cbn [fst snd] in *. destruct r as [[| |]|]; split_and!; try done.
  intros _. destruct (wait_success _ _ _ _ _ E) as [Hz Hcr]. split_and!; try done.
  intros g G HG. cbn [counter] in Hz. rewrite (wf_parent _ Hw') in Hz.
  pose proof (count_zero _ _ _ _ Hz HG) as Hp. unfold pending_parent in Hp.
  by destruct (pc G).
Qed.

Lemma X4_witness :
  let w := run [OpAddTask "a" returns_at_once; OpAddTask "b" until_canceled;
                OpStart "a"; OpStart "b"] NewGoroutineManager in
  let env := {| sched := [Some 0; Some 1; Some 0; Some 1; Some 0; Some 1; Some 0; Some 1];
                pick := false |} in
  (StopAll 20 env w).2 = Returns None
  ∧ tasks (gm (StopAll 20 env w).1) = tasks (gm w)
  ∧ counter ParentWG (StopAll 20 env w).1 = 0%Z.
Proof.
  set (w := run [OpAddTask "a" returns_at_once; OpAddTask "b" until_canceled;
                 OpStart "a"; OpStart "b"] NewGoroutineManager).
  set (env := {| sched := [Some 0; Some 1; Some 0; Some 1; Some 0; Some 1; Some 0; Some 1];
                 pick := false |}).
  assert (reachable w) as Hr by (eexists; reflexivity).
  destruct (X4_StopAll_nil_means_all_finished 20 env w Hr) as (H1 & H2 & _ & H4).
  assert ((StopAll 20 env w).2 = Returns None) as Hnil by (apply H2; reflexivity).
  destruct (H4 Hnil) as (_ & Hz & _).
  split; [exact Hnil |]. split; [exact H1 | exact Hz].
Defined.

(** ** A work function that ignores cancellation *)

Lemma goroutines_set_counter wg c w : goroutines (set_counter wg c w) = goroutines w.
Proof. destruct wg as [|ptr]; simpl; [done |]. by destruct (heap w !! ptr). Qed.

Lemma goroutines_wg_Done wg w : goroutines (wg_Done wg w) = goroutines w.
Proof.
  rewrite wg_Done_eq. destruct (_ <? 0)%Z; [done | apply goroutines_set_counter].
Qed.

(** A quantum of one goroutine leaves the others where they stand. *)
Lemma gstep_other x g w : x ≠ g → goroutines (gstep x w) !! g = goroutines w !! g.
Proof.
  intros Hne. unfold gstep. destruct (crashed w); [done |].
  destruct (goroutines w !! x) as [X|]; [| done].
  destruct (pc X) as [k | [p|] | | |].
  - destruct (heap w !! tw X) as [t|]; [| done].
    destruct (task t k _); by rewrite set_pc_lookup_ne.
  - destruct (PanicHandler (gm w)) as [h|]; [| by rewrite set_pc_lookup_ne].
    destruct (h p); [by rewrite set_pc_lookup_ne | done].
  - by rewrite set_pc_lookup_ne.
  - destruct (crashed (wg_Done _ w)); [by rewrite goroutines_wg_Done |].
    rewrite set_pc_lookup_ne by done. simpl. by rewrite goroutines_wg_Done.
  - destruct (crashed (wg_Done _ w)); [by rewrite goroutines_wg_Done |].
    rewrite set_pc_lookup_ne by done. simpl. by rewrite goroutines_wg_Done.
  - done.
Qed.

(** A goroutine in a work function that never returns stays in it. *)
Lemma never_returning_stays s : ∀ w g ptr k t,
  goroutines w !! g = Some {| tw := ptr; pc := AtTask k |} →
  heap w !! ptr = Some t → (∀ k d, task t k d = Running) →
  ∃ k', goroutines (run_ticks s w) !! g = Some {| tw := ptr; pc := AtTask k' |}.
Proof.
  induction s as [|[x|] s IH]; intros w g ptr k t HG Ht Hrun; simpl; eauto.
  destruct (frame_lookup_heap _ _ ptr t (frame_gstep x w) Ht) as (t' & Ht' & _ & _ & Etask).
  assert (∀ k d, task t' k d = Running) as Hrun' by (by rewrite Etask).
  destruct (decide (x = g)) as [-> | Hne].
  - destruct (crashed w) eqn:Hcr.
    + assert (gstep g w = w) as -> by (unfold gstep; by rewrite Hcr). eauto.
    + pose proof (gstep_AtTask g _ k t w Hcr HG eq_refl Ht) as E. rewrite Hrun in E.
      apply (IH _ g ptr (S k) t'); [| done | done].
      rewrite E. apply (set_pc_lookup g (AtTask (S k)) _ w HG).
  - apply (IH _ g ptr k t'); [| done | done]. by rewrite gstep_other.
Qed.

(** X5: while a goroutine of a registered task sits in a work function
    that never returns, [Stop] on that task never returns nil. In a live
    process whose handler returns, [Stop] with a timeout that is not
    negative returns the "goroutine was not terminated" error, leaving the
    registry as it was, the task's context done and the goroutine still in
    the work function; with a negative timeout it does not return. *)
Theorem X5_Stop_on_uncooperative_task name ptr g k t timeout env w :
  reachable w → tasks (gm w) !! name = Some ptr →
  goroutines w !! g = Some {| tw := ptr; pc := AtTask k |} →
  heap w !! ptr = Some t → (∀ k d, task t k d = Running) →
  let w' := (Stop name timeout env w).1 in
  (Stop name timeout env w).2 ≠ Returns None
  ∧ (∃ k', goroutines w' !! g = Some {| tw := ptr; pc := AtTask k' |})
  ∧ tasks (gm w') = tasks (gm w)
  ∧ Done (fired w') (childCtx t) = true
  ∧ ((timeout < 0)%Z → (Stop name timeout env w).2 = NeverReturns)
  ∧ ((0 ≤ timeout)%Z → crashed w = false → handler_total (PanicHandler (gm w)) →
       (Stop name timeout env w).2 = Returns (Some (ErrGoroutineNotTerminated name timeout))).
Proof.
  intros Hr Hn HG Ht Hrun. pose proof (reachable_wf _ Hr) as Hw. cbv zeta.
  destruct (wait_after_cancel (Some (ChildWG ptr)) timeout env (childCancel t) w)
    as ([n Hticks] & Htasks & Hfired).
  assert (∃ k', goroutines (Stop name timeout env w).1 !! g
                = Some {| tw := ptr; pc := AtTask k' |}) as [k' Hk'].
  { rewrite (Stop_registered name ptr t timeout env w Hn Ht). cbn [fst]. rewrite Hticks.
    by apply (never_returning_stays _ (cancel (childCancel t) w) g ptr k t). }
  assert ((Stop name timeout env w).2 ≠ Returns None) as Hnot.
  { intros Hnil. destruct (Stop_nil_post name ptr timeout env w Hw Hn Hnil) as (_ & _ & Hfin).
    destruct (Hfin g _ Hk' eq_refl) as [H | H]; discriminate H. }
  split; [done |]. split; [by exists k' |].
  rewrite (Stop_registered name ptr t timeout env w Hn Ht) in Hnot |- *. cbn [fst snd] in *.
  split; [done |]. split.
  { rewrite Hfired. destruct (wf_ctx _ Hw _ _ Ht) as [Hc ->]. apply Done_own.
    apply elem_of_union_l. rewrite Hc. by apply elem_of_singleton. }
  split.
  - intros Hneg. unfold WaitGroupWithTimeout in *. apply Z.ltb_lt in Hneg.
    rewrite Hneg in *. by destruct (wg_Wait _ _ _) as [w1 []].
  - intros Hpos Hcr Hh.
    assert (safe (WaitGroupWithTimeout (Some (ChildWG ptr)) timeout env
                    (cancel (childCancel t) w)).1) as (_ & Hcr' & _).
    { apply safe_wait; [done |]. destruct (wf_ctx _ Hw _ _ Ht) as [-> _].
      apply lookup_lt_Some in Ht. lia. }
    unfold WaitGroupWithTimeout in *. apply Z.ltb_ge in Hpos. rewrite Hpos in *.
    destruct (select_returns _ _ _ _ _ Hcr') as [E | E]; rewrite E in *; done.
Qed.

Lemma X5_witness :
  let w := run [OpSetPanicHandler (Some DefaultPanicHandler);
                OpAddTask "b" busy_loop; OpStart "b"] NewGoroutineManager in
  let env := {| sched := [Some 0; Some 0; Some 0]; pick := true |} in
  (Stop "b" 2 env w).2 = Returns (Some (ErrGoroutineNotTerminated "b" 2))
  ∧ tasks (gm (Stop "b" 2 env w).1) = tasks (gm w).
Proof.
  set (w := run [OpSetPanicHandler (Some DefaultPanicHandler);
                 OpAddTask "b" busy_loop; OpStart "b"] NewGoroutineManager).
  set (env := {| sched := [Some 0; Some 0; Some 0]; pick := true |}).
  assert (reachable w) as Hr by (eexists; reflexivity).
  assert (handler_total (PanicHandler (gm w))) as Hh.
  { intros f p [= <-]. reflexivity. }
  destruct (X5_Stop_on_uncooperative_task "b" 0 0 0
              {| childWG := 1; childCtx := WithCancel 1 (WithCancel 0 Background);
                 childCancel := 1; task := busy_loop |} 2 env w
              Hr eq_refl eq_refl eq_refl (λ _ _, eq_refl))
    as (_ & _ & Htasks & _ & _ & Herr).
  split; [exact (Herr ltac:(lia) eq_refl Hh) | exact Htasks].
Defined.

(** ** Cancel functions are never taken back *)

Lemma fired_set_counter wg c w : fired (set_counter wg c w) = fired w.
Proof. destruct wg as [|ptr]; simpl; [done |]. by destruct (heap w !! ptr). Qed.

Lemma fired_wg_Add wg d w : fired (wg_Add wg d w) = fired w.
Proof. rewrite wg_Add_eq. destruct (_ <? 0)%Z; [done | apply fired_set_counter]. Qed.

Lemma fired_StartAll_body ptr w : fired (StartAll_body ptr w) = fired w.
Proof.
  unfold StartAll_body, go. cbn [fired log set_goroutines]. rewrite fired_wg_Add.
    cbn [fired log]. by rewrite fired_wg_Add.
Qed.

Lemma fired_StartAll_loop l w : fired (StartAll_loop l w) = fired w.
Proof.
  revert w. induction l as [|ptr l IH]; intros w; [done |].
  by rewrite StartAll_loop_cons, IH, fired_StartAll_body.
Qed.

Lemma RemoveTask_registered name ptr t timeout env w :
  tasks (gm w) !! name = Some ptr → heap w !! ptr = Some t →
  fired (RemoveTask name timeout env w).1 = {[childCancel t]} ∪ fired w
  ∧ (RemoveTask name timeout env w).2
    = match (WaitGroupWithTimeout (Some (ChildWG ptr)) timeout env
               (cancel (childCancel t) w)).2 with
      | Some WaitSuccess => Returns None
      | Some _ => Returns (Some (ErrGoroutineNotTerminated name timeout))
      | None => NeverReturns
      end
  ∧ tasks (gm (RemoveTask name timeout env w).1)
    = match (WaitGroupWithTimeout (Some (ChildWG ptr)) timeout env
               (cancel (childCancel t) w)).2 with
      | Some WaitSuccess => delete name (tasks (gm w))
      | _ => tasks (gm w)
      end
  ∧ goroutines (RemoveTask name timeout env w).1
    = goroutines (WaitGroupWithTimeout (Some (ChildWG ptr)) timeout env
                    (cancel (childCancel t) w)).1
  ∧ trace (RemoveTask name timeout env w).1
    = trace (WaitGroupWithTimeout (Some (ChildWG ptr)) timeout env
               (cancel (childCancel t) w)).1.
Proof.
  intros Hn Ht. unfold RemoveTask. rewrite Hn, Ht.
  destruct (wait_after_cancel (Some (ChildWG ptr)) timeout env (childCancel t) w)
    as (_ & Htasks & Hfired).
  destruct (WaitGroupWithTimeout _ _ _ _) as [w1 [[| |]|]]; cbn [fst snd] in *;
    split_and!; try done. simpl. by rewrite Htasks.
Qed.

Lemma fired_exec o w : fired w ⊆ fired (exec o w).
Proof.
  unfold exec. destruct (crashed w); [done |].
  destruct o as [h | name f | name timeout env | | timeout env | name | name timeout env | g].
  - done.
  - done.
  - unfold RemoveTask. destruct (tasks (gm w) !! name) as [ptr|]; [| done].
    destruct (heap w !! ptr) as [t|]; [| done].
    destruct (wait_after_cancel (Some (ChildWG ptr)) timeout env (childCancel t) w)
      as (_ & _ & Hfired).
    destruct (WaitGroupWithTimeout _ _ _ _) as [w1 [[| |]|]]; cbn [fst snd] in *;
      simpl; rewrite Hfired; apply union_subseteq_r.
  - unfold StartAll. by rewrite fired_StartAll_loop.
  - rewrite StopAll_eq. cbn [fst].
    destruct (wait_after_cancel (Some ParentWG) timeout env (parentCancel (gm w)) w)
      as (_ & _ & ->). apply union_subseteq_r.
  - unfold Start. destruct (tasks (gm w) !! name) as [ptr|]; [| done].
    cbn [fst]. unfold go. cbn [fired log set_goroutines]. rewrite fired_wg_Add.
    cbn [fired log]. by rewrite fired_wg_Add.
  - unfold Stop. destruct (tasks (gm w) !! name) as [ptr|]; [| done].
    destruct (heap w !! ptr) as [t|]; [| done].
    destruct (wait_after_cancel (Some (ChildWG ptr)) timeout env (childCancel t) w)
      as (_ & _ & Hfired).
    destruct (WaitGroupWithTimeout _ _ _ _) as [w1 [[| |]|]]; cbn [fst snd] in *;
      rewrite Hfired; apply union_subseteq_r.
  - by rewrite (frame_fired _ _ (frame_gstep g w)).
Qed.

Lemma fired_run ops w : fired w ⊆ fired (run ops w).
Proof.
  revert w. induction ops as [|o ops IH]; intros w; simpl; [done |].
  etrans; [apply fired_exec | apply IH].
Qed.

(** X6: [StopAll] is final. Whatever the process does afterwards (register,
    start, stop, remove, run goroutines), the context of every wrapper of
    the manager, registered before or after, is done: a goroutine started
    later is handed a done context at every quantum of its work function. *)
Theorem X6_StopAll_is_final timeout env ops w :
  reachable w →
  let w' := run ops (StopAll timeout env w).1 in
  Done (fired w') (parentCtx (gm w')) = true
  ∧ (∀ ptr t, heap w' !! ptr = Some t → Done (fired w') (childCtx t) = true)
  ∧ (∀ g G k t, crashed w' = false → goroutines w' !! g = Some G → pc G = AtTask k →
       heap w' !! tw G = Some t →
       gstep g w' = set_pc g match task t k true with
                             | Running => AtTask (S k)
                             | Returned => AtDefer None
                             | Panicked p => AtDefer (Some p)
                             end w').
Proof.
  intros Hw%reachable_wf. cbv zeta.
  set (w1 := (StopAll timeout env w).1). set (w' := run ops w1).
  assert (wf w') as Hw' by (apply wf_run; by apply wf_StopAll).
  assert (0 ∈ fired w') as Hroot.
  { apply (fired_run ops w1). unfold w1. rewrite StopAll_eq. cbn [fst].
    destruct (wait_after_cancel (Some ParentWG) timeout env (parentCancel (gm w)) w)
      as (_ & _ & ->). destruct (wf_root _ Hw) as [_ ->].
    apply elem_of_union_l. by apply elem_of_singleton. }
  destruct (wf_root _ Hw') as [Hctx _].
  assert (Done (fired w') (parentCtx (gm w')) = true) as HP.
  { rewrite Hctx. by apply Done_own. }
  assert (∀ ptr t, heap w' !! ptr = Some t → Done (fired w') (childCtx t) = true) as HC.
  { intros ptr t Ht. destruct (wf_ctx _ Hw' _ _ Ht) as [_ ->]. by apply Done_parent. }
  split; [done |]. split; [done |].
  intros g G k t Hcr HG Hpc Ht. rewrite (gstep_AtTask g G k t w' Hcr HG Hpc Ht).
  by rewrite (HC _ _ Ht).
Qed.

Lemma X6_witness :
  let w := run [OpAddTask "a" until_canceled; OpStartAll] NewGoroutineManager in
  let env := {| sched := [Some 0]; pick := false |} in
  let w' := run [OpAddTask "late" until_canceled; OpStart "late"] (StopAll 1 env w).1 in
  Done (fired w') (parentCtx (gm w')) = true
  ∧ Done (fired w') (WithCancel 2 (WithCancel 0 Background)) = true.
Proof.
  set (w := run [OpAddTask "a" until_canceled; OpStartAll] NewGoroutineManager).
  set (env := {| sched := [Some 0]; pick := false |}).
  assert (reachable w) as Hr by (eexists; reflexivity).
  destruct (X6_StopAll_is_final 1 env
              [OpAddTask "late" until_canceled; OpStart "late"] w Hr) as (H1 & H2 & _).
  split; [exact H1 |].
  exact (H2 1 {| childWG := 1; childCtx := WithCancel 2 (WithCancel 0 Background);
                 childCancel := 2; task := until_canceled |} eq_refl).
Defined.

(** ** Registering a name twice *)

(** X7: [AddTask] on a name that is already registered cuts the old wrapper
    off the registry: no name maps to it any more, while the wrapper and the
    goroutines running it stay as they are. [Stop] and [RemoveTask] under
    that name then act on the new wrapper: they do not call the old
    wrapper's cancel function and leave the state of its context as it
    was. *)
Theorem X7_AddTask_overwrite_orphans_old_wrapper name f old t w :
  reachable w → tasks (gm w) !! name = Some old → heap w !! old = Some t →
  let w1 := AddTask name f w in
  (∀ n, tasks (gm w1) !! n ≠ Some old)
  ∧ heap w1 !! old = Some t
  ∧ goroutines w1 = goroutines w
  ∧ ∀ timeout env,
      (childCancel t ∈ fired (Stop name timeout env w1).1 ↔ childCancel t ∈ fired w)
      ∧ Done (fired (Stop name timeout env w1).1) (childCtx t) = Done (fired w) (childCtx t)
      ∧ (childCancel t ∈ fired (RemoveTask name timeout env w1).1 ↔ childCancel t ∈ fired w)
      ∧ Done (fired (RemoveTask name timeout env w1).1) (childCtx t)
        = Done (fired w) (childCtx t).
Proof.
  intros Hw%reachable_wf Hn Ht. cbv zeta.
  pose proof (lookup_lt_Some _ _ _ Ht) as Hlt.
  destruct (wf_ctx _ Hw _ _ Ht) as [Hc Hx]. destruct (wf_root _ Hw) as [Hroot _].
  split_and!.
  - intros n Hl. simpl in Hl. apply lookup_insert_Some in Hl as [[_ E] | [Hne Hl]]; [lia |].
    apply Hne. by apply (wf_names _ Hw name n old).
  - simpl. by apply lookup_app_l_Some.
  - done.
  - intros timeout env.
    set (t1 := {| childWG := 0; childCtx := WithCancel (S (length (heap w))) (parentCtx (gm w));
                  childCancel := S (length (heap w)); task := f |}).
    assert (tasks (gm (AddTask name f w)) !! name = Some (length (heap w))) as Hn1.
    { simpl. apply lookup_insert_eq. }
    assert (heap (AddTask name f w) !! length (heap w) = Some t1) as Ht1.
    { simpl. rewrite lookup_app_r by lia. by rewrite Nat.sub_diag. }
    assert (fired (Stop name timeout env (AddTask name f w)).1
            = {[S (length (heap w))]} ∪ fired w) as E1.
    { rewrite (Stop_registered name _ t1 timeout env _ Hn1 Ht1). cbn [fst].
      by destruct (wait_after_cancel (Some (ChildWG (length (heap w)))) timeout env
                     (childCancel t1) (AddTask name f w)) as (_ & _ & ->). }
    destruct (RemoveTask_registered name _ t1 timeout env _ Hn1 Ht1) as (E2 & _).
    change (fired (AddTask name f w)) with (fired w) in E2. simpl childCancel in E2.
    rewrite E1, E2, Hc, Hx, Hroot.
    assert (S old ∈ ({[S (length (heap w))]} ∪ fired w : gset nat) ↔ S old ∈ fired w) as Hiff.
    { rewrite elem_of_union, elem_of_singleton.
      split; [intros [Heq | Hin]; [lia | done] | by right]. }
    assert (Done ({[S (length (heap w))]} ∪ fired w) (WithCancel (S old) (WithCancel 0 Background))
            = Done (fired w) (WithCancel (S old) (WithCancel 0 Background))) as HD.
    { apply Done_cancel_ne; [lia |]. by apply Done_cancel_ne. }
    done.
Qed.

Lemma X7_witness :
  let w := run [OpAddTask "a" busy_loop; OpStart "a"] NewGoroutineManager in
  let w1 := AddTask "a" returns_at_once w in
  let env := {| sched := [Some 0]; pick := false |} in
  tasks (gm w1) !! "a" ≠ Some 0
  ∧ goroutines w1 = [{| tw := 0; pc := AtTask 0 |}]
  ∧ Done (fired (Stop "a" 5 env w1).1) (WithCancel 1 (WithCancel 0 Background)) = false.
Proof.
  set (w := run [OpAddTask "a" busy_loop; OpStart "a"] NewGoroutineManager).
  assert (reachable w) as Hr by (eexists; reflexivity).
  destruct (X7_AddTask_overwrite_orphans_old_wrapper "a" returns_at_once 0
              {| childWG := 1; childCtx := WithCancel 1 (WithCancel 0 Background);
                 childCancel := 1; task := busy_loop |} w Hr eq_refl eq_refl)
    as (H1 & _ & H3 & H4).
  split; [exact (H1 "a") |]. split; [exact H3 |].
  destruct (H4 5%Z {| sched := [Some 0]; pick := false |}) as (_ & HD & _).
  exact HD.
Defined.

(** ** Registering and removing without starting *)

Lemma wg_Wait_at_zero wg s w :
  crashed w = false → counter wg w = 0%Z → wg_Wait wg s w = (w, true).
Proof. intros Hcr Hz. destruct s; simpl; by rewrite Hcr, Hz. Qed.

Lemma select_at_zero wg r s b w :
  crashed w = false → counter wg w = 0%Z →
  select_done_or_timer wg r s b w
  = (w, Some (if (r <=? 0)%Z && negb b then WaitTimeout else WaitSuccess)).
Proof.
  intros Hcr Hz. destruct s; simpl; rewrite Hcr, Hz; simpl;
    by destruct (r <=? 0)%Z, b.
Qed.

(** X8: removing a name right after registering it, before any start,
    returns nil without letting time pass, for a negative timeout or one of
    at least a unit: the registry is the one before the registration
    without the name (the same registry when the name was not registered
    before; an earlier registration of the name is gone with it), no
    goroutine runs and nothing is logged. With a timeout of zero the timer
    and the wait are ready together: when [select] takes the timer the error
    is returned and the entry stays, although nothing was running. *)
Theorem X8_RemoveTask_of_unstarted_task name f timeout env w :
  reachable w → crashed w = false →
  let r := RemoveTask name timeout env (AddTask name f w) in
  (timeout ≠ 0%Z ∨ pick env = true →
     r.2 = Returns None
     ∧ tasks (gm r.1) = delete name (tasks (gm w))
     ∧ goroutines r.1 = goroutines w ∧ trace r.1 = trace w
     ∧ (tasks (gm w) !! name = None → tasks (gm r.1) = tasks (gm w))
     ∧ (∀ old, tasks (gm w) !! name = Some old → tasks (gm r.1) !! name = None))
  ∧ (timeout = 0%Z → pick env = false →
     r.2 = Returns (Some (ErrGoroutineNotTerminated name timeout))
     ∧ tasks (gm r.1) !! name = Some (length (heap w))).
Proof.
  intros Hw%reachable_wf Hcr. cbv zeta.
  set (t1 := {| childWG := 0; childCtx := WithCancel (S (length (heap w))) (parentCtx (gm w));
                childCancel := S (length (heap w)); task := f |}).
  assert (tasks (gm (AddTask name f w)) !! name = Some (length (heap w))) as Hn1.
  { simpl. apply lookup_insert_eq. }
  assert (heap (AddTask name f w) !! length (heap w) = Some t1) as Ht1.
  { simpl. rewrite lookup_app_r by lia. by rewrite Nat.sub_diag. }
  destruct (RemoveTask_registered name _ t1 timeout env _ Hn1 Ht1)
    as (_ & Eres & Etasks & Egor & Etr).
  rewrite Eres, Etasks, Egor, Etr. clear Eres Etasks Egor Etr.
  set (w1 := cancel (childCancel t1) (AddTask name f w)).
  assert (counter (ChildWG (length (heap w))) w1 = 0%Z) as Hz.
  { unfold w1. simpl. rewrite lookup_app_r by lia. by rewrite Nat.sub_diag. }
  assert (crashed w1 = false) as Hcr1 by done.
  assert (WaitGroupWithTimeout (Some (ChildWG (length (heap w)))) timeout env w1
          = (w1, Some (if (timeout =? 0)%Z && negb (pick env)
                       then WaitTimeout else WaitSuccess))) as ->.
  { unfold WaitGroupWithTimeout. destruct (timeout <? 0)%Z eqn:Eneg.
    - apply Z.ltb_lt in Eneg. replace (timeout =? 0)%Z with false by lia.
      by rewrite (wg_Wait_at_zero _ _ _ Hcr1 Hz).
    - apply Z.ltb_ge in Eneg. rewrite (select_at_zero _ _ _ _ _ Hcr1 Hz).
      destruct (timeout =? 0)%Z eqn:E0.
      + apply Z.eqb_eq in E0. subst timeout. done.
      + apply Z.eqb_neq in E0. replace (timeout <=? 0)%Z with false by lia. done. }
  cbn [fst snd]. split.
  - intros Hor.
    assert ((timeout =? 0)%Z && negb (pick env) = false) as ->.
    { destruct Hor as [Hne | ->]; [| apply andb_false_r].
      apply Z.eqb_neq in Hne. by rewrite Hne. }
    split_and!; try done.
    + simpl. by rewrite delete_insert_eq.
    + intros Hnone. simpl. rewrite delete_insert_eq. by apply delete_id.
    + intros old _. simpl. rewrite delete_insert_eq. apply lookup_delete_eq.
  - intros -> ->. simpl. split; [done | apply lookup_insert_eq].
Qed.

Lemma X8_witness :
  let w := run [OpAddTask "a" busy_loop; OpStart "a"] NewGoroutineManager in
  let env := {| sched := [Some 0]; pick := false |} in
  (RemoveTask "b" 5 env (AddTask "b" returns_at_once w)).2 = Returns None
  ∧ (RemoveTask "b" 0 env (AddTask "b" returns_at_once w)).2
    = Returns (Some (ErrGoroutineNotTerminated "b" 0)).
Proof.
  set (w := run [OpAddTask "a" busy_loop; OpStart "a"] NewGoroutineManager).
  set (env := {| sched := [Some 0]; pick := false |}).
  assert (reachable w) as Hr by (eexists; reflexivity).
  destruct (X8_RemoveTask_of_unstarted_task "b" returns_at_once 5 env w Hr eq_refl)
    as (H5 & _).
  destruct (X8_RemoveTask_of_unstarted_task "b" returns_at_once 0 env w Hr eq_refl)
    as (_ & H0).
  assert (5%Z ≠ 0%Z ∨ pick env = true) as Hor by (left; discriminate).
  pose proof (proj1 (H5 Hor)) as HA.
  split; [exact HA |].
  exact (proj1 (H0 eq_refl eq_refl)).
Defined.

(** ** WaitCancelWithTimeout *)

Lemma Done_cancel_other fd id ctx :
  id ∉ cancels ctx → Done ({[id]} ∪ fd) ctx = Done fd ctx.
Proof.
  induction ctx as [|a parent IH]; simpl; [done |].
  intros Hn. apply not_elem_of_cons in Hn as [Hne Hn].
  apply (Done_cancel_ne fd id a parent Hne). by apply IH.
Qed.

Lemma happen_keeps_not_done ctx h w :
  match h with CancelCalled id => id ∉ cancels ctx | Quantum _ => True end →
  Done (fired (happen h w)) ctx = Done (fired w) ctx.
Proof.
  destruct h as [o | id]; simpl.
  - intros _. destruct o as [g|]; simpl; [| done].
    by rewrite (frame_fired _ _ (frame_gstep g w)).
  - intros Hn. destruct (crashed w); [done |]. simpl. by apply Done_cancel_other.
Qed.

Lemma ctx_Wait_true ctx s w w' :
  ctx_Wait ctx s w = (w', true) → Done (fired w') ctx = true ∧ crashed w' = false.
Proof.
  revert w. induction s as [|h s IH]; intros w; simpl;
    destruct (crashed w) eqn:Hcr; try done;
    destruct (Done (fired w) ctx) eqn:Hd; try done;
    try (by intros [= <-]).
  apply IH.
Qed.

Lemma select_ctx_cases ctx r s b w :
  let res := select_ctx_or_timer ctx r s b w in
  res.2 ≠ Some WaitInvalidParam
  ∧ (res.2 = Some WaitSuccess → Done (fired res.1) ctx = true ∧ crashed res.1 = false)
  ∧ (res.2 = None → crashed res.1 = true)
  ∧ (Done (fired w) ctx = false → not_canceled_during ctx s → res.2 ≠ Some WaitSuccess).
Proof.
  revert r w. induction s as [|h s IH]; intros r w; simpl.
  - destruct (crashed w) eqn:Hcr; [by split_and! |].
    destruct (r <=? 0)%Z, (Done (fired w) ctx) eqn:Hd, b; simpl; by split_and!.
  - destruct (crashed w) eqn:Hcr; [by split_and! |].
    destruct (r <=? 0)%Z; [destruct (Done (fired w) ctx) eqn:Hd, b; simpl; by split_and! |].
    destruct (Done (fired w) ctx) eqn:Hd; [simpl; by split_and! |].
    destruct (IH (r - 1)%Z (happen h w)) as (H1 & H2 & H3 & H4).
    split_and!; try done.
    intros _ Hs. apply Forall_cons in Hs as [Hh Hs]. apply H4; [| done].
    by rewrite (happen_keeps_not_done ctx h w Hh).
Qed.

Lemma ctx_Wait_not_canceled ctx s w :
  Done (fired w) ctx = false → not_canceled_during ctx s → (ctx_Wait ctx s w).2 = false.
Proof.
  revert w. induction s as [|h s IH]; intros w Hd Hs; simpl;
    destruct (crashed w); try done; rewrite Hd; [done |].
  apply Forall_cons in Hs as [Hh Hs]. apply IH; [| done].
  by rewrite (happen_keeps_not_done ctx h w Hh).
Qed.

(** X9: [WaitCancelWithTimeout(ctx, timeout)] never returns
    WaitInvalidParam, and never WaitTimeout when the timeout is negative.
    When it returns WaitSuccess the context is done and the process alive.
    On a context that is already done it returns WaitSuccess at once, the
    world untouched, unless the timeout is zero and [select] takes the
    timer. On a context that is not done and whose cancel functions nobody
    calls during the wait it never returns WaitSuccess: with a negative
    timeout it does not return, otherwise it returns WaitTimeout unless the
    process dies first. *)
Theorem X9_WaitCancelWithTimeout_outcomes ctx timeout s b w :
  let res := WaitCancelWithTimeout ctx timeout s b w in
  res.2 ≠ Some WaitInvalidParam
  ∧ ((timeout < 0)%Z → res.2 ≠ Some WaitTimeout)
  ∧ (res.2 = Some WaitSuccess → Done (fired res.1) ctx = true ∧ crashed res.1 = false)
  ∧ (crashed w = false → Done (fired w) ctx = true → timeout ≠ 0%Z ∨ b = true →
       res = (w, Some WaitSuccess))
  ∧ (Done (fired w) ctx = false → not_canceled_during ctx s →
       res.2 ≠ Some WaitSuccess
       ∧ ((timeout < 0)%Z → res.2 = None)
       ∧ ((0 ≤ timeout)%Z → res.2 = Some WaitTimeout ∨ crashed res.1 = true)).
Proof.
  cbv zeta. unfold WaitCancelWithTimeout.
  destruct (timeout <? 0)%Z eqn:Eneg.
  - apply Z.ltb_lt in Eneg.
    pose proof (ctx_Wait_true ctx s w) as Htrue.
    pose proof (ctx_Wait_not_canceled ctx s w) as Hnc.
    assert (crashed w = false → Done (fired w) ctx = true → ctx_Wait ctx s w = (w, true))
      as Hnow.
    { intros Hcr Hd. destruct s; simpl; by rewrite Hcr, Hd. }
    destruct (ctx_Wait ctx s w) as [w1 [|]] eqn:E; cbn [fst snd] in *.
    + split_and!; try done.
      * intros _. by apply Htrue.
      * intros Hcr Hd _. by injection (Hnow Hcr Hd) as ->.
      * intros Hd Hs. by specialize (Hnc Hd Hs).
    + split_and!; try done.
      * intros Hcr Hd _. by specialize (Hnow Hcr Hd).
      * intros _ _. split_and!; [done | done | lia].
  - apply Z.ltb_ge in Eneg.
    destruct (select_ctx_cases ctx timeout s b w) as (H1 & H2 & H3 & H4).
    split_and!; try done; try lia.
    + intros Hcr Hd Hor. destruct s; simpl; rewrite Hcr, Hd; simpl;
        destruct (timeout <=? 0)%Z eqn:E0; try done;
        (destruct Hor as [Hne | ->]; [apply Z.leb_le in E0; lia | done]).
    + intros Hd Hs. specialize (H4 Hd Hs). split_and!; [done | lia |].
      intros _. destruct (select_ctx_or_timer ctx timeout s b w) as [w1 [[| |]|]];
        cbn [fst snd] in *; auto; done.
Qed.

Lemma StopAll_done_forever timeout env ops w ptr t :
  wf w → heap (run ops (StopAll timeout env w).1) !! ptr = Some t →
  Done (fired (run ops (StopAll timeout env w).1)) (childCtx t) = true.
Proof.
  intros Hw Ht.
  assert (wf (run ops (StopAll timeout env w).1)) as Hw' by (apply wf_run; by apply wf_StopAll).
  destruct (wf_ctx _ Hw' _ _ Ht) as [_ ->]. destruct (wf_root _ Hw') as [-> _].
  apply Done_parent, Done_own. apply (fired_run ops). rewrite StopAll_eq. cbn [fst].
  destruct (wait_after_cancel (Some ParentWG) timeout env (parentCancel (gm w)) w)
    as (_ & _ & ->). destruct (wf_root _ Hw) as [_ ->].
  apply elem_of_union_l. by apply elem_of_singleton.
Qed.

(** X10: once [StopAll] was called, a [WaitCancelWithTimeout] on the
    context of any wrapper of the manager returns WaitSuccess at once in a
    live process, leaving the world as it is, for every timeout but zero
    (and for zero when [select] takes the Done case): a work function that
    sleeps with it wakes up immediately. *)
Theorem X10_WaitCancelWithTimeout_after_StopAll timeout env ops ptr t timeout' s b w :
  reachable w →
  let w' := run ops (StopAll timeout env w).1 in
  crashed w' = false → heap w' !! ptr = Some t →
  timeout' ≠ 0%Z ∨ b = true →
  WaitCancelWithTimeout (childCtx t) timeout' s b w' = (w', Some WaitSuccess).
Proof.
  intros Hw%reachable_wf. cbv zeta. intros Hcr Ht Hor.
  pose proof (StopAll_done_forever timeout env ops w ptr t Hw Ht) as Hd.
  unfold WaitCancelWithTimeout. destruct (timeout' <? 0)%Z eqn:Eneg.
  - destruct s; simpl; by rewrite Hcr, Hd.
  - destruct s; simpl; rewrite Hcr, Hd; simpl;
      destruct (timeout' <=? 0)%Z eqn:E0; try done;
      (destruct Hor as [Hne | ->]; [apply Z.leb_le in E0; apply Z.ltb_ge in Eneg; lia | done]).
Qed.

Lemma X10_witness :
  let w := run [OpAddTask "a" until_canceled; OpStart "a"] NewGoroutineManager in
  let w' := run [] (StopAll 1 {| sched := []; pick := false |} w).1 in
  WaitCancelWithTimeout (WithCancel 1 (WithCancel 0 Background)) 30
    [Quantum (Some 0)] false w' = (w', Some WaitSuccess).
Proof.
  set (w := run [OpAddTask "a" until_canceled; OpStart "a"] NewGoroutineManager).
  assert (reachable w) as Hr by (eexists; reflexivity).
  assert (30%Z ≠ 0%Z ∨ false = true) as Hor by (left; discriminate).
  exact (X10_WaitCancelWithTimeout_after_StopAll 1 {| sched := []; pick := false |} [] 0
           {| childWG := 1; childCtx := WithCancel 1 (WithCancel 0 Background);
              childCancel := 1; task := until_canceled |} 30 [Quantum (Some 0)] false w
           Hr eq_refl eq_refl Hor).
Defined.

(** ** A cooperative work function *)

Lemma zero_time_step wg o s w :
  crashed w = false → counter wg w ≠ 0%Z →
  zero_time wg (o :: s) w = Z.succ <$> zero_time wg s (tick o w).
Proof.
  intros Hcr Hz. simpl. rewrite Hcr. by destruct (counter wg w =? 0)%Z eqn:E; [apply Z.eqb_eq in E |].
Qed.

Lemma zero_time_now wg s w :
  crashed w = false → counter wg w = 0%Z → zero_time wg s w = Some 0%Z.
Proof. intros Hcr Hz. destruct s; simpl; by rewrite Hcr, Hz. Qed.

(** X11: a registered task with a single goroutine still running, in a work
    function that returns once its context is done: if that goroutine gets
    three quanta at the start of the wait and the timeout is negative or
    larger than three units, [Stop] returns nil, having logged that
    goroutine's [childWG.Done()], with the wrapper's counter at zero. *)
Theorem X11_Stop_on_cooperative_task name ptr g k t timeout env rest w :
  reachable w → crashed w = false →
  tasks (gm w) !! name = Some ptr →
  goroutines w !! g = Some {| tw := ptr; pc := AtTask k |} →
  heap w !! ptr = Some t → childWG t = 1%Z →
  task t k true = Returned →
  sched env = Some g :: Some g :: Some g :: rest →
  (timeout < 0 ∨ 3 < timeout)%Z →
  let w' := (Stop name timeout env w).1 in
  (Stop name timeout env w).2 = Returns None
  ∧ counter (ChildWG ptr) w' = 0%Z
  ∧ trace w' = trace w ++ [EvChildDone g ptr]
  ∧ goroutines w' !! g = Some {| tw := ptr; pc := AtParentDone |}.
Proof.
  intros Hw%reachable_wf Hcr Hn HG Ht Hone Hret Hs Htime. cbv zeta.
  rewrite (Stop_registered name ptr t timeout env w Hn Ht). cbn [fst snd].
  set (w0 := cancel (childCancel t) w).
  assert (wf w0) as Hw0 by (by apply (wf_cancel_child ptr)).
  assert (Done (fired w0) (childCtx t) = true) as Hd.
  { destruct (wf_ctx _ Hw _ _ Ht) as [Hc ->]. apply Done_own. simpl. rewrite Hc.
    apply elem_of_union_l. by apply elem_of_singleton. }
  (* first quantum: the work function sees the done context and returns *)
  pose proof (gstep_AtTask g _ k t w0 Hcr HG eq_refl Ht) as E1. rewrite Hd, Hret in E1.
  set (w1 := set_pc g (AtDefer None) w0) in *.
  destruct (set_pc_fields g (AtDefer None) w0) as (Eg1 & Eh1 & Ef1 & Et1 & Ec1).
  fold w1 in Eg1, Eh1, Ef1, Et1, Ec1.
  pose proof (set_pc_lookup g (AtDefer None) _ w0 HG) as HG1. fold w1 in HG1. simpl in HG1.
  assert (wf w1) as Hw1 by (rewrite <- E1; by apply wf_gstep).
  (* second quantum: the deferred closure starts, nothing to recover *)
  assert (gstep g w1 = set_pc g AtChildDone w1) as E2.
  { unfold gstep. rewrite Ec1. change (crashed w0) with (crashed w). by rewrite Hcr, HG1. }
  set (w2 := set_pc g AtChildDone w1) in *.
  destruct (set_pc_fields g AtChildDone w1) as (Eg2 & Eh2 & Ef2 & Et2 & Ec2).
  fold w2 in Eg2, Eh2, Ef2, Et2, Ec2.
  pose proof (set_pc_lookup g AtChildDone _ w1 HG1) as HG2. fold w2 in HG2. simpl in HG2.
  assert (wf w2) as Hw2 by (rewrite <- E2; by apply wf_gstep).
  assert (crashed w2 = false) as Hcr2.
  { rewrite Ec2, Ec1. exact Hcr. }
  assert (heap w2 !! ptr = Some t) as Ht2 by (by rewrite Eh2, Eh1).
  (* third quantum: childWG.Done() *)
  destruct (gstep_AtChildDone g _ w2 Hw2 Hcr2 HG2 eq_refl) as (t2 & Ht2' & _ & E3).
  cbn [tw] in Ht2', E3. rewrite Ht2 in Ht2'. injection Ht2' as <-.
  set (w3 := set_pc g AtParentDone _) in E3.
  assert (counter (ChildWG ptr) w3 = 0%Z ∧ crashed w3 = false
          ∧ trace w3 = trace w ++ [EvChildDone g ptr]
          ∧ goroutines w3 !! g = Some {| tw := ptr; pc := AtParentDone |}) as (Hz3 & Hcr3 & Htr3 & HG3).
  { unfold w3.
    destruct (set_pc_fields g AtParentDone (log (EvChildDone g ptr)
                (set_counter (ChildWG ptr) (childWG t - 1) w2))) as (Eg & Eh & Ef & Et & Ec).
    assert (goroutines (log (EvChildDone g ptr)
              (set_counter (ChildWG ptr) (childWG t - 1) w2)) !! g
            = Some {| tw := ptr; pc := AtChildDone |}) as HGl.
    { unfold set_counter. by rewrite Ht2. }
    split_and!.
    - rewrite (counter_child ptr (set_childWG (childWG t - 1) t)).
      + simpl. lia.
      + rewrite Eh. unfold set_counter. rewrite Ht2. simpl.
        apply list_lookup_insert_eq. by apply lookup_lt_Some in Ht2.
    - rewrite Ec. unfold set_counter. by rewrite Ht2.
    - rewrite Et. unfold set_counter. rewrite Ht2. simpl. by rewrite Et2, Et1.
    - apply (set_pc_lookup g AtParentDone _ _ HGl). }
  (* the counter is first at zero after three units of time *)
  assert (counter (ChildWG ptr) w0 ≠ 0%Z) as Hz0.
  { rewrite (counter_child ptr t) by done. lia. }
  assert (counter (ChildWG ptr) w1 ≠ 0%Z) as Hz1.
  { rewrite (counter_child ptr t) by (by rewrite Eh1). lia. }
  assert (counter (ChildWG ptr) w2 ≠ 0%Z) as Hz2.
  { rewrite (counter_child ptr t) by done. lia. }
  assert (zero_time (ChildWG ptr) (sched env) w0 = Some 3%Z) as Hzt.
  { rewrite Hs. rewrite zero_time_step by done. simpl tick. rewrite E1.
    rewrite zero_time_step by (try done; by rewrite Ec1). simpl tick. rewrite E2.
    rewrite zero_time_step by done. simpl tick. rewrite E3.
    by rewrite zero_time_now. }
  assert (run_ticks (take (Z.to_nat 3) (sched env)) w0 = w3) as Hrun.
  { rewrite Hs. simpl. by rewrite E1, E2, E3. }
  assert (WaitGroupWithTimeout (Some (ChildWG ptr)) timeout env w0 = (w3, Some WaitSuccess))
    as ->.
  { unfold WaitGroupWithTimeout. destruct (timeout <? 0)%Z eqn:Eneg.
    - pose proof (wg_Wait_zero_time (ChildWG ptr) (sched env) w0) as H.
      rewrite Hzt, Hrun in H. by rewrite H.
    - apply Z.ltb_ge in Eneg.
      pose proof (select_zero_time (ChildWG ptr) (pick env) (sched env) timeout w0 Eneg) as H.
      rewrite Hzt, Hrun in H. destruct H as (H & _). apply H. lia. }
  done.
Qed.

Lemma X11_witness :
  let w := run [OpAddTask "a" until_canceled; OpStart "a"] NewGoroutineManager in
  let env := {| sched := [Some 0; Some 0; Some 0]; pick := false |} in
  (Stop "a" 10 env w).2 = Returns None
  ∧ counter (ChildWG 0) (Stop "a" 10 env w).1 = 0%Z.
Proof.
  set (w := run [OpAddTask "a" until_canceled; OpStart "a"] NewGoroutineManager).
  set (env := {| sched := [Some 0; Some 0; Some 0]; pick := false |}).
  assert (reachable w) as Hr by (eexists; reflexivity).
  assert ((10 < 0)%Z ∨ (3 < 10)%Z) as Hor by (right; lia).
  destruct (X11_Stop_on_cooperative_task "a" 0 0 0
              {| childWG := 1; childCtx := WithCancel 1 (WithCancel 0 Background);
                 childCancel := 1; task := until_canceled |} 10 env [] w
              Hr eq_refl eq_refl eq_refl eq_refl eq_refl eq_refl eq_refl Hor)
    as (H1 & H2 & _).
  split; [exact H1 | exact H2].
Defined.

(** ** Every goroutine logs its closure once, in order *)

Lemma events_of_app g tr1 tr2 : events_of g (tr1 ++ tr2) = events_of g tr1 ++ events_of g tr2.
Proof. apply List.filter_app. Qed.

Lemma logged_ok_dead g G evs : logged_ok g G false evs → logged_ok g G true evs.
Proof.
  unfold logged_ok. destruct (pc G) as [k | [p|] | | |]; try done.
  intros [H | [H _]]; [by left | done].
Qed.

(** A step that only changes goroutine [x]: it appends events of [x] to the
    trace and moves [x]. *)
Lemma trace_ok_step x X X' es w w' :
  trace_ok w → goroutines w !! x = Some X →
  trace w' = trace w ++ es → (∀ g, g ≠ x → events_of g es = []) →
  goroutines w' = <[x := X']> (goroutines w) →
  (crashed w = true → crashed w' = true) →
  logged_ok x X' (crashed w') (events_of x (trace w) ++ events_of x es) →
  trace_ok w'.
Proof.
  intros Hok HX Htr Hes Hgs Hmono HX' g. specialize (Hok g).
  rewrite Htr, events_of_app, Hgs. destruct (decide (g = x)) as [-> | Hne].
  - rewrite list_lookup_insert_eq by (by apply lookup_lt_Some in HX). done.
  - rewrite list_lookup_insert_ne by done. rewrite (Hes g Hne), app_nil_r.
    destruct (goroutines w !! g) as [G|]; [| done].
    destruct (crashed w') eqn:E'; [| destruct (crashed w) eqn:E; [by specialize (Hmono eq_refl) | done]].
    destruct (crashed w); [done | by apply logged_ok_dead].
Qed.

(** A step of the manager itself: it may append events that belong to no
    closure, and may start a goroutine. *)
Lemma trace_ok_manager es gs w w' :
  trace_ok w → trace w' = trace w ++ es → (∀ g, events_of g es = []) →
  goroutines w' = goroutines w ++ gs → Forall (λ G, pc G = AtTask 0) gs →
  (crashed w = true → crashed w' = true) →
  trace_ok w'.
Proof.
  intros Hok Htr Hes Hgs Hnew Hmono g. specialize (Hok g).
  rewrite Htr, events_of_app, Hes, app_nil_r, Hgs.
  destruct (goroutines w !! g) as [G|] eqn:HG.
  - rewrite (lookup_app_l_Some _ _ _ _ HG).
    destruct (crashed w') eqn:E'; [| destruct (crashed w) eqn:E; [by specialize (Hmono eq_refl) | done]].
    destruct (crashed w); [done | by apply logged_ok_dead].
  - destruct ((goroutines w ++ gs) !! g) as [G|] eqn:HG'; [| done].
    apply lookup_app_Some in HG' as [HG' | [_ HG']]; [congruence |].
    apply list_elem_of_lookup_2 in HG'.
    pose proof (proj1 (Forall_forall _ _) Hnew _ HG') as Hpc.
    unfold logged_ok. by rewrite Hpc.
Qed.

Lemma trace_ok_same w w' :
  trace_ok w → trace w' = trace w → goroutines w' = goroutines w →
  (crashed w = true → crashed w' = true) → trace_ok w'.
Proof.
  intros Hok Htr Hgs Hmono. apply (trace_ok_manager [] [] w w'); try done.
  - by rewrite app_nil_r.
  - by rewrite app_nil_r.
Qed.

Lemma trace_set_counter wg c w : trace (set_counter wg c w) = trace w.
Proof. destruct wg as [|ptr]; simpl; [done |]. by destruct (heap w !! ptr). Qed.

Lemma set_pc_goroutines x p X w :
  goroutines w !! x = Some X →
  goroutines (set_pc x p w) = <[x := {| tw := tw X; pc := p |}]> (goroutines w).
Proof. intros HX. unfold set_pc. by rewrite HX. Qed.

Lemma trace_ok_gstep x w : trace_ok w → trace_ok (gstep x w).
Proof.
  intros Hok. unfold gstep. destruct (crashed w) eqn:Hcr; [done |].
  destruct (goroutines w !! x) as [X|] eqn:HX; [| done].
  pose proof (Hok x) as HokX. rewrite HX, Hcr in HokX. unfold logged_ok in HokX.
  assert (∀ w0, trace_ok w0 → trace_ok (crash w0)) as Hcrash.
  { intros w0 H0. by apply (trace_ok_same w0). }
  assert (∀ p evs, logged_ok x {| tw := tw X; pc := p |} false evs →
            events_of x (trace w) ++ [] = evs → trace_ok (set_pc x p w)) as Hmove.
  { intros p evs Hlog Hevs.
    apply (trace_ok_step x X {| tw := tw X; pc := p |} [] w); try done.
    - destruct (set_pc_fields x p w) as (_ & _ & _ & -> & _). by rewrite app_nil_r.
    - by apply set_pc_goroutines.
    - destruct (set_pc_fields x p w) as (_ & _ & _ & _ & ->). congruence.
    - destruct (set_pc_fields x p w) as (_ & _ & _ & _ & ->). rewrite Hcr. simpl.
      by rewrite Hevs. }
  destruct (pc X) as [k | [p|] | | |] eqn:Hpc.
  - destruct (heap w !! tw X) as [t|]; [| by apply Hcrash].
    rewrite HokX in Hmove.
    destruct (task t k _); eapply Hmove; try done; unfold logged_ok; simpl; auto.
  - destruct HokX as [HokX | [? _]]; [| done].
    destruct (PanicHandler (gm w)) as [h|].
    + destruct (h p).
      * apply (trace_ok_step x X {| tw := tw X; pc := AtChildDone |} [EvPanicHandler x p] w);
          try done.
        -- by destruct (set_pc_fields x AtChildDone (log (EvPanicHandler x p) w))
             as (_ & _ & _ & -> & _).
        -- intros g Hne. simpl. by rewrite bool_decide_eq_false_2.
        -- by rewrite (set_pc_goroutines x AtChildDone X).
        -- destruct (set_pc_fields x AtChildDone (log (EvPanicHandler x p) w))
             as (_ & _ & _ & _ & ->). simpl. congruence.
        -- rewrite HokX. simpl. rewrite bool_decide_eq_true_2 by done.
           unfold logged_ok. simpl. right. by exists p.
      * apply (trace_ok_step x X X [EvPanicHandler x p] w); try done.
        -- intros g Hne. simpl. by rewrite bool_decide_eq_false_2.
        -- simpl. symmetry. by apply list_insert_id.
        -- rewrite HokX. simpl. rewrite bool_decide_eq_true_2 by done.
           unfold logged_ok. rewrite Hpc. right. done.
    + rewrite HokX in Hmove. eapply Hmove; try done. unfold logged_ok. simpl. auto.
  - rewrite HokX in Hmove. eapply Hmove; try done. unfold logged_ok. simpl. auto.
  - rewrite wg_Done_eq. destruct (_ <? 0)%Z; [by apply Hcrash |].
    rewrite crashed_set_counter, Hcr.
    set (v := set_counter _ _ w).
    assert (goroutines v !! x = Some X) as HXv by (unfold v; by rewrite goroutines_set_counter).
    apply (trace_ok_step x X {| tw := tw X; pc := AtParentDone |} [EvChildDone x (tw X)] w);
      try done.
    + destruct (set_pc_fields x AtParentDone (log (EvChildDone x (tw X)) v))
        as (_ & _ & _ & -> & _). unfold log. cbn [trace]. unfold v.
      by rewrite trace_set_counter.
    + intros g Hne. simpl. by rewrite bool_decide_eq_false_2.
    + rewrite (set_pc_goroutines x AtParentDone X) by done. unfold log. cbn [goroutines].
      unfold v. by rewrite goroutines_set_counter.
    + congruence.
    + simpl. rewrite bool_decide_eq_true_2 by done. unfold logged_ok. simpl.
      destruct HokX as [-> | [p ->]]; [by left | right; by exists p].
  - rewrite wg_Done_eq. destruct (_ <? 0)%Z; [by apply Hcrash |].
    rewrite crashed_set_counter, Hcr.
    set (v := set_counter _ _ w).
    assert (goroutines v !! x = Some X) as HXv by (unfold v; by rewrite goroutines_set_counter).
    apply (trace_ok_step x X {| tw := tw X; pc := Exited |} [EvParentDone x] w); try done.
    + destruct (set_pc_fields x Exited (log (EvParentDone x) v))
        as (_ & _ & _ & -> & _). unfold log. cbn [trace]. unfold v.
      by rewrite trace_set_counter.
    + intros g Hne. simpl. by rewrite bool_decide_eq_false_2.
    + rewrite (set_pc_goroutines x Exited X) by done. unfold log. cbn [goroutines].
      unfold v. by rewrite goroutines_set_counter.
    + congruence.
    + simpl. rewrite bool_decide_eq_true_2 by done. unfold logged_ok. simpl.
      destruct HokX as [-> | [p ->]]; [by left | right; by exists p].
  - done.
Qed.

Lemma trace_ok_wg_Add wg d w : trace_ok w → trace_ok (wg_Add wg d w).
Proof.
  intros Hok. rewrite wg_Add_eq. destruct (_ <? 0)%Z.
  - by apply (trace_ok_same w).
  - apply (trace_ok_same w); [done | apply trace_set_counter | apply goroutines_set_counter |].
    by rewrite crashed_set_counter.
Qed.

Lemma trace_ok_log e w : (∀ g, closure_event g e = false) → trace_ok w → trace_ok (log e w).
Proof.
  intros He Hok. apply (trace_ok_manager [e] [] w); try done;
    [intros g; simpl; by rewrite He | simpl; by rewrite app_nil_r].
Qed.

Lemma trace_ok_StartAll_body ptr w : trace_ok w → trace_ok (StartAll_body ptr w).
Proof.
  intros Hok. unfold StartAll_body, go.
  set (v := log (EvChildAdd ptr) _).
  assert (trace_ok v) as Hv.
  { unfold v. apply trace_ok_log; [done |]. apply trace_ok_wg_Add.
    apply trace_ok_log; [done |]. by apply trace_ok_wg_Add. }
  apply (trace_ok_manager [EvGo (length (goroutines v)) ptr]
           [{| tw := ptr; pc := AtTask 0 |}] v); try done.
  by repeat constructor.
Qed.

Lemma trace_ok_StartAll_loop l w : trace_ok w → trace_ok (StartAll_loop l w).
Proof.
  revert w. induction l as [|ptr l IH]; intros w Hok; [done |].
  rewrite StartAll_loop_cons. by apply IH, trace_ok_StartAll_body.
Qed.

Lemma trace_ok_run_ticks s w : trace_ok w → trace_ok (run_ticks s w).
Proof.
  revert w. induction s as [|[g|] s IH]; intros w Hok; simpl; [done | | by apply IH].
  by apply IH, trace_ok_gstep.
Qed.

Lemma trace_ok_wait wg timeout env id w :
  trace_ok w → trace_ok (WaitGroupWithTimeout wg timeout env (cancel id w)).1.
Proof.
  intros Hok. destruct (WaitGroupWithTimeout_ticks wg timeout env (cancel id w)) as [n ->].
  apply trace_ok_run_ticks. by apply (trace_ok_same w).
Qed.

Lemma trace_ok_exec o w : trace_ok w → trace_ok (exec o w).
Proof.
  intros Hok. unfold exec. destruct (crashed w); [done |].
  destruct o as [h | name f | name timeout env | | timeout env | name | name timeout env | g].
  - by apply (trace_ok_same w).
  - by apply (trace_ok_same w).
  - unfold RemoveTask. destruct (tasks (gm w) !! name) as [ptr|]; [| done].
    destruct (heap w !! ptr) as [t|]; [| by apply (trace_ok_same w)].
    pose proof (trace_ok_wait (Some (ChildWG ptr)) timeout env (childCancel t) w Hok) as H.
    by destruct (WaitGroupWithTimeout _ _ _ _) as [w1 [[| |]|]].
  - by apply trace_ok_StartAll_loop.
  - unfold StopAll.
    pose proof (trace_ok_wait (Some ParentWG) timeout env (parentCancel (gm w)) w Hok) as H.
    by destruct (WaitGroupWithTimeout _ _ _ _) as [w1 [[| |]|]].
  - unfold Start. destruct (tasks (gm w) !! name) as [ptr|]; [| done].
    cbn [fst]. by apply (trace_ok_StartAll_body ptr w).
  - unfold Stop. destruct (tasks (gm w) !! name) as [ptr|]; [| done].
    destruct (heap w !! ptr) as [t|]; [| by apply (trace_ok_same w)].
    pose proof (trace_ok_wait (Some (ChildWG ptr)) timeout env (childCancel t) w Hok) as H.
    by destruct (WaitGroupWithTimeout _ _ _ _) as [w1 [[| |]|]].
  - by apply trace_ok_gstep.
Qed.

Lemma trace_ok_run ops w : trace_ok w → trace_ok (run ops w).
Proof.
  revert w. induction ops as [|o ops IH]; intros w Hok; simpl; [done |].
  by apply IH, trace_ok_exec.
Qed.

(** X12: whatever the process calls and however its goroutines are
    interleaved, each goroutine's deferred closure logs at most one handler
    call, then its [childWG.Done()], then its [parentWG.Done()], each at most
    once and in that order; what it has logged is fixed by where it stands,
    a finished goroutine has logged both [Done()] calls, a goroutine still
    in its work function has logged nothing, and a goroutine not launched
    yet has no event. *)
Theorem X12_each_goroutine_logs_its_closure_once g w :
  reachable w →
  match goroutines w !! g with
  | Some G =>
      match pc G with
      | AtTask _ | AtDefer None => events_of g (trace w) = []
      | AtDefer (Some p) =>
          events_of g (trace w) = []
          ∨ (crashed w = true ∧ events_of g (trace w) = [EvPanicHandler g p])
      | AtChildDone =>
          events_of g (trace w) = [] ∨ ∃ p, events_of g (trace w) = [EvPanicHandler g p]
      | AtParentDone =>
          events_of g (trace w) = [EvChildDone g (tw G)]
          ∨ ∃ p, events_of g (trace w) = [EvPanicHandler g p; EvChildDone g (tw G)]
      | Exited =>
          events_of g (trace w) = [EvChildDone g (tw G); EvParentDone g]
          ∨ ∃ p, events_of g (trace w)
                 = [EvPanicHandler g p; EvChildDone g (tw G); EvParentDone g]
      end
  | None => events_of g (trace w) = []
  end.
Proof.
  intros [ops ->].
  assert (trace_ok NewGoroutineManager) as H0 by (intros g'; done).
  exact (trace_ok_run ops _ H0 g).
Qed.

Lemma X12_witness :
  let w := run [OpSetPanicHandler (Some DefaultPanicHandler);
                OpAddTask "a" panics_at_once; OpAddTask "b" until_canceled;
                OpStart "a"; OpStart "b";
                OpSched 0; OpSched 1; OpSched 0; OpSched 0; OpSched 1; OpSched 0]
             NewGoroutineManager in
  events_of 0 (trace w) = [EvChildDone 0 0; EvParentDone 0]
  ∨ ∃ p, events_of 0 (trace w) = [EvPanicHandler 0 p; EvChildDone 0 0; EvParentDone 0].
Proof.
  set (w := run _ _).
  assert (reachable w) as Hr by (eexists; reflexivity).
  exact (X12_each_goroutine_logs_its_closure_once 0 w Hr).
Defined.

(** ** What the counters count *)

(** X13: in every world a process can reach, the manager's counter is the
    number of launched goroutines that have not yet called
    [parentWG.Done()], and each wrapper's counter is the number of
    goroutines on that wrapper that have not yet called [childWG.Done()];
    so no counter is ever negative, and a goroutine that still owes a
    [Done()] keeps its counter above zero. *)
Theorem X13_counters_count_outstanding_goroutines w :
  reachable w →
  counter ParentWG w = count pending_parent (goroutines w)
  ∧ (0 ≤ counter ParentWG w)%Z
  ∧ (∀ ptr t, heap w !! ptr = Some t →
       counter (ChildWG ptr) w = count (pending_child ptr) (goroutines w)
       ∧ (0 ≤ counter (ChildWG ptr) w ≤ counter ParentWG w)%Z)
  ∧ (∀ g G, goroutines w !! g = Some G →
       (pending_child (tw G) G = true → (1 ≤ counter (ChildWG (tw G)) w)%Z)
       ∧ (pending_parent G = true → (1 ≤ counter ParentWG w)%Z)).
Proof.
  intros Hw%reachable_wf.
  assert (∀ ptr (l : list Goroutine), (count (pending_child ptr) l ≤ count pending_parent l)%Z)
    as Hle.
  { intros ptr l. induction l as [|G l IH]; simpl; [done |].
    assert (b2z (pending_child ptr G) ≤ b2z (pending_parent G))%Z as HG.
    { unfold pending_child, pending_parent, b2z.
      destruct (bool_decide (tw G = ptr)), (pc G); simpl; lia. }
    lia. }
  split; [apply (wf_parent _ Hw) |].
  split; [simpl; rewrite (wf_parent _ Hw); apply count_nonneg |].
  split.
  - intros ptr t Ht. rewrite (counter_child _ _ _ Ht), (wf_child _ Hw _ _ Ht).
    split; [done |]. simpl. rewrite (wf_parent _ Hw).
    split; [apply count_nonneg | apply Hle].
  - intros g G HG. by apply (pending_counted g).
Qed.

Lemma X13_witness :
  let w := run [OpAddTask "a" busy_loop; OpStart "a"; OpStart "a"; OpSched 0]
             NewGoroutineManager in
  counter ParentWG w = count pending_parent (goroutines w) ∧ (0 ≤ counter ParentWG w)%Z.
Proof.
  set (w := run _ _).
  assert (reachable w) as Hr by (eexists; reflexivity).
  destruct (X13_counters_count_outstanding_goroutines w Hr) as (H1 & H2 & _).
  split; [exact H1 | exact H2].
Defined.

(** ** StartAll launches each registered task once *)

Lemma StartAll_loop_effect l : ∀ w,
  wf w → Forall (λ ptr, ptr < length (heap w)) l →
  length (goroutines (StartAll_loop l w)) = length (goroutines w) + length l
  ∧ counter ParentWG (StartAll_loop l w) = (counter ParentWG w + Z.of_nat (length l))%Z
  ∧ (∀ p, p < length (heap w) →
       counter (ChildWG p) (StartAll_loop l w)
       = (counter (ChildWG p) w + Z.of_nat (length (filter (λ q, q = p) l)))%Z)
  ∧ tasks (gm (StartAll_loop l w)) = tasks (gm w)
  ∧ crashed (StartAll_loop l w) = crashed w.
Proof.
  induction l as [|ptr l IH]; intros w Hw Hl.
  { split_and!; try done; intros; simpl; lia. }
  rewrite StartAll_loop_cons. apply Forall_cons in Hl as [Hptr Hl].
  pose proof Hptr as Hptr'. apply lookup_lt_is_Some in Hptr' as [t Ht].
  assert (length (heap (StartAll_body ptr w)) = length (heap w)) as Hlen
    by (by apply length_heap_StartAll_body).
  destruct (IH (StartAll_body ptr w)) as (H1 & H2 & H3 & H4 & H5);
    [by apply wf_StartAll_body | by rewrite Hlen |].
  pose proof (StartAll_body_eq ptr t w Hw Ht) as E.
  assert (length (goroutines (StartAll_body ptr w)) = S (length (goroutines w))) as Eg.
  { rewrite E. simpl. rewrite length_app. simpl. lia. }
  assert (counter ParentWG (StartAll_body ptr w) = (counter ParentWG w + 1)%Z) as Ep
    by (by rewrite E).
  assert (tasks (gm (StartAll_body ptr w)) = tasks (gm w)) as Et by (by rewrite E).
  assert (crashed (StartAll_body ptr w) = crashed w) as Ec by (by rewrite E).
  assert (∀ p, p < length (heap w) →
          counter (ChildWG p) (StartAll_body ptr w)
          = (counter (ChildWG p) w + if decide (ptr = p) then 1 else 0)%Z) as Ech.
  { intros p Hp. rewrite E. simpl. destruct (decide (ptr = p)) as [-> | Hne].
    - rewrite list_lookup_insert_eq by done. rewrite Ht. simpl. lia.
    - rewrite list_lookup_insert_ne by done. lia. }
  split_and!.
  - rewrite H1, Eg. simpl. lia.
  - rewrite H2, Ep. simpl length. lia.
  - intros p Hp. rewrite H3 by (by rewrite Hlen). rewrite (Ech p Hp).
    rewrite filter_cons. destruct (decide (ptr = p)); simpl; lia.
  - by rewrite H4.
  - by rewrite H5.
Qed.

Lemma length_filter_eq_NoDup (l : list nat) p :
  NoDup l → length (filter (λ q, q = p) l) = if decide (p ∈ l) then 1 else 0.
Proof.
  induction 1 as [|q l Hq Hnd IH].
  { rewrite decide_False; [done | apply not_elem_of_nil]. }
  rewrite filter_cons. destruct (decide (q = p)) as [-> | Hne].
  - simpl. rewrite IH. rewrite (decide_False (P := p ∈ l)) by done.
    rewrite decide_True; [done | apply elem_of_cons; by left].
  - rewrite IH. destruct (decide (p ∈ l)) as [Hin | Hin].
    + rewrite decide_True; [done | apply elem_of_cons; by right].
    + rewrite decide_False; [done |]. intros [-> | H]%elem_of_cons; done.
Qed.

(** X14: [StartAll] launches one goroutine for each registered name and no
    other: the number of goroutines and the manager's counter grow by the
    size of the registry, the counter of each registered wrapper grows by
    exactly one, the counter of a wrapper no name maps to is unchanged, and
    the registry is unchanged. So calling it again launches every task a
    second time. *)
Theorem X14_StartAll_launches_each_task_once w :
  reachable w →
  length (goroutines (StartAll w)) = length (goroutines w) + size (tasks (gm w))
  ∧ counter ParentWG (StartAll w) = (counter ParentWG w + Z.of_nat (size (tasks (gm w))))%Z
  ∧ (∀ name ptr, tasks (gm w) !! name = Some ptr →
       counter (ChildWG ptr) (StartAll w) = (counter (ChildWG ptr) w + 1)%Z)
  ∧ (∀ ptr t, heap w !! ptr = Some t → (∀ name, tasks (gm w) !! name ≠ Some ptr) →
       counter (ChildWG ptr) (StartAll w) = counter (ChildWG ptr) w)
  ∧ tasks (gm (StartAll w)) = tasks (gm w)
  ∧ length (goroutines (StartAll (StartAll w)))
    = length (goroutines w) + 2 * size (tasks (gm w)).
Proof.
  intros Hw%reachable_wf.
  assert (∀ v, wf v →
    length (goroutines (StartAll v)) = length (goroutines v) + size (tasks (gm v))
    ∧ counter ParentWG (StartAll v) = (counter ParentWG v + Z.of_nat (size (tasks (gm v))))%Z
    ∧ (∀ name ptr, tasks (gm v) !! name = Some ptr →
         counter (ChildWG ptr) (StartAll v) = (counter (ChildWG ptr) v + 1)%Z)
    ∧ (∀ ptr t, heap v !! ptr = Some t → (∀ name, tasks (gm v) !! name ≠ Some ptr) →
         counter (ChildWG ptr) (StartAll v) = counter (ChildWG ptr) v)
    ∧ tasks (gm (StartAll v)) = tasks (gm v)) as Hall.
  { clear w Hw. intros w Hw. unfold StartAll.
    set (l := snd <$> map_to_list (tasks (gm w))).
    assert (length l = size (tasks (gm w))) as Hlen.
    { unfold l. by rewrite length_fmap, length_map_to_list. }
    assert (NoDup l) as Hnd.
    { unfold l. apply NoDup_fmap_2_strong; [| apply NoDup_map_to_list].
      intros [n1 p1] [n2 p2] H1%elem_of_map_to_list H2%elem_of_map_to_list Heq.
      simpl in Heq. subst p2. f_equal. by apply (wf_names _ Hw n1 n2 p1). }
    destruct (StartAll_loop_effect l w Hw (registered_in_heap w Hw))
      as (H1 & H2 & H3 & H4 & _).
    split_and!.
    - by rewrite H1, Hlen.
    - by rewrite H2, Hlen.
    - intros name ptr Hn. rewrite H3 by (by apply (wf_tasks _ Hw name)).
      rewrite (length_filter_eq_NoDup l ptr Hnd). rewrite decide_True; [done |].
      unfold l. apply list_elem_of_fmap. exists (name, ptr). split; [done |].
      by apply elem_of_map_to_list.
    - intros ptr t Ht Hno. rewrite H3 by (by apply lookup_lt_Some in Ht).
      rewrite (length_filter_eq_NoDup l ptr Hnd). rewrite decide_False; [lia |].
      unfold l. intros ([name p] & -> & Hin%elem_of_map_to_list)%list_elem_of_fmap.
      by apply (Hno name).
    - done. }
  destruct (Hall w Hw) as (H1 & H2 & H3 & H4 & H5).
  split_and!; try done.
  destruct (Hall (StartAll w) (wf_StartAll w Hw)) as (H1' & _).
  rewrite H1', H1, H5. lia.
Qed.

Lemma X14_witness :
  let w := run [OpAddTask "a" busy_loop; OpAddTask "b" until_canceled; OpStart "a"]
             NewGoroutineManager in
  length (goroutines (StartAll w)) = length (goroutines w) + size (tasks (gm w))
  ∧ tasks (gm (StartAll w)) = tasks (gm w).
Proof.
  set (w := run _ _).
  assert (reachable w) as Hr by (eexists; reflexivity).
  destruct (X14_StartAll_launches_each_task_once w Hr) as (H1 & _ & _ & _ & H5 & _).
  split; [exact H1 | exact H5].
Defined.

(** ** After a successful RemoveTask *)

(** X15: when [RemoveTask(name, timeout)] returns nil on a registered task,
    the process is alive, every goroutine launched on the task's wrapper
    has called [childWG.Done()], and no name maps to that wrapper any more:
    [Start] on the name now returns the "task does not exist" error and
    [Stop] and [RemoveTask] on it return nil without doing anything. *)
Theorem X15_RemoveTask_nil_frees_the_name name ptr timeout env w :
  reachable w → tasks (gm w) !! name = Some ptr →
  (RemoveTask name timeout env w).2 = Returns None →
  let w' := (RemoveTask name timeout env w).1 in
  crashed w' = false
  ∧ counter (ChildWG ptr) w' = 0%Z
  ∧ (∀ g G, goroutines w' !! g = Some G → tw G = ptr →
       pc G = AtParentDone ∨ pc G = Exited)
  ∧ (∀ n, tasks (gm w') !! n ≠ Some ptr)
  ∧ Start name w' = (w', Returns (Some (ErrTaskNotExist name)))
  ∧ (∀ timeout' env', Stop name timeout' env' w' = (w', Returns None)
                      ∧ RemoveTask name timeout' env' w' = (w', Returns None)).
Proof.
  intros Hw%reachable_wf Hn Hres.
  pose proof (wf_RemoveTask name timeout env w Hw) as Hw'.
  pose proof (wf_tasks _ Hw _ _ Hn) as Hlt. pose proof Hlt as Hlt'.
  apply lookup_lt_is_Some in Hlt' as [t Ht].
  destruct (frame_lookup_heap _ _ ptr t
              (frame_WaitGroupWithTimeout (Some (ChildWG ptr)) timeout env
                 (cancel (childCancel t) w)) Ht) as (t1 & Ht1 & _).
  destruct (wait_after_cancel (Some (ChildWG ptr)) timeout env (childCancel t) w)
    as (_ & Htasks & _).
  cbv zeta. unfold RemoveTask in Hres, Hw' |- *. rewrite Hn, Ht in Hres, Hw' |- *.
  destruct (WaitGroupWithTimeout _ _ _ _) as [w1 r] eqn:E.
  cbn [fst snd] in *. destruct r as [[| |]|]; try done. cbn [fst snd] in *.
  destruct (wait_success _ _ _ _ _ E) as [Hz Hcr].
  set (w' := set_gm _ w1) in *.
  assert (tasks (gm w') !! name = None) as Hfree by (simpl; apply lookup_delete_eq).
  split_and!.
  - done.
  - exact Hz.
  - intros g G HG Htw.
    rewrite (counter_child _ _ _ Ht1) in Hz.
    assert (heap w' !! ptr = Some t1) as Ht1' by done.
    rewrite (wf_child _ Hw' _ _ Ht1') in Hz.
    pose proof (count_zero _ _ _ _ Hz HG) as Hp. unfold pending_child in Hp.
    rewrite bool_decide_eq_true_2 in Hp by done. destruct (pc G); simpl in Hp; auto; done.
  - intros n Hl. simpl in Hl. apply lookup_delete_Some in Hl as [Hne Hl].
    rewrite Htasks in Hl. apply Hne. by apply (wf_names _ Hw name n ptr).
  - unfold Start. by rewrite Hfree.
  - intros timeout' env'. unfold Stop, RemoveTask. by rewrite Hfree.
Qed.

Lemma X15_witness :
  let w := run [OpAddTask "a" until_canceled; OpStart "a"] NewGoroutineManager in
  let env := {| sched := [Some 0; Some 0; Some 0]; pick := false |} in
  crashed (RemoveTask "a" 10 env w).1 = false
  ∧ Start "a" (RemoveTask "a" 10 env w).1
    = ((RemoveTask "a" 10 env w).1, Returns (Some (ErrTaskNotExist "a"))).
Proof.
  set (w := run [OpAddTask "a" until_canceled; OpStart "a"] NewGoroutineManager).
  set (env := {| sched := [Some 0; Some 0; Some 0]; pick := false |}).
  assert (reachable w) as Hr by (eexists; reflexivity).
  destruct (X15_RemoveTask_nil_frees_the_name "a" 0 10 env w Hr eq_refl eq_refl)
    as (H1 & _ & _ & _ & H5 & _).
  split; [exact H1 | exact H5].
Defined.

(** ** RemoveTask, by the task's counter *)

(** The result of a wait on a WaitGroup, by the first instant its counter is
    at zero. *)
Lemma wait_by_zero_time wg timeout env w :
  match zero_time wg (sched env) w with
  | Some n =>
      ((timeout < 0 ∨ n < timeout)%Z →
         WaitGroupWithTimeout (Some wg) timeout env w
         = (run_ticks (take (Z.to_nat n) (sched env)) w, Some WaitSuccess))
      ∧ ((0 ≤ timeout < n)%Z →
         (WaitGroupWithTimeout (Some wg) timeout env w).2 = Some WaitTimeout)
  | None =>
      ((timeout < 0)%Z → (WaitGroupWithTimeout (Some wg) timeout env w).2 = None)
      ∧ ((0 ≤ timeout)%Z → alive_after timeout (sched env) w = true →
         (WaitGroupWithTimeout (Some wg) timeout env w).2 = Some WaitTimeout)
  end.
Proof.
  unfold WaitGroupWithTimeout.
  pose proof (wg_Wait_zero_time wg (sched env) w) as Hw.
  destruct (timeout <? 0)%Z eqn:Eneg.
  - apply Z.ltb_lt in Eneg. destruct (zero_time wg (sched env) w) as [n|].
    + rewrite Hw. split; [done | lia].
    + split; [| lia]. intros _. by destruct (wg_Wait wg (sched env) w) as [w1 []].
  - apply Z.ltb_ge in Eneg.
    pose proof (select_zero_time wg (pick env) (sched env) timeout w Eneg) as Hs.
    destruct (zero_time wg (sched env) w) as [n|].
    + destruct Hs as (H1 & _ & H3). split.
      * intros [Hlt | Hlt]; [lia | by apply H1].
      * intros [_ Hlt]. by apply H3.
    + split; [lia | done].
Qed.

(** C5: on a registered name [RemoveTask(name, timeout)] calls the cancel
    function of the task's wrapper and waits on that wrapper's WaitGroup with
    [timeout], letting the scheduled goroutines run meanwhile. It returns nil
    and deletes the entry exactly when that wait returned WaitSuccess, which
    it does when the wrapper's counter gets to zero before the timer fires
    (or at all, for a negative timeout): then the world is the one the wait
    left with the entry deleted, the counter is at zero and every goroutine
    of the wrapper has called [childWG.Done()]. When the counter is not at
    zero by then, the error is returned, the world is the one the wait left,
    the entry stays and the task's context is still done. On a name that is
    not registered it returns nil and changes nothing (no event is logged,
    so no handler call, and the registry is the same). *)
Theorem C5_RemoveTask_deletes_iff_wait_succeeds name timeout env w :
  reachable w →
  (tasks (gm w) !! name = None → RemoveTask name timeout env w = (w, Returns None))
  ∧ (∀ ptr, tasks (gm w) !! name = Some ptr →
       ∃ t, heap w !! ptr = Some t ∧
         let wait := WaitGroupWithTimeout (Some (ChildWG ptr)) timeout env
                       (cancel (childCancel t) w) in
         let w' := (RemoveTask name timeout env w).1 in
         let res := (RemoveTask name timeout env w).2 in
         fired w' = {[childCancel t]} ∪ fired w
         ∧ Done (fired w') (childCtx t) = true
         ∧ (wait.2 = Some WaitSuccess ↔ tasks (gm w') !! name = None)
         ∧ (wait.2 = Some WaitSuccess →
              res = Returns None ∧ tasks (gm w') = delete name (tasks (gm w)))
         ∧ (wait.2 = Some WaitTimeout →
              res = Returns (Some (ErrGoroutineNotTerminated name timeout))
              ∧ tasks (gm w') = tasks (gm w)
              ∧ ∃ t', heap w' !! ptr = Some t' ∧ childCtx t' = childCtx t
                      ∧ Done (fired w') (childCtx t') = true)
         ∧ (wait.2 = None → res = NeverReturns ∧ tasks (gm w') = tasks (gm w))
         ∧ wait.2 ≠ Some WaitInvalidParam
         ∧ (∃ n, wait.1 = run_ticks (take n (sched env)) (cancel (childCancel t) w))
         ∧ (res = Returns None ↔ tasks (gm w') !! name = None)
         ∧ (res = Returns None →
              w' = set_gm (set_tasks (delete name (tasks (gm wait.1))) (gm wait.1)) wait.1
              ∧ crashed w' = false
              ∧ counter (ChildWG ptr) w' = 0%Z
              ∧ ∀ g G, goroutines w' !! g = Some G → tw G = ptr →
                  pc G = AtParentDone ∨ pc G = Exited)
         ∧ (res ≠ Returns None → w' = wait.1)
         ∧ match zero_time (ChildWG ptr) (sched env) (cancel (childCancel t) w) with
           | Some n =>
               ((timeout < 0 ∨ n < timeout)%Z →
                  res = Returns None ∧ tasks (gm w') !! name = None)
               ∧ ((0 ≤ timeout < n)%Z →
                  res = Returns (Some (ErrGoroutineNotTerminated name timeout))
                  ∧ tasks (gm w') = tasks (gm w))
           | None =>
               ((timeout < 0)%Z → res = NeverReturns ∧ tasks (gm w') = tasks (gm w))
               ∧ ((0 ≤ timeout)%Z →
                  alive_after timeout (sched env) (cancel (childCancel t) w) = true →
                  res = Returns (Some (ErrGoroutineNotTerminated name timeout))
                  ∧ tasks (gm w') = tasks (gm w))
           end).
Proof.
  intros Hr%reachable_wf. split.
  { intros H. unfold RemoveTask. by rewrite H. }
  intros ptr Hn. pose proof (wf_tasks _ Hr _ _ Hn) as Hlt.
  apply lookup_lt_is_Some in Hlt as [t Ht]. exists t. split; [done |]. cbv zeta.
  pose proof (wf_RemoveTask name timeout env w Hr) as Hw'.
  unfold RemoveTask in Hw' |- *. rewrite Hn, Ht in Hw' |- *.
  set (w0 := cancel (childCancel t) w) in *.
  destruct (wait_after_cancel (Some (ChildWG ptr)) timeout env (childCancel t) w)
    as (Hticks & Htasks & Hfired). fold w0 in Hticks, Htasks, Hfired.
  pose proof (frame_WaitGroupWithTimeout (Some (ChildWG ptr)) timeout env w0) as F.
  destruct (frame_lookup_heap _ _ ptr t F Ht) as (t' & Ht' & Hctx & _).
  assert (Done ({[childCancel t]} ∪ fired w) (childCtx t) = true) as HD.
  { destruct (wf_ctx _ Hr _ _ Ht) as [Hc ->]. apply Done_own.
    rewrite <- Hc. apply elem_of_union_l. by apply elem_of_singleton. }
  assert ((WaitGroupWithTimeout (Some (ChildWG ptr)) timeout env w0).2
          ≠ Some WaitInvalidParam) as Hinv.
  { by intros H%WaitGroupWithTimeout_invalid_iff. }
  pose proof (wait_by_zero_time (ChildWG ptr) timeout env w0) as Hzt.
  destruct (WaitGroupWithTimeout (Some (ChildWG ptr)) timeout env w0) as [w1 r] eqn:E.
  cbn [fst snd] in *.
  assert (r = Some WaitSuccess →
          crashed w1 = false ∧ counter (ChildWG ptr) w1 = 0%Z
          ∧ ∀ g G, goroutines w1 !! g = Some G → tw G = ptr →
              pc G = AtParentDone ∨ pc G = Exited) as Hsucc.
  { intros ->. destruct (wait_success _ _ _ _ _ E) as [Hz Hcr].
    split; [done |]. split; [done |]. intros g G HG Htw.
    rewrite (counter_child _ _ _ Ht') in Hz.
    assert (heap (set_gm (set_tasks (delete name (tasks (gm w1))) (gm w1)) w1) !! ptr
            = Some t') as Ht1 by done.
    rewrite (wf_child _ Hw' _ _ Ht1) in Hz.
    pose proof (count_zero _ _ _ _ Hz HG) as Hp. unfold pending_child in Hp.
    rewrite bool_decide_eq_true_2 in Hp by done. destruct (pc G); simpl in Hp; auto; done. }
  assert (tasks (gm w1) !! name = Some ptr) as Hn1 by (by rewrite Htasks).
  assert (tasks (gm (set_gm (set_tasks (delete name (tasks (gm w1))) (gm w1)) w1)) !! name
          = None) as Hdel by (simpl; apply lookup_delete_eq).
  destruct r as [[| |]|]; cbn [fst snd]; try done.
  - (* the wait succeeded *)
    destruct (Hsucc eq_refl) as (Hcr & Hz & Hfin).
    split_and!; try done.
    + change (Done (fired w1) (childCtx t) = true). by rewrite Hfired.
    + intros _. split; [done |]. simpl. by rewrite Htasks.
    + destruct (zero_time (ChildWG ptr) (sched env) w0) as [n|].
      * destruct Hzt as [_ Hz2]. split; [done |]. intros Hlt. by specialize (Hz2 Hlt).
      * destruct Hzt as [Hz1 Hz2]. split.
        -- intros Hneg. by specialize (Hz1 Hneg).
        -- intros Hpos Hal. by specialize (Hz2 Hpos Hal).
  - (* the timer fired first *)
    split_and!; try done.
    + by rewrite Hfired.
    + split; [done |]. intros H. by rewrite Hn1 in H.
    + intros _. split_and!; [done | done |]. exists t'. by rewrite Hctx, Hfired.
    + split; [done |]. intros H. by rewrite Hn1 in H.
    + destruct (zero_time (ChildWG ptr) (sched env) w0) as [n|].
      * destruct Hzt as [Hz1 _]. split; [| done]. intros Hlt. by specialize (Hz1 Hlt).
      * destruct Hzt as [Hz1 _]. split; [| done]. intros Hneg. by specialize (Hz1 Hneg).
  - (* the call is still blocked *)
    split_and!; try done.
    + by rewrite Hfired.
    + split; [done |]. intros H. by rewrite Hn1 in H.
    + split; [done |]. intros H. by rewrite Hn1 in H.
    + destruct (zero_time (ChildWG ptr) (sched env) w0) as [n|].
      * destruct Hzt as [Hz1 Hz2]. split.
        -- intros Hlt. by specialize (Hz1 Hlt).
        -- intros Hlt. by specialize (Hz2 Hlt).
      * destruct Hzt as [_ Hz2]. split; [done |].
        intros Hpos Hal. by specialize (Hz2 Hpos Hal).
Qed.

Lemma C5_witness :
  let w := run [OpAddTask "a" until_canceled; OpAddTask "b" busy_loop;
                OpStart "a"; OpStart "b"] NewGoroutineManager in
  let env := {| sched := [Some 0; Some 1; Some 0; Some 0]; pick := false |} in
  ((RemoveTask "a" 10 env w).2 = Returns None
   ∧ tasks (gm (RemoveTask "a" 10 env w).1) !! "a" = None
   ∧ counter (ChildWG 0) (RemoveTask "a" 10 env w).1 = 0%Z)
  ∧ ((RemoveTask "b" 3 env w).2 = Returns (Some (ErrGoroutineNotTerminated "b" 3))
     ∧ tasks (gm (RemoveTask "b" 3 env w).1) = tasks (gm w))
  ∧ RemoveTask "c" 10 env w = (w, Returns None).
Proof.
  set (w := run [OpAddTask "a" until_canceled; OpAddTask "b" busy_loop;
                 OpStart "a"; OpStart "b"] NewGoroutineManager).
  set (env := {| sched := [Some 0; Some 1; Some 0; Some 0]; pick := false |}).
  assert (reachable w) as Hr by (eexists; reflexivity).
  destruct (C5_RemoveTask_deletes_iff_wait_succeeds "a" 10 env w Hr) as [_ Ha].
  destruct (C5_RemoveTask_deletes_iff_wait_succeeds "b" 3 env w Hr) as [_ Hb].
  destruct (C5_RemoveTask_deletes_iff_wait_succeeds "c" 10 env w Hr) as [Hc _].
  destruct (Ha 0 eq_refl) as (ta & Hta & _ & _ & Hiff & Hs & _ & _ & _ & _ & _ & Hnil & _).
  injection Hta as <-.
  destruct (Hb 1 eq_refl) as (tb & Htb & _ & _ & _ & _ & Hto & _).
  injection Htb as <-.
  assert ((WaitGroupWithTimeout (Some (ChildWG 0)) 10 env (cancel 1 w)).2
          = Some WaitSuccess) as Hwa by reflexivity.
  assert ((WaitGroupWithTimeout (Some (ChildWG 1)) 3 env (cancel 2 w)).2
          = Some WaitTimeout) as Hwb by reflexivity.
  pose proof (proj1 (Hs Hwa)) as Ha1. pose proof (proj1 Hiff Hwa) as Ha2.
  destruct (Hnil Ha1) as (_ & _ & Ha3 & _).
  destruct (Hto Hwb) as (Hb1 & Hb2 & _).
  split; [split; [exact Ha1 | split; [exact Ha2 | exact Ha3]] |].
  split; [split; [exact Hb1 | exact Hb2] | exact (Hc eq_refl)].
Defined.

(** ** A panicking goroutine under any schedule *)

Lemma recovered_events_eq h g ptr p :
  recovered_events h g ptr p = handler_events h g p ++ [EvChildDone g ptr; EvParentDone g].
Proof. by destruct h. Qed.

Lemma trace_wg_Done wg w : trace (wg_Done wg w) = trace w.
Proof. rewrite wg_Done_eq. destruct (_ <? 0)%Z; [done | apply trace_set_counter]. Qed.

Lemma events_of_log_other g x e tr :
  x ≠ g → closure_event x e = true → events_of g (tr ++ [e]) = events_of g tr.
Proof.
  intros Hne He. rewrite events_of_app. simpl.
  assert (closure_event g e = false) as ->; [| by rewrite app_nil_r].
  destruct e; simpl in *; try done;
    apply bool_decide_eq_true in He; subst; by rewrite bool_decide_eq_false_2.
Qed.

(** A quantum of another goroutine adds no event of [g]. *)
Lemma gstep_events_other x g w :
  x ≠ g → events_of g (trace (gstep x w)) = events_of g (trace w).
Proof.
  intros Hne. unfold gstep. destruct (crashed w); [done |].
  destruct (goroutines w !! x) as [X|]; [| done].
  assert (∀ p v, trace (set_pc x p v) = trace v) as Hset.
  { intros p v. by destruct (set_pc_fields x p v) as (_ & _ & _ & -> & _). }
  destruct (pc X) as [k | [p|] | | |].
  - destruct (heap w !! tw X) as [t|]; [| done]. destruct (task t k _); by rewrite Hset.
  - destruct (PanicHandler (gm w)) as [h|]; [| by rewrite Hset].
    destruct (h p).
    + rewrite Hset. apply (events_of_log_other g x); [done |]. simpl.
      by rewrite bool_decide_eq_true_2.
    + apply (events_of_log_other g x); [done |]. simpl. by rewrite bool_decide_eq_true_2.
  - by rewrite Hset.
  - destruct (crashed (wg_Done _ w)); [by rewrite trace_wg_Done |].
    rewrite Hset. unfold log. cbn [trace]. rewrite trace_wg_Done.
    apply (events_of_log_other g x); [done |]. simpl. by rewrite bool_decide_eq_true_2.
  - destruct (crashed (wg_Done _ w)); [by rewrite trace_wg_Done |].
    rewrite Hset. unfold log. cbn [trace]. rewrite trace_wg_Done.
    apply (events_of_log_other g x); [done |]. simpl. by rewrite bool_decide_eq_true_2.
  - done.
Qed.

Lemma stands_other h fd t k p g ptr x v n :
  x ≠ g → stands h fd t k p g ptr v n → stands h fd t k p g ptr (gstep x v) n.
Proof.
  intros Hne (HG & Hev & Hh & Hf & t' & Ht' & Htask & Hctx).
  pose proof (frame_gstep x v) as F.
  destruct (frame_lookup_heap _ _ ptr t' F Ht') as (t'' & Ht'' & Hctx' & _ & Htask').
  split_and!.
  - by rewrite gstep_other.
  - by rewrite gstep_events_other.
  - by rewrite (frame_handler _ _ F).
  - by rewrite (frame_fired _ _ F).
  - exists t''. split_and!; [done | congruence | congruence].
Qed.

(** The goroutine's own quantum: it moves one step on, logs what the step
    logs, and leaves the process alive. *)
Lemma stands_own h fd t k p g ptr v n :
  wf v → crashed v = false →
  task t k (Done fd (childCtx t)) = Panicked p → handler_returns h p →
  stands h fd t k p g ptr v n →
  stands h fd t k p g ptr (gstep g v) (S n) ∧ crashed (gstep g v) = false.
Proof.
  intros Hw Hcr Hpanic Hret (HG & Hev & Hh & Hf & t' & Ht' & Htask & Hctx).
  assert (∀ pc' v', goroutines v' !! g = Some {| tw := ptr; pc := pc_after k p n |} →
            goroutines (set_pc g pc' v') !! g = Some {| tw := ptr; pc := pc' |}) as Hmove.
  { intros pc' v' H. apply (set_pc_lookup g pc' _ v' H). }
  destruct n as [|[|[|[|n]]]]; simpl pc_after in *.
  - (* the work function panics *)
    pose proof (gstep_AtTask g _ k t' v Hcr HG eq_refl Ht') as E.
    rewrite Htask, Hctx, Hf, Hpanic in E. rewrite E.
    destruct (set_pc_fields g (AtDefer (Some p)) v) as (Eg & Eh & Ef & Et & Ec).
    split; [| by rewrite Ec]. split_and!.
    + by apply Hmove.
    + by rewrite Et.
    + by rewrite Eg.
    + by rewrite Ef.
    + exists t'. by rewrite Eh.
  - (* recover() and the handler *)
    unfold gstep. rewrite Hcr, HG. simpl. rewrite Hh. simpl in Hev.
    destruct h as [f|].
    + rewrite (Hret f eq_refl).
      destruct (set_pc_fields g AtChildDone (log (EvPanicHandler g p) v))
        as (Eg & Eh & Ef & Et & Ec).
      split; [| by rewrite Ec]. split_and!.
      * by apply Hmove.
      * rewrite Et. simpl. rewrite events_of_app, Hev. simpl.
        by rewrite bool_decide_eq_true_2.
      * by rewrite Eg.
      * by rewrite Ef.
      * exists t'. by rewrite Eh.
    + destruct (set_pc_fields g AtChildDone v) as (Eg & Eh & Ef & Et & Ec).
      split; [| by rewrite Ec]. split_and!.
      * by apply Hmove.
      * by rewrite Et.
      * by rewrite Eg.
      * by rewrite Ef.
      * exists t'. by rewrite Eh.
  - (* childWG.Done() *)
    destruct (gstep_AtChildDone g _ v Hw Hcr HG eq_refl) as (t0 & Ht0 & _ & E).
    cbn [tw] in Ht0, E. rewrite Ht' in Ht0. injection Ht0 as <-. rewrite E.
    set (v0 := log _ (set_counter (ChildWG ptr) (childWG t' - 1) v)).
    destruct (set_pc_fields g AtParentDone v0) as (Eg & Eh & Ef & Et & Ec).
    assert (goroutines v0 !! g = Some {| tw := ptr; pc := AtChildDone |}) as HG0.
    { unfold v0, log. cbn [goroutines]. by rewrite goroutines_set_counter. }
    split.
    + split_and!.
      * apply (set_pc_lookup g AtParentDone _ v0 HG0).
      * rewrite Et. unfold v0, log. cbn [trace]. rewrite trace_set_counter.
        rewrite events_of_app, Hev. simpl. by rewrite bool_decide_eq_true_2.
      * rewrite Eg. unfold v0, set_counter. by rewrite Ht'.
      * rewrite Ef. unfold v0, log. cbn [fired]. by rewrite fired_set_counter.
      * exists (set_childWG (childWG t' - 1) t'). rewrite Eh.
        unfold v0, set_counter. rewrite Ht'. simpl. split; [| done].
        apply list_lookup_insert_eq. by apply lookup_lt_Some in Ht'.
    + rewrite Ec. unfold v0, log. cbn [crashed]. by rewrite crashed_set_counter.
  - (* parentWG.Done() *)
    destruct (gstep_AtParentDone g _ v Hw Hcr HG eq_refl) as (_ & E). rewrite E.
    set (v0 := log _ (set_counter ParentWG (parentWG (gm v) - 1) v)).
    destruct (set_pc_fields g Exited v0) as (Eg & Eh & Ef & Et & Ec).
    assert (goroutines v0 !! g = Some {| tw := ptr; pc := AtParentDone |}) as HG0 by done.
    split; [| by rewrite Ec]. split_and!.
    + apply (set_pc_lookup g Exited _ v0 HG0).
    + rewrite Et. unfold v0. simpl. rewrite events_of_app, Hev. simpl.
      rewrite bool_decide_eq_true_2 by done. by rewrite <- app_assoc.
    + by rewrite Eg.
    + by rewrite Ef.
    + exists t'. by rewrite Eh.
  - (* finished *)
    assert (gstep g v = v) as ->.
    { unfold gstep. by rewrite Hcr, HG. }
    split; [| done]. split_and!; try done. by exists t'.
Qed.

Lemma run_ticks_crashed s w : crashed w = true → crashed (run_ticks s w) = true.
Proof. intros H. by rewrite run_ticks_dead. Qed.

Lemma quanta_cons_own g s : quanta g (Some g :: s) = S (quanta g s).
Proof. unfold quanta. by rewrite filter_cons, decide_True. Qed.

Lemma quanta_cons_other g o s : o ≠ Some g → quanta g (o :: s) = quanta g s.
Proof. intros H. unfold quanta. by rewrite filter_cons, decide_False. Qed.

Lemma stands_run_ticks h fd t k p g ptr s : ∀ v n,
  wf v → task t k (Done fd (childCtx t)) = Panicked p → handler_returns h p →
  stands h fd t k p g ptr v n → crashed (run_ticks s v) = false →
  stands h fd t k p g ptr (run_ticks s v) (n + quanta g s).
Proof.
  induction s as [|o s IH]; intros v n Hw Hpanic Hret Hst Hlive.
  { simpl. by rewrite Nat.add_0_r. }
  assert (crashed v = false) as Hcr.
  { destruct (crashed v) eqn:E; [| done]. by rewrite (run_ticks_crashed _ v E) in Hlive. }
  simpl in Hlive |- *. destruct o as [x|].
  - destruct (decide (x = g)) as [-> | Hne].
    + destruct (stands_own h fd t k p g ptr v n Hw Hcr Hpanic Hret Hst) as [Hst' _].
      rewrite quanta_cons_own. replace (n + S (quanta g s)) with (S n + quanta g s) by lia.
      apply IH; try done. by apply wf_gstep.
    + rewrite quanta_cons_other by congruence.
      apply IH; try done; [by apply wf_gstep | by apply stands_other].
  - rewrite quanta_cons_other by done. by apply IH.
Qed.

(** C1, as the code has it: a goroutine launched by [StartAll] or [Start]
    (the goroutines of a reachable world are those) whose work function
    panics with [p], when no handler is installed or the installed handler
    returns on [p]. Run alone to its end it leaves the process alive, calls
    the handler once when one is set and before either [Done()], then takes
    one off the wrapper's counter and one off the manager's counter, and is
    finished; further quanta change nothing. Under any schedule that leaves
    the process alive, its own next quantum never terminates the process,
    it stands where the number of its quanta puts it and its closure has
    logged the handler call (if a handler is set), [childWG.Done()] and
    [parentWG.Done()] once each in that order, nothing else and never twice;
    the counters count the goroutines that still owe them a [Done()], and
    after four quanta this one is finished and counted by neither. *)
Theorem C1_panicking_task_is_recovered g G k t p w :
  reachable w → crashed w = false →
  goroutines w !! g = Some G → pc G = AtTask k → heap w !! tw G = Some t →
  task t k (Done (fired w) (childCtx t)) = Panicked p →
  handler_returns (PanicHandler (gm w)) p →
  (∀ n, 4 ≤ n →
     let w' := run_ticks (replicate n (Some g)) w in
     crashed w' = false
     ∧ trace w' = trace w ++ recovered_events (PanicHandler (gm w)) g (tw G) p
     ∧ counter (ChildWG (tw G)) w' = (counter (ChildWG (tw G)) w - 1)%Z
     ∧ counter ParentWG w' = (counter ParentWG w - 1)%Z
     ∧ goroutines w' !! g = Some {| tw := tw G; pc := Exited |})
  ∧ (∀ s, let v := run_ticks s w in
       crashed v = false →
       crashed (gstep g v) = false
       ∧ goroutines v !! g = Some {| tw := tw G; pc := pc_after k p (quanta g s) |}
       ∧ events_of g (trace v)
         = logged_after (PanicHandler (gm w)) g (tw G) p (quanta g s)
       ∧ counter (ChildWG (tw G)) v = count (pending_child (tw G)) (goroutines v)
       ∧ counter ParentWG v = count pending_parent (goroutines v)
       ∧ (4 ≤ quanta g s →
            events_of g (trace v) = recovered_events (PanicHandler (gm w)) g (tw G) p
            ∧ goroutines v !! g = Some {| tw := tw G; pc := Exited |}
            ∧ pending_child (tw G) {| tw := tw G; pc := Exited |} = false
            ∧ pending_parent {| tw := tw G; pc := Exited |} = false)).
Proof.
  intros Hr Hcr HG Hpc Ht Hpanic Hret. pose proof (reachable_wf _ Hr) as Hw.
  split.
  { intros n Hn. by apply (run_recovered g G k t p n w). }
  intros s. cbv zeta. intros Hlive.
  assert (stands (PanicHandler (gm w)) (fired w) t k p g (tw G) w 0) as Hst.
  { destruct G as [ptr pc0]. simpl in *. subst pc0. split_and!; try done.
    - destruct Hr as [ops ->].
      assert (trace_ok NewGoroutineManager) as H0 by (intros g'; done).
      pose proof (trace_ok_run ops _ H0 g) as Hok. rewrite HG in Hok. exact Hok.
    - by exists t. }
  pose proof (stands_run_ticks _ _ _ _ _ _ _ s w 0 Hw Hpanic Hret Hst Hlive) as Hst'.
  simpl in Hst'.
  pose proof (wf_run_ticks s w Hw) as Hwv.
  destruct (stands_own _ _ _ _ _ _ _ _ _ Hwv Hlive Hpanic Hret Hst') as [_ Hnext].
  destruct Hst' as (HGv & Hev & _ & _ & t' & Ht' & _).
  split_and!; try done.
  - rewrite (counter_child _ _ _ Ht'). apply (wf_child _ Hwv _ _ Ht').
  - apply (wf_parent _ Hwv).
  - intros H4. rewrite Hev, HGv, recovered_events_eq.
    destruct (quanta g s) as [|[|[|[|q]]]]; try lia. simpl.
    split_and!; try done. unfold pending_child. simpl. apply andb_false_r.
Qed.

Lemma C1_witness :
  let w := run [OpSetPanicHandler (Some DefaultPanicHandler);
                OpAddTask "a" panics_at_once; OpStart "a"] NewGoroutineManager in
  let w' := run_ticks (replicate 4 (Some 0)) w in
  crashed w' = false
  ∧ trace w' = trace w ++ [EvPanicHandler 0 "boom"; EvChildDone 0 0; EvParentDone 0]
  ∧ counter (ChildWG 0) w' = 0%Z ∧ counter ParentWG w' = 0%Z.
Proof.
  set (w := run [OpSetPanicHandler (Some DefaultPanicHandler);
                 OpAddTask "a" panics_at_once; OpStart "a"] NewGoroutineManager).
  assert (reachable w) as Hr by (eexists; reflexivity).
  assert (handler_returns (PanicHandler (gm w)) "boom") as Hh.
  { intros f Hf. injection Hf as <-. reflexivity. }
  destruct (C1_panicking_task_is_recovered 0 {| tw := 0; pc := AtTask 0 |} 0
              {| childWG := 1; childCtx := WithCancel 1 (WithCancel 0 Background);
                 childCancel := 1; task := panics_at_once |} "boom" w
              Hr eq_refl eq_refl eq_refl eq_refl eq_refl Hh) as [Hsolo _].
  destruct (Hsolo 4 ltac:(lia)) as (H1 & H2 & H3 & H4 & _).
  split; [exact H1 |]. split; [exact H2 |]. split; [exact H3 | exact H4].
Defined.

(** C1 fails as stated: with a handler that panics itself, a panicking task
    launched by [StartAll] terminates the process, and the wrapper's counter
    and the manager's counter both stay at one. *)
Lemma C1_counterexample :
  let w := run [OpSetPanicHandler (Some rethrow);
                OpAddTask "server" panics_at_once; OpStartAll] NewGoroutineManager in
  let w' := run_ticks (replicate 4 (Some 0)) w in
  goroutines w = [{| tw := 0; pc := AtTask 0 |}] ∧ crashed w = false
  ∧ crashed w' = true
  ∧ counter (ChildWG 0) w' = 1%Z ∧ counter ParentWG w' = 1%Z
  ∧ events_of 0 (trace w') = [EvPanicHandler 0 "boom"].
Proof. vm_compute. repeat split. Qed.

End goroutine.
